(** * UHF RFID reader (R200 family): protocol core

    A shallow embedding of the serial protocol core of the repository:

    - [RFID_Moudel/rfid_core.py]: class [RFIDReader] (connection life
      cycle, [send_command], the continuous-read thread function
      [_read_thread_func], the power, Select, tag-memory and write
      operations with their command builders);
    - [serial_handler.py]: [checksum] and [SerialReadThread.run], the
      Qt variant of the same continuous-read decoder;
    - [pages/page_debug.py]: [DebugPage.validate_command], the check of
      a command typed as hexadecimal text.

    Bytes are integers of [Z] in the range 0..255, a [bytearray] is a
    [list Z], a Python [str] is a [string].  Methods of [RFIDReader]
    are functions in a state-and-exception monad over the pair of the
    outside world (serial port, device, clock) and the object's fields.
    Log lines are left out: [self.log] neither reads nor changes what
    the methods compute.  The reader thread is modelled by what it does
    with the successive reads, not as a concurrent activity. *)

From Stdlib Require Import String Ascii DecimalString.
From Stdlib Require DecimalZ.
From Stdlib Require Import ZArith List Bool Lia.
Import ListNotations.
Open Scope Z_scope.

(** ** Python formatting helpers *)

Module Fmt.

(** One upper-case hexadecimal digit, for a value in 0..15. *)
Definition hex_digit (d : Z) : ascii :=
  nth (Z.to_nat d) (list_ascii_of_string "0123456789ABCDEF") "0"%char.

(** [f"{b:02X}"] for a byte [b] (0..255): exactly two digits. *)
Definition fmt_02X (b : Z) : string :=
  String (hex_digit (b / 16)) (String (hex_digit (b mod 16)) EmptyString).

(** [' '.join([f"{b:02X}" for b in bs])]. *)
Definition hex_join (bs : list Z) : string :=
  String.concat " " (map fmt_02X bs).

(** [f"{n}"] for a Python [int]. *)
Definition fmt_int (n : Z) : string :=
  NilZero.string_of_int (Z.to_int n).

End Fmt.

(** ** Python sequence helpers *)

(** [sum(data)] over a byte sequence. *)
Definition sum (data : list Z) : Z := fold_right Z.add 0 data.

(** [data[lo:hi]] for in-range, non-negative [lo <= hi]. *)
Definition slice (lo hi : nat) (data : list Z) : list Z :=
  firstn (hi - lo) (skipn lo data).

(** [data[i]]; every use below is guarded by a length test. *)
Definition at_ (data : list Z) (i : nat) : Z := nth i data 0.

(** [serial_handler.checksum]: [sum(data) & 0xFF]. *)
Definition checksum (data : list Z) : Z := Z.land (sum data) 0xFF.

(** A byte sequence as the serial port delivers it. *)
Definition is_byte (b : Z) : Prop := 0 <= b < 256.
Definition bytes (data : list Z) : Prop := Forall is_byte data.

(** ** Card notifications *)

(** The [card_info] dictionary: its four keys, all strings. *)
Record card_info := mk_card_info {
  rssi : string;
  pc : string;
  epc : string;
  crc : string
}.

(** What a decoder loop hands to its consumer. *)
Inductive event :=
| CardRead (info : card_info)
| ReadFailed.

(** The RSSI conversion shared by both decoders and [read_card_once]. *)
Definition rssi_dbm (rssi_raw : Z) : Z :=
  if 127 <? rssi_raw then - (256 - rssi_raw) else - rssi_raw.

(** Field extraction from a 24-byte packet (or a read-once response). *)
Definition card_info_of (packet : list Z) : card_info :=
  {| rssi := Fmt.fmt_int (rssi_dbm (at_ packet 5));
     pc := (Fmt.fmt_02X (at_ packet 6) ++ " " ++ Fmt.fmt_02X (at_ packet 7))%string;
     epc := Fmt.hex_join (slice 8 20 packet);
     crc := (Fmt.fmt_02X (at_ packet 20) ++ " " ++ Fmt.fmt_02X (at_ packet 21))%string |}.

(** ** The continuous-read decoder of [rfid_core.py] *)

Module Core.

(** One pass through the body of the inner [while True] of
    [RFIDReader._read_thread_func]: either [break], or the next buffer,
    the next value of [read_failed_logged] and what was reported. *)
Inductive pass :=
| Break
| Continue (buffer : list Z) (read_failed_logged : bool) (out : list event).

Definition scan (buffer : list Z) (read_failed_logged : bool) : pass :=
  if (length buffer <? 1)%nat then Break
  else if negb (at_ buffer 0 =? 0xBB) then
    Continue (tl buffer) read_failed_logged []
  else if (length buffer <? 7)%nat then Break
  else
    let frame_type := at_ buffer 1 in
    let command := at_ buffer 2 in
    if (frame_type =? 0x01) && (command =? 0xFF) then
      if (8 <=? length buffer)%nat then
        Continue (skipn 8 buffer) true
                 (if read_failed_logged then [] else [ReadFailed])
      else Break
    else if (frame_type =? 0x02) && ((command =? 0x22) || (command =? 0x27)) then
      if (length buffer <? 24)%nat then Break
      else if negb (at_ buffer 23 =? 0x7E) then
        Continue (tl buffer) read_failed_logged []
      else
        let packet := firstn 24 buffer in
        let buffer := skipn 24 buffer in
        let data_length := Z.lor (Z.shiftl (at_ packet 3) 8) (at_ packet 4) in
        if negb (data_length =? 0x11) then
          Continue buffer read_failed_logged []
        else
          let info := card_info_of packet in
          let checksum := Z.land (sum (slice 1 22 packet)) 0xFF in
          if negb (checksum =? at_ packet 22) then
            Continue buffer read_failed_logged []
          else
            Continue buffer false [CardRead info]
    else Continue (tl buffer) read_failed_logged [].

(** The inner loop; [None] only when [fuel] runs out. *)
Fixpoint inner_loop (fuel : nat) (buffer : list Z) (read_failed_logged : bool)
  : option (list Z * bool * list event) :=
  match fuel with
  | O => None
  | S fuel =>
    match scan buffer read_failed_logged with
    | Break => Some (buffer, read_failed_logged, [])
    | Continue buffer' logged' out =>
      match inner_loop fuel buffer' logged' with
      | Some (b, l, evs) => Some (b, l, out ++ evs)
      | None => None
      end
    end
  end.

(** The two locals of the thread function that live across reads. *)
Record locals := mk_locals {
  buffer : list Z;
  read_failed_logged : bool
}.

Definition start : locals := {| buffer := []; read_failed_logged := false |}.

(** One pass through the outer loop with [data] returned by
    [self.ser.read(...)]: nothing happens on an empty read. *)
Definition on_data (st : locals) (data : list Z) : option (locals * list event) :=
  match data with
  | [] => Some (st, [])
  | _ =>
    let buf := buffer st ++ data in
    match inner_loop (S (length buf)) buf (read_failed_logged st) with
    | Some (b, l, evs) => Some ({| buffer := b; read_failed_logged := l |}, evs)
    | None => None
    end
  end.

(** The thread function over [chunks], the successive results of
    [self.ser.read(...)] while the reader stays connected and reading.
    A [CardRead] stands for the call [callback(card_info)], a
    [ReadFailed] for the one log line the flag guards. *)
Fixpoint read_thread_func (st : locals) (chunks : list (list Z))
  : option (locals * list event) :=
  match chunks with
  | [] => Some (st, [])
  | data :: chunks =>
    match on_data st data with
    | Some (st', evs) =>
      match read_thread_func st' chunks with
      | Some (st'', evs') => Some (st'', evs ++ evs')
      | None => None
      end
    | None => None
    end
  end.

End Core.

(** ** The continuous-read decoder of [serial_handler.py] *)

Module SerialHandler.

(** One pass through the body of the inner [while True] of
    [SerialReadThread.run].  The loop keeps no flag of its own: the
    signal [read_failed] is emitted for each error packet, [card_readed]
    for each card packet. *)
Inductive pass :=
| Break
| Continue (buffer : list Z) (out : list event).

Definition scan (buffer : list Z) : pass :=
  if (length buffer <? 1)%nat then Break
  else if negb (at_ buffer 0 =? 0xBB) then Continue (tl buffer) []
  else if (length buffer <? 7)%nat then Break
  else
    let frame_type := at_ buffer 1 in
    let command := at_ buffer 2 in
    if (frame_type =? 0x01) && (command =? 0xFF) then
      if (8 <=? length buffer)%nat then Continue (skipn 8 buffer) [ReadFailed]
      else Break
    else if (frame_type =? 0x02) && ((command =? 0x22) || (command =? 0x27)) then
      if (length buffer <? 24)%nat then Break
      else if negb (at_ buffer 23 =? 0x7E) then Continue (tl buffer) []
      else
        let packet := firstn 24 buffer in
        let buffer := skipn 24 buffer in
        let data_length := Z.lor (Z.shiftl (at_ packet 3) 8) (at_ packet 4) in
        if negb (data_length =? 0x11) then Continue buffer []
        else
          let info := card_info_of packet in
          let checksum := Z.land (sum (slice 1 22 packet)) 0xFF in
          if negb (checksum =? at_ packet 22) then Continue buffer []
          else Continue buffer [CardRead info]
    else Continue (tl buffer) [].

Fixpoint inner_loop (fuel : nat) (buffer : list Z) : option (list Z * list event) :=
  match fuel with
  | O => None
  | S fuel =>
    match scan buffer with
    | Break => Some (buffer, [])
    | Continue buffer' out =>
      match inner_loop fuel buffer' with
      | Some (b, evs) => Some (b, out ++ evs)
      | None => None
      end
    end
  end.

(** One pass through the outer loop; the only local is [buffer]. *)
Definition on_data (buffer data : list Z) : option (list Z * list event) :=
  match data with
  | [] => Some (buffer, [])
  | _ => let buf := buffer ++ data in inner_loop (S (length buf)) buf
  end.

(** [SerialReadThread.run] over the successive reads [chunks]; a
    [CardRead] stands for [card_readed.emit(card_info)], a [ReadFailed]
    for [read_failed.emit()]. *)
Fixpoint run (buffer : list Z) (chunks : list (list Z)) : option (list Z * list event) :=
  match chunks with
  | [] => Some (buffer, [])
  | data :: chunks =>
    match on_data buffer data with
    | Some (buffer', evs) =>
      match run buffer' chunks with
      | Some (b, evs') => Some (b, evs ++ evs')
      | None => None
      end
    | None => None
    end
  end.

End SerialHandler.

(** ** String arguments: [str.replace], [str.zfill], [bytes.fromhex] *)

Module Str.

(** [s.replace(" ", "")]. *)
Fixpoint remove_spaces (s : string) : string :=
  match s with
  | EmptyString => EmptyString
  | String c s => if Ascii.eqb c " " then remove_spaces s else String c (remove_spaces s)
  end.

Fixpoint repeat0 (n : nat) (s : string) : string :=
  match n with
  | O => s
  | S n => String "0" (repeat0 n s)
  end.

(** [s.zfill(width)]: zeros go after a leading sign. *)
Definition zfill (width : nat) (s : string) : string :=
  let pad := (width - String.length s)%nat in
  match s with
  | String c rest =>
    if Ascii.eqb c "+" || Ascii.eqb c "-" then String c (repeat0 pad rest)
    else repeat0 pad s
  | EmptyString => repeat0 pad s
  end.

(** ASCII white space, skipped by [bytes.fromhex] between bytes. *)
Definition is_space (c : ascii) : bool :=
  let n := nat_of_ascii c in
  (n =? 32)%nat || ((9 <=? n)%nat && (n <=? 13)%nat).

Definition hex_value (c : ascii) : option Z :=
  let n := Z.of_nat (nat_of_ascii c) in
  if (48 <=? n) && (n <=? 57) then Some (n - 48)
  else if (65 <=? n) && (n <=? 70) then Some (n - 55)
  else if (97 <=? n) && (n <=? 102) then Some (n - 87)
  else None.

(** [bytes.fromhex(s)]; [None] stands for [ValueError]. *)
Fixpoint fromhex (s : string) : option (list Z) :=
  match s with
  | EmptyString => Some []
  | String c s' =>
    if is_space c then fromhex s'
    else
      match hex_value c, s' with
      | Some hi, String d s'' =>
        match hex_value d with
        | Some lo =>
          match fromhex s'' with
          | Some bs => Some (16 * hi + lo :: bs)
          | None => None
          end
        | None => None
        end
      | _, _ => None
      end
  end.

End Str.

(** ** Command frames built by [RFIDReader] *)

Module Cmd.

Definition read_once : list Z := [0xBB; 0x00; 0x22; 0x00; 0x00; 0x22; 0x7E].
Definition start_inventory : list Z :=
  [0xBB; 0x00; 0x27; 0x00; 0x03; 0x22; 0xFF; 0xFF; 0x4A; 0x7E].
Definition stop_inventory : list Z := [0xBB; 0x00; 0x28; 0x00; 0x00; 0x28; 0x7E].
Definition get_gain : list Z := [0xBB; 0x00; 0xB7; 0x00; 0x00; 0xB7; 0x7E].

(** [set_select_mode], lines 622-632; [mode] is a byte. *)
Definition select_mode (mode : Z) : list Z :=
  let command := [0xBB; 0x00; 0x12; 0x00; 0x01; mode] in
  let checksum := Z.land (sum (slice 1 6 command)) 0xFF in
  command ++ [checksum; 0x7E].

(** [set_select_params], lines 688-706. *)
Definition select_params (epc_bytes : list Z) : list Z :=
  let command :=
    [0xBB; 0x00; 0x0C; 0x00; 0x13; 0x01; 0x00; 0x00; 0x00; 0x20; 0x60; 0x00] in
  let command := command ++ epc_bytes in
  let checksum := Z.land (sum (slice 1 24 command)) 0xFF in
  let command := command ++ [checksum] in
  command ++ [0x7E].

(** [write_epc], lines 950-973. *)
Definition write_epc (pwd_bytes epc_bytes : list Z) : list Z :=
  let command := [0xBB; 0x00; 0x49; 0x00; 0x11] in
  let command := command ++ pwd_bytes in
  let command := command ++ [0x01; 0x02; 0x00; 0x06] in
  let command := command ++ epc_bytes in
  let command := command ++ [sum (skipn 1 command) mod 256] in
  command ++ [0x7E].

(** [read_tag_memory], lines 848-871; the three last arguments are
    Python integers of any size. *)
Definition read_tag_memory (pwd_bytes : list Z) (membank start_addr length : Z) : list Z :=
  let command := [0xBB; 0x00; 0x39; 0x00; 0x09] in
  let command := command ++ pwd_bytes in
  let command :=
    command ++ [Z.land membank 0xFF;
                Z.land start_addr 0xFF;
                Z.land (Z.shiftr start_addr 8) 0xFF;
                Z.land length 0xFF;
                Z.land (Z.shiftr length 8) 0xFF] in
  let checksum := Z.land (sum (skipn 1 command)) 0xFF in
  let command := command ++ [checksum] in
  command ++ [0x7E].

(** The access-password argument of [write_epc] and [read_tag_memory]:
    default, left padding, decoding and the 4-byte test.  [None] is
    either rejection (wrong length or [ValueError]). *)
Definition password (access_password : string) : option (list Z) :=
  let access_password :=
    if (String.length access_password =? 0)%nat then "00000000"%string
    else if (String.length access_password <? 8)%nat then Str.zfill 8 access_password
    else access_password in
  match Str.fromhex access_password with
  | Some pwd_bytes => if (length pwd_bytes =? 4)%nat then Some pwd_bytes else None
  | None => None
  end.

(** The EPC argument of [write_epc]: spaces removed, decoded, 12 bytes. *)
Definition new_epc (new_epc : string) : option (list Z) :=
  match Str.fromhex (Str.remove_spaces new_epc) with
  | Some epc_bytes => if (length epc_bytes =? 12)%nat then Some epc_bytes else None
  | None => None
  end.

(** [write_card], lines 772-790. *)
Definition write_card (data_bytes : list Z) : list Z :=
  let command :=
    [0xBB; 0x00; 0x49; 0x00; 0x11; 0x00; 0x00; 0x00; 0x00; 0x03; 0x00; 0x00; 0x00;
     Z.of_nat (length data_bytes)] in
  let command := command ++ data_bytes in
  let command := command ++ [sum (skipn 1 command) mod 256] in
  command ++ [0x7E].

(** The dictionary [POWER_COMMANDS], in its order of definition. *)
Definition POWER_COMMANDS : list (string * list Z) :=
  [("12.5 dBm (0.6m)"%string, [0xBB; 0x00; 0xB6; 0x00; 0x02; 0x04; 0xE2; 0x9E; 0x7E]);
   ("14 dBm (0.8m)"%string, [0xBB; 0x00; 0xB6; 0x00; 0x02; 0x05; 0x78; 0x35; 0x7E]);
   ("15.5 dBm (0.9m)"%string, [0xBB; 0x00; 0xB6; 0x00; 0x02; 0x06; 0x0E; 0xCC; 0x7E]);
   ("17 dBm (1m)"%string, [0xBB; 0x00; 0xB6; 0x00; 0x02; 0x06; 0xA4; 0x62; 0x7E]);
   ("18.5 dBm (1.15m)"%string, [0xBB; 0x00; 0xB6; 0x00; 0x02; 0x07; 0x3A; 0xF9; 0x7E]);
   ("20 dBm (2m)"%string, [0xBB; 0x00; 0xB6; 0x00; 0x02; 0x07; 0xD0; 0x8F; 0x7E])].

Definition SUCCESS_RESPONSE : list Z := [0xBB; 0x01; 0xB6; 0x00; 0x01; 0x00; 0xB8; 0x7E].

(** [d[k]] and [k in d] for a dictionary with string keys: [None] when
    the key is absent. *)
Fixpoint lookup (k : string) (d : list (string * list Z)) : option (list Z) :=
  match d with
  | [] => None
  | (k', v) :: d => if String.eqb k k' then Some v else lookup k d
  end.

End Cmd.

(** ** The command check of the debug page *)

Module Debug.

(** The second component of the result of [validate_command], a
    message, by its case. *)
Inductive message :=
| OddLength
| InvalidHex
| TooShort
| BadHeader
| BadTrailer
| BadChecksum (calculated received : Z)
| Valid.

(** [DebugPage.validate_command] of [pages/page_debug.py], on ASCII
    text: a [string] is a sequence of one-byte characters, so
    [String.length] is Python's [len] only there.  On text with a
    character outside ASCII the code reports invalid hexadecimal where
    this definition may report an odd length; nothing below feeds it
    such text. *)
Definition validate_command (command_str : string) : bool * message :=
  let command_str := Str.remove_spaces command_str in
  if negb (String.length command_str mod 2 =? 0)%nat then (false, OddLength)
  else
    match Str.fromhex command_str with
    | None => (false, InvalidHex)
    | Some command_bytes =>
      if (length command_bytes <? 7)%nat then (false, TooShort)
      else if negb (at_ command_bytes 0 =? 0xBB) then (false, BadHeader)
      else if negb (at_ command_bytes (length command_bytes - 1) =? 0x7E)
      then (false, BadTrailer)
      else
        let calculated_checksum :=
          Z.land (sum (slice 1 (length command_bytes - 2) command_bytes)) 0xFF in
        let received_checksum := at_ command_bytes (length command_bytes - 2) in
        if negb (calculated_checksum =? received_checksum)
        then (false, BadChecksum calculated_checksum received_checksum)
        else (true, Valid)
    end.

End Debug.

(** ** The outside world: serial port, device, clock *)

Module Env.

(** What the device side does at one command exchange: the driver
    fails at [reset_input_buffer], fails at [write], or accepts the
    command and the device answers [data] (possibly nothing). *)
Inductive exchange :=
| ResetFails
| WriteFails
| Answer (data : list Z).

Record World := mk_world {
  comports : list (string * string); (* serial.tools.list_ports.comports() *)
  busy : list string;                (* ports on which serial.Serial raises *)
  close_fails : bool;                (* Serial.close raises *)
  script : list exchange;            (* the exchanges to come; then silence *)
  in_buffer : list Z;                (* bytes waiting in the input buffer *)
  written : list (list Z);           (* every successful write, in order *)
  opened : list string;              (* every successful open, in order *)
  closed : list string;              (* every successful close, in order *)
  clock_ms : Z                       (* time spent in time.sleep *)
}.

Definition set_script (w : World) (s : list exchange) : World :=
  mk_world (comports w) (busy w) (close_fails w) s (in_buffer w)
           (written w) (opened w) (closed w) (clock_ms w).
Definition set_in_buffer (w : World) (b : list Z) : World :=
  mk_world (comports w) (busy w) (close_fails w) (script w) b
           (written w) (opened w) (closed w) (clock_ms w).
Definition log_write (w : World) (data : list Z) : World :=
  mk_world (comports w) (busy w) (close_fails w) (script w) (in_buffer w)
           (written w ++ [data]) (opened w) (closed w) (clock_ms w).
Definition log_open (w : World) (port : string) : World :=
  mk_world (comports w) (busy w) (close_fails w) (script w) (in_buffer w)
           (written w) (opened w ++ [port]) (closed w) (clock_ms w).
Definition log_close (w : World) (port : string) : World :=
  mk_world (comports w) (busy w) (close_fails w) (script w) (in_buffer w)
           (written w) (opened w) (closed w ++ [port]) (clock_ms w).
Definition advance (w : World) (ms : Z) : World :=
  mk_world (comports w) (busy w) (close_fails w) (script w) (in_buffer w)
           (written w) (opened w) (closed w) (clock_ms w + ms).

(** A [serial.Serial] object as the code looks at it. *)
Record Serial := mk_serial {
  port : string;
  is_open : bool
}.

End Env.

(** ** [RFIDReader]: fields, exceptions, the method monad *)

Module Reader.
Import Env.

(** The instance attributes.  [gain] holds [pow_value], the gain in
    hundredths of a dBm (the source stores the float [pow_value / 100]);
    [read_thread] tells whether a [Thread] object is stored;
    [last_port] is [None] until [connect] creates the attribute. *)
Record RFIDReader := mk_reader {
  ser : option Serial;
  group_read_active : bool;
  read_thread : bool;
  current_power : option string;
  gain : option Z;
  select_mode : Z;
  select_param : option string;
  last_port : option string
}.

(** [RFIDReader.__init__]. *)
Definition init : RFIDReader :=
  mk_reader None false false None None 0x01 None None.

Definition with_ser (r : RFIDReader) (s : option Serial) : RFIDReader :=
  mk_reader s (group_read_active r) (read_thread r) (current_power r) (gain r)
            (select_mode r) (select_param r) (last_port r).
Definition with_group_read_active (r : RFIDReader) (b : bool) : RFIDReader :=
  mk_reader (ser r) b (read_thread r) (current_power r) (gain r)
            (select_mode r) (select_param r) (last_port r).
Definition with_read_thread (r : RFIDReader) (b : bool) : RFIDReader :=
  mk_reader (ser r) (group_read_active r) b (current_power r) (gain r)
            (select_mode r) (select_param r) (last_port r).
Definition with_gain (r : RFIDReader) (g : option Z) : RFIDReader :=
  mk_reader (ser r) (group_read_active r) (read_thread r) (current_power r) g
            (select_mode r) (select_param r) (last_port r).
Definition with_select_mode (r : RFIDReader) (m : Z) : RFIDReader :=
  mk_reader (ser r) (group_read_active r) (read_thread r) (current_power r) (gain r)
            m (select_param r) (last_port r).
Definition with_select_param (r : RFIDReader) (p : option string) : RFIDReader :=
  mk_reader (ser r) (group_read_active r) (read_thread r) (current_power r) (gain r)
            (select_mode r) p (last_port r).
Definition with_last_port (r : RFIDReader) (p : option string) : RFIDReader :=
  mk_reader (ser r) (group_read_active r) (read_thread r) (current_power r) (gain r)
            (select_mode r) (select_param r) p.

(** Exceptions, with the messages of [RFIDDeviceError] as tags. *)
Inductive exn :=
| RFIDDeviceError (msg : message)
| SerialException
| AttributeError
| ValueError
with message :=
| NotConnected            (* raised before any attempt *)
| ConnectionLost          (* reset_input_buffer failed *)
| ConnectionClosed        (* port found closed *)
| NoResponse              (* empty response on the last attempt *)
| Communication           (* serial exception while sending *)
| SendFailed (cause : exn) (* last attempt ended in an exception *)
| AllAttemptsFailed.      (* after the for loop *)

Inductive result (A : Type) :=
| Return (a : A)
| Raise (e : exn).
Arguments Return {A} a.
Arguments Raise {A} e.

Record state := mk_state {
  world : World;
  self : RFIDReader
}.

(** A method body: from a state to its result and the state it leaves
    (also when it raises); [None] when the fuel of a loop ran out. *)
Definition M (A : Type) : Type := state -> option (result A * state).

Definition ret {A} (a : A) : M A := fun s => Some (Return a, s).
Definition raise {A} (e : exn) : M A := fun s => Some (Raise e, s).
Definition out_of_fuel {A} : M A := fun _ => None.

Definition bind {A B} (m : M A) (k : A -> M B) : M B :=
  fun s =>
    match m s with
    | Some (Return a, s') => k a s'
    | Some (Raise e, s') => Some (Raise e, s')
    | None => None
    end.

(** [try: body  except ... as e: handler e]. *)
Definition try_except {A} (body : M A) (handler : exn -> M A) : M A :=
  fun s =>
    match body s with
    | Some (Return a, s') => Some (Return a, s')
    | Some (Raise e, s') => handler e s'
    | None => None
    end.

Definition get_self : M RFIDReader := fun s => Some (Return (self s), s).
Definition get_world : M World := fun s => Some (Return (world s), s).
Definition put_self (r : RFIDReader) : M unit :=
  fun s => Some (Return tt, mk_state (world s) r).
Definition put_world (w : World) : M unit :=
  fun s => Some (Return tt, mk_state w (self s)).

Declare Scope py_scope.
Delimit Scope py_scope with py.
Notation "x <- m ;; k" := (bind m (fun x => k))
  (at level 61, m at next level, right associativity) : py_scope.
Notation "m ;; k" := (bind m (fun _ => k))
  (at level 61, right associativity) : py_scope.
Open Scope py_scope.

Definition modify_self (f : RFIDReader -> RFIDReader) : M unit :=
  r <- get_self ;; put_self (f r).

(** *** The calls into pyserial and [time] *)

Definition list_devices : M (list (string * string)) :=
  w <- get_world ;; ret (comports w).

Definition Serial_ (p : string) : M Serial :=
  w <- get_world ;;
  if existsb (String.eqb p) (busy w) then raise SerialException
  else put_world (log_open w p) ;; ret (mk_serial p true).

Definition sleep (ms : Z) : M unit :=
  w <- get_world ;; put_world (advance w ms).

(** The attribute accesses [self.ser.<op>]: [AttributeError] on [None],
    [SerialException] on a closed port. *)
Definition on_ser {A} (op : Serial -> M A) : M A :=
  r <- get_self ;;
  match ser r with
  | None => raise AttributeError
  | Some s => op s
  end.

Definition ser_is_open : M bool := on_ser (fun s => ret (is_open s)).

Definition reset_input_buffer : M unit :=
  on_ser (fun s =>
    if negb (is_open s) then raise SerialException
    else
      w <- get_world ;;
      match script w with
      | ResetFails :: rest => put_world (set_script w rest) ;; raise SerialException
      | _ => put_world (set_in_buffer w [])
      end).

Definition write (data : list Z) : M nat :=
  on_ser (fun s =>
    if negb (is_open s) then raise SerialException
    else
      w <- get_world ;;
      match script w with
      | WriteFails :: rest => put_world (set_script w rest) ;; raise SerialException
      | Answer reply :: rest =>
        put_world (set_in_buffer (log_write (set_script w rest) data)
                                 (in_buffer w ++ reply)) ;;
        ret (length data)
      | _ => put_world (log_write w data) ;; ret (length data)
      end).

Definition in_waiting : M nat :=
  on_ser (fun _ => w <- get_world ;; ret (length (in_buffer w))).

(** [self.ser.read()], one byte; with nothing to read it gives up after
    the port's timeout of one second.  The code calls it only when
    [in_waiting > 0]. *)
Definition read1 : M (list Z) :=
  on_ser (fun _ =>
    w <- get_world ;;
    match in_buffer w with
    | b :: rest => put_world (set_in_buffer w rest) ;; ret [b]
    | [] => sleep 1000 ;; ret []
    end).

Definition close : M unit :=
  on_ser (fun s =>
    w <- get_world ;;
    if close_fails w then raise SerialException
    else put_world (log_close w (port s))).

(** *** Methods *)

Definition is_connected_of (r : RFIDReader) : bool :=
  match ser r with
  | Some s => is_open s
  | None => false
  end.

Definition is_connected : M bool :=
  r <- get_self ;; ret (is_connected_of r).

(** The polling loop of [send_command], lines 199-212.  [wait_time]
    counts the additions of 0.01 s, [max_wait] is 100 of them. *)
Fixpoint wait_response (fuel : nat) (response : list Z) (wait_time : nat) : M (list Z) :=
  match fuel with
  | O => out_of_fuel
  | S fuel =>
    if (wait_time <? 100)%nat then
      n <- in_waiting ;;
      if (0 <? n)%nat then
        byte <- read1 ;;
        let response := response ++ byte in
        if list_eq_dec Z.eq_dec byte [0x7E] then ret response
        else wait_response fuel response wait_time
      else
        sleep 10 ;;
        wait_response fuel response (S wait_time)
    else ret response
  end.

(** How one pass through a [for] loop body ends. *)
Inductive loop_end (A : Type) :=
| Exit (a : A)   (* [return a] *)
| Next.          (* [continue], or the end of the body *)
Arguments Exit {A} a.
Arguments Next {A}.

(** The body of [for retry in range(max_retries)], lines 178-236. *)
Definition send_attempt (fuel : nat) (command : list Z) (retry : nat) : M (loop_end (list Z)) :=
  try_except
    (try_except reset_input_buffer
       (fun _ => modify_self (fun r => with_ser r None) ;;
                 raise (RFIDDeviceError ConnectionLost)) ;;
     open <- ser_is_open ;;
     if negb open then
       modify_self (fun r => with_ser r None) ;;
       raise (RFIDDeviceError ConnectionClosed)
     else
       _ <- write command ;;
       response <- wait_response fuel [] 0 ;;
       match response with
       | [] =>
         if (retry <? 3 - 1)%nat then sleep 100 ;; ret Next
         else raise (RFIDDeviceError NoResponse)
       | _ => ret (Exit response)
       end)
    (fun e =>
       match e with
       | SerialException =>
         modify_self (fun r => with_ser r None) ;;
         raise (RFIDDeviceError Communication)
       | _ =>
         if (retry <? 3 - 1)%nat then sleep 100 ;; ret Next
         else raise (RFIDDeviceError (SendFailed e))
       end).

Fixpoint send_attempts (fuel : nat) (command : list Z) (retry remaining : nat) : M (list Z) :=
  match remaining with
  | O => raise (RFIDDeviceError AllAttemptsFailed)
  | S remaining =>
    e <- send_attempt fuel command retry ;;
    match e with
    | Exit response => ret response
    | Next => send_attempts fuel command (S retry) remaining
    end
  end.

(** [RFIDReader.send_command]. *)
Definition send_command (fuel : nat) (command : list Z) : M (list Z) :=
  c <- is_connected ;;
  if negb c then raise (RFIDDeviceError NotConnected)
  else send_attempts fuel command 0 3.

(** [response.startswith(prefix)]. *)
Fixpoint startswith (response prefix : list Z) : bool :=
  match prefix, response with
  | [], _ => true
  | p :: prefix, b :: response => (b =? p) && startswith response prefix
  | _ :: _, [] => false
  end.

(** [RFIDReader.stop_reading].  The bounded [join] of the reader thread
    is not timed. *)
Definition stop_reading (fuel : nat) : M bool :=
  c <- is_connected ;;
  if negb c then ret false
  else
    r <- get_self ;;
    if negb (group_read_active r) then ret true
    else
      try_except
        (_ <- send_command fuel Cmd.stop_inventory ;;
         modify_self (fun r => with_group_read_active r false) ;;
         modify_self (fun r => with_read_thread r false) ;;
         ret true)
        (fun _ => ret false).

(** [RFIDReader.start_reading]; the thread it starts is [Core.read_thread_func]. *)
Definition start_reading (fuel : nat) : M bool :=
  c <- is_connected ;;
  if negb c then ret false
  else
    r <- get_self ;;
    if group_read_active r then ret true
    else
      try_except
        (_ <- send_command fuel Cmd.start_inventory ;;
         modify_self (fun r => with_group_read_active r true) ;;
         modify_self (fun r => with_read_thread r true) ;;
         ret true)
        (fun _ => ret false).

(** [RFIDReader.disconnect]. *)
Definition disconnect (fuel : nat) : M bool :=
  r <- get_self ;;
  match ser r with
  | None => ret true
  | Some _ =>
    (if group_read_active r then _ <- stop_reading fuel ;; ret tt else ret tt) ;;
    success <- try_except (close ;; ret true)
                 (fun e => match e with
                           | SerialException => ret false
                           | _ => raise e
                           end) ;;
    modify_self (fun r => with_ser r None) ;;
    ret success
  end.

(** The body of [for attempt in range(max_attempts)] of
    [get_current_gain], lines 545-601; [reconnect] is [self.connect]. *)
Definition gain_attempt (fuel : nat) (reconnect : string -> M bool) (attempt : nat)
  : M (loop_end (option Z)) :=
  try_except
    ((if (0 <? attempt)%nat then sleep 500 else ret tt) ;;
     c <- is_connected ;;
     if negb c then ret (Exit None)
     else
       response <- send_command fuel Cmd.get_gain ;;
       if (9 <=? length response)%nat then
         if startswith response [0xBB; 0x01; 0xB7; 0x00; 0x02] then
           let pow_msb := at_ response 5 in
           let pow_lsb := at_ response 6 in
           let pow_value := Z.lor (Z.shiftl pow_msb 8) pow_lsb in
           modify_self (fun r => with_gain r (Some pow_value)) ;;
           ret (Exit (Some pow_value))
         else ret Next
       else ret Next)
    (fun e =>
       match e with
       | RFIDDeviceError _ =>
         if (attempt <? 2 - 1)%nat then
           r <- get_self ;;
           match ser r, last_port r with
           | None, Some p =>
             try_except (_ <- reconnect p ;; ret tt) (fun _ => ret tt) ;;
             ret Next
           | _, _ => ret Next
           end
         else ret (Exit None)
       | _ => ret (Exit None)
       end).

Fixpoint gain_attempts (fuel : nat) (reconnect : string -> M bool) (attempt remaining : nat)
  : M (option Z) :=
  match remaining with
  | O => ret None
  | S remaining =>
    e <- gain_attempt fuel reconnect attempt ;;
    match e with
    | Exit g => ret g
    | Next => gain_attempts fuel reconnect (S attempt) remaining
    end
  end.

Definition get_current_gain_with (fuel : nat) (reconnect : string -> M bool) : M (option Z) :=
  c <- is_connected ;;
  if negb c then ret None
  else gain_attempts fuel reconnect 0 2.

(** [RFIDReader.connect].  It calls [get_current_gain], which may call
    [connect] again: the recursion is cut by [fuel]. *)
Fixpoint connect (fuel : nat) (port : string) : M bool :=
  match fuel with
  | O => out_of_fuel
  | S fuel' =>
    available_ports <- list_devices ;;
    let available_port_names := map fst available_ports in
    if negb (existsb (String.eqb port) available_port_names) then ret false
    else
      _ <- disconnect fuel ;;
      try_except
        (s <- Serial_ port ;;
         modify_self (fun r => with_ser r (Some s)) ;;
         modify_self (fun r => with_last_port r (Some port)) ;;
         sleep 500 ;;
         try_except (_ <- get_current_gain_with fuel (connect fuel') ;; ret tt)
                    (fun _ => ret tt) ;;
         ret true)
        (fun e =>
           match e with
           | SerialException => modify_self (fun r => with_ser r None) ;; ret false
           | _ => raise e
           end)
  end.

(** [RFIDReader.get_current_gain]. *)
Definition get_current_gain (fuel : nat) : M (option Z) :=
  get_current_gain_with fuel (connect fuel).

(** [RFIDReader.read_card_once]. *)
Definition read_card_once (fuel : nat) : M (option card_info) :=
  c <- is_connected ;;
  if negb c then ret None
  else
    try_except
      (response <- send_command fuel Cmd.read_once ;;
       match response with
       | [] => ret None
       | _ =>
         if (length response <? 8)%nat then ret None
         else if startswith response [0xBB; 0x02; 0x22] then
           if (length response <? 22)%nat then ret None
           else ret (Some (card_info_of response))
         else ret None
       end)
      (fun e =>
         match e with
         | RFIDDeviceError _ =>
           r <- get_self ;;
           (if negb (is_connected_of r) then
              match last_port r with
              | Some p => try_except (_ <- connect fuel p ;; ret tt) (fun _ => ret tt)
              | None => ret tt
              end
            else ret tt) ;;
           ret None
         | _ => ret None
         end).

(** [RFIDReader.set_select_mode]; building the [bytearray] raises
    [ValueError] when [mode] is not a byte. *)
Definition set_select_mode (fuel : nat) (mode : Z) : M bool :=
  c <- is_connected ;;
  if negb c then ret false
  else if negb ((0 <=? mode) && (mode <? 256)) then raise ValueError
  else
    let command := Cmd.select_mode mode in
    try_except
      (response <- send_command fuel command ;;
       if (8 <=? length response)%nat
          && (at_ response 0 =? 0xBB) && (at_ response 1 =? 0x01)
          && (at_ response 2 =? 0x12) && (at_ response 3 =? 0x00)
          && (at_ response 4 =? 0x01) && (at_ response 5 =? 0x00)
          && (at_ response 7 =? 0x7E)
       then modify_self (fun r => with_select_mode r mode) ;; ret true
       else ret false)
      (fun _ => ret false).

(** Python truth of an [Optional[str]] argument. *)
Definition truthy (s : option string) : option string :=
  match s with
  | Some EmptyString => None
  | _ => s
  end.

(** [RFIDReader.set_select_params]. *)
Definition set_select_params (fuel : nat) (target_epc : option string) : M bool :=
  c <- is_connected ;;
  if negb c then ret false
  else
    match truthy target_epc with
    | Some target_epc =>
      try_except
        match Str.fromhex (Str.remove_spaces target_epc) with
        | None => raise ValueError
        | Some epc_bytes =>
          if negb (length epc_bytes =? 12)%nat then ret false
          else
            let command := Cmd.select_params epc_bytes in
            response <- send_command fuel command ;;
            if (8 <=? length response)%nat
               && (at_ response 0 =? 0xBB) && (at_ response 1 =? 0x01)
               && (at_ response 2 =? 0x0C) && (at_ response 3 =? 0x00)
               && (at_ response 4 =? 0x01) && (at_ response 5 =? 0x00)
            then
              modify_self (fun r => with_select_param r (Some target_epc)) ;;
              _ <- set_select_mode fuel 0x02 ;;
              ret true
            else ret false
        end
        (fun _ => ret false)
    | None =>
      _ <- set_select_mode fuel 0x01 ;;
      modify_self (fun r => with_select_param r None) ;;
      ret true
    end.

(** [RFIDReader.set_power]. *)
Definition set_power (fuel : nat) (power_level : string) : M bool :=
  c <- is_connected ;;
  if negb c then ret false
  else
    match Cmd.lookup power_level Cmd.POWER_COMMANDS with
    | None => ret false
    | Some command =>
      try_except
        (response <- send_command fuel command ;;
         if list_eq_dec Z.eq_dec response Cmd.SUCCESS_RESPONSE then
           _ <- get_current_gain fuel ;;
           ret true
         else ret false)
        (fun _ => ret false)
    end.

(** [RFIDReader.write_card]. *)
Definition write_card (fuel : nat) (data : string) : M bool :=
  c <- is_connected ;;
  if negb c then ret false
  else if (String.length data =? 0)%nat || (32 <? String.length data)%nat then ret false
  else
    try_except
      match Str.fromhex (Str.remove_spaces data) with
      | None => raise ValueError
      | Some data_bytes =>
        if (16 <? length data_bytes)%nat then ret false
        else
          response <- send_command fuel (Cmd.write_card data_bytes) ;;
          if startswith response [0xBB; 0x01; 0x49] then ret true else ret false
      end
      (fun _ => ret false).

(** [RFIDReader.read_tag_memory]; the result is the hexadecimal text of
    the data, or [None]. *)
Definition read_tag_memory (fuel : nat) (access_password : string)
           (membank start_addr length_ : Z) : M (option string) :=
  c <- is_connected ;;
  if negb c then ret None
  else
    try_except
      match Cmd.password access_password with
      | None => ret None
      | Some pwd_bytes =>
        response <- send_command fuel
                      (Cmd.read_tag_memory pwd_bytes membank start_addr length_) ;;
        if (8 <=? length response)%nat
           && (at_ response 0 =? 0xBB) && (at_ response 1 =? 0x01)
           && (at_ response 2 =? 0x39)
        then
          let data_len := at_ response 5 in
          if 7 + data_len <=? Z.of_nat (length response) then
            let data_bytes := slice 6 (6 + Z.to_nat data_len) response in
            ret (Some (Fmt.hex_join data_bytes))
          else ret None
        else ret None
      end
      (fun _ => ret None).

(** [RFIDReader.write_epc]. *)
Definition write_epc (fuel : nat) (new_epc access_password : string) : M bool :=
  c <- is_connected ;;
  if negb c then ret false
  else
    try_except
      match Cmd.new_epc new_epc with
      | None => ret false
      | Some epc_bytes =>
        match Cmd.password access_password with
        | None => ret false
        | Some pwd_bytes =>
          response <- send_command fuel (Cmd.write_epc pwd_bytes epc_bytes) ;;
          if startswith response [0xBB; 0x01; 0x49] then ret true else ret false
        end
      end
      (fun _ => ret false).

End Reader.

(** ** Vocabulary of the properties *)

(** The frame of the worked decoding example. *)
Definition example_frame : list Z :=
  [0xBB; 0x02; 0x22; 0x00; 0x11; 0x30; 0x30; 0x00; 0xAA; 0xBB; 0xCC; 0xDD;
   0xEE; 0xFF; 0x11; 0x22; 0x33; 0x44; 0x55; 0x66; 0x12; 0x34; 0x3B; 0x7E].

Definition example_card : card_info :=
  {| rssi := "-48";
     pc := "30 00";
     epc := "AA BB CC DD EE FF 11 22 33 44 55 66";
     crc := "12 34" |}.

(** The error notification quoted in both decoders. *)
Definition error_frame : list Z := [0xBB; 0x01; 0xFF; 0x00; 0x01; 0x15; 0x16; 0x7E].

(** A well-formed card notification: 24 bytes, header [BB], type [02],
    command [22] or [27], length [00 11], a 17-byte payload at offsets
    5..21, the checksum of offsets 1..21 at offset 22, terminator [7E]. *)
Definition well_formed (frame : list Z) : Prop :=
  length frame = 24%nat /\ bytes frame /\
  at_ frame 0 = 0xBB /\ at_ frame 1 = 0x02 /\
  (at_ frame 2 = 0x22 \/ at_ frame 2 = 0x27) /\
  at_ frame 3 = 0x00 /\ at_ frame 4 = 0x11 /\
  at_ frame 22 = checksum (slice 1 22 frame) /\
  at_ frame 23 = 0x7E.

(** [frame] with the byte at offset [i] replaced by [b]. *)
Definition corrupt (frame : list Z) (i : nat) (b : Z) : list Z :=
  firstn i frame ++ b :: skipn (S i) frame.

(** A packet at the head of the buffer, whatever follows it. *)
Definition packet_head (buf : list Z) : Prop :=
  (24 <= length buf)%nat /\ at_ buf 0 = 0xBB /\ at_ buf 1 = 0x02 /\
  (at_ buf 2 = 0x22 \/ at_ buf 2 = 0x27) /\ at_ buf 23 = 0x7E.

(** The two tests a 24-byte packet must pass to be reported. *)
Definition accepted (packet : list Z) : bool :=
  (Z.lor (Z.shiftl (at_ packet 3) 8) (at_ packet 4) =? 0x11)
  && (Z.land (sum (slice 1 22 packet)) 0xFF =? at_ packet 22).

(** Reports allowed when the flag is [logged]: a failure report only
    when the flag is down; it raises the flag, a card lowers it. *)
Fixpoint latched (logged : bool) (evs : list event) : Prop :=
  match evs with
  | [] => True
  | ReadFailed :: evs => logged = false /\ latched true evs
  | CardRead _ :: evs => latched false evs
  end.

Fixpoint flag_after (logged : bool) (evs : list event) : bool :=
  match evs with
  | [] => logged
  | ReadFailed :: evs => flag_after true evs
  | CardRead _ :: evs => flag_after false evs
  end.

(** At most one failure report per streak: between two failure reports
    there is a card report. *)
Definition once_per_streak (evs : list event) : Prop :=
  forall before between rest,
    evs = before ++ ReadFailed :: between ++ ReadFailed :: rest ->
    exists info, In (CardRead info) between.

(** The checksum byte of a command frame is its second-to-last byte; it
    is to equal the sum of the bytes from offset 1 (the frame type)
    through the last payload byte, modulo 256. *)
Definition checksum_ok (frame : list Z) : Prop :=
  at_ frame (length frame - 2)
  = sum (slice 1 (length frame - 2) frame) mod 256.

(** The frames the four builders produce, from arguments that pass the
    validation their method runs first. *)
Inductive built : list Z -> Prop :=
| built_select_mode (mode : Z) :
    is_byte mode ->
    built (Cmd.select_mode mode)
| built_select_params (target_epc : string) (epc_bytes : list Z) :
    Str.fromhex (Str.remove_spaces target_epc) = Some epc_bytes ->
    length epc_bytes = 12%nat ->
    built (Cmd.select_params epc_bytes)
| built_write_epc (new_epc access_password : string) (epc_bytes pwd_bytes : list Z) :
    Cmd.new_epc new_epc = Some epc_bytes ->
    Cmd.password access_password = Some pwd_bytes ->
    built (Cmd.write_epc pwd_bytes epc_bytes)
| built_read_tag_memory (access_password : string) (pwd_bytes : list Z)
                        (membank start_addr length : Z) :
    Cmd.password access_password = Some pwd_bytes ->
    built (Cmd.read_tag_memory pwd_bytes membank start_addr length).

(** The longest answer the device still has in store. *)
Fixpoint longest_answer (script : list Env.exchange) : nat :=
  match script with
  | [] => 0
  | Env.Answer data :: script => Nat.max (length data) (longest_answer script)
  | _ :: script => longest_answer script
  end.

(** Fuel that lets every polling loop of [send_command] reach its end:
    one pass per byte of the answer, a hundred sleeps, one last test. *)
Definition enough (fuel : nat) (s : Reader.state) : Prop :=
  (longest_answer (Env.script (Reader.world s)) + 100 < fuel)%nat.

(** What an exchange with the device leaves alone in the world: the
    port configuration and the open and close logs.  The script only
    moves forward. *)
Definition device_kept (w w' : Env.World) : Prop :=
  Env.comports w' = Env.comports w /\
  Env.busy w' = Env.busy w /\
  Env.close_fails w' = Env.close_fails w /\
  Env.opened w' = Env.opened w /\
  Env.closed w' = Env.closed w /\
  exists done, Env.script w = done ++ Env.script w'.

(** [send_command] either leaves the reader as it is or drops its
    handle. *)
Definition exchanged (s s' : Reader.state) : Prop :=
  device_kept (Reader.world s) (Reader.world s') /\
  (Reader.self s' = Reader.self s
   \/ Reader.self s' = Reader.with_ser (Reader.self s) None).

(** The cached attributes are the same and the handle, if it changed,
    was dropped. *)
Definition cache_kept (r r' : Reader.RFIDReader) : Prop :=
  Reader.gain r' = Reader.gain r /\
  Reader.current_power r' = Reader.current_power r /\
  Reader.select_mode r' = Reader.select_mode r /\
  Reader.select_param r' = Reader.select_param r /\
  Reader.last_port r' = Reader.last_port r /\
  (Reader.ser r' = Reader.ser r \/ Reader.ser r' = None).

Definition kept (s s' : Reader.state) : Prop :=
  device_kept (Reader.world s) (Reader.world s') /\
  cache_kept (Reader.self s) (Reader.self s').

(** [m] run from any state leaves a state related by [R], however it
    ends. *)
Definition keeps {A} (R : Reader.state -> Reader.state -> Prop) (m : Reader.M A) : Prop :=
  forall s out s', m s = Some (out, s') -> R s s'.

(** [m] run from [s] ends, by a return or an exception, within its fuel. *)
Definition runs {A} (m : Reader.M A) (s : Reader.state) : Prop :=
  exists out s', m s = Some (out, s').

(** The device stays silent for the next [n] exchanges. *)
Fixpoint silent (n : nat) (script : list Env.exchange) : Prop :=
  match n, script with
  | O, _ => True
  | S n, [] => True
  | S n, Env.Answer [] :: script => silent n script
  | S n, _ :: _ => False
  end.

(** A bench set-up for the worked scenarios: one adapter on COM3 and a
    reader that [connect] attached to it, with a cached gain of 20 dBm. *)
Definition bench (script : list Env.exchange) : Env.World :=
  Env.mk_world [("COM3", "USB-SERIAL CH340")%string] [] false script [] [] [] [] 0.

Definition attached : Reader.RFIDReader :=
  Reader.mk_reader (Some (Env.mk_serial "COM3" true)) false false None (Some 2000)
                   0x01 None (Some "COM3"%string).

(** The same reader after it lost its handle in the middle of a
    continuous read. *)
Definition stranded : Reader.RFIDReader :=
  Reader.mk_reader None true true None (Some 2000) 0x01 None (Some "COM3"%string).

(** An EPC argument that is not valid hexadecimal, or decodes to fewer
    than twelve bytes. *)
Definition short_or_invalid (target_epc : string) : Prop :=
  match Str.fromhex (Str.remove_spaces target_epc) with
  | Some epc_bytes => (length epc_bytes < 12)%nat
  | None => True
  end.

(** The response that acknowledges a Select mode command. *)
Definition select_mode_ack : list Z := [0xBB; 0x01; 0x12; 0x00; 0x01; 0x00; 0x14; 0x7E].

(** The bench reader with a Select mask in force. *)
Definition configured : Reader.RFIDReader :=
  Reader.mk_reader (Some (Env.mk_serial "COM3" true)) false false None (Some 2000)
                   0x02 (Some "AA BB CC DD EE FF 11 22 33 44 55 66"%string)
                   (Some "COM3"%string).

(** What [read_card_once] and [get_current_gain] do with the recorded
    port after a device error: [try: self.connect(p)  except: pass]. *)
Definition reconnect (fuel : nat) (p : string) : Reader.M unit :=
  Reader.try_except
    (Reader.bind (Reader.connect fuel p) (fun _ => Reader.ret tt))
    (fun _ => Reader.ret tt).

(** The reports of [SerialReadThread.run] as they come out when a
    failure report is passed on only while the flag is down. *)
Fixpoint suppress (logged : bool) (evs : list event) : list event :=
  match evs with
  | [] => []
  | ReadFailed :: evs =>
    if logged then suppress true evs else ReadFailed :: suppress true evs
  | CardRead info :: evs => CardRead info :: suppress false evs
  end.

(** The part of a device answer that [send_command] returns: up to and
    including the first terminator byte; and the part it leaves in the
    input buffer. *)
Fixpoint upto_terminator (data : list Z) : list Z :=
  match data with
  | [] => []
  | b :: data => if b =? 0x7E then [b] else b :: upto_terminator data
  end.

Fixpoint after_terminator (data : list Z) : list Z :=
  match data with
  | [] => []
  | b :: data => if b =? 0x7E then data else after_terminator data
  end.

Definition has_terminator (data : list Z) : bool := existsb (Z.eqb 0x7E) data.

(** The 16-bit big-endian length field of a frame. *)
Definition length_field (frame : list Z) : Z := 256 * at_ frame 3 + at_ frame 4.

(** What a byte stream is made of, as far as the decoders are
    concerned: noise without any header byte, error notifications, card
    notifications. *)
Inductive item :=
| Noise (garbage : list Z)
| ErrorFrame (frame : list Z)
| CardFrame (frame : list Z).

Definition item_bytes (it : item) : list Z :=
  match it with
  | Noise garbage => garbage
  | ErrorFrame frame => frame
  | CardFrame frame => frame
  end.

Definition item_ok (it : item) : Prop :=
  match it with
  | Noise garbage => Forall (fun b => b <> 0xBB) garbage
  | ErrorFrame frame =>
    length frame = 8%nat /\ at_ frame 0 = 0xBB /\ at_ frame 1 = 0x01 /\ at_ frame 2 = 0xFF
  | CardFrame frame => well_formed frame
  end.

(** What [SerialReadThread.run] is to emit for an item. *)
Definition item_events (it : item) : list event :=
  match it with
  | Noise _ => []
  | ErrorFrame _ => [ReadFailed]
  | CardFrame frame => [CardRead (card_info_of frame)]
  end.

(** The world after one answered exchange of [send_command]: the
    command is on the write log, the script has moved on, the input
    buffer holds what follows the terminator; without terminator the
    whole answer was read and the polling loop slept its full second. *)
Definition after_exchange (w : Env.World) (rest : list Env.exchange)
           (command data : list Z) : Env.World :=
  let w1 := Env.log_write (Env.set_script w rest) command in
  if has_terminator data
  then Env.set_in_buffer w1 (after_terminator data)
  else Env.advance (Env.set_in_buffer w1 []) 1000.

(** A report that the bytes of the stream back: a card report is the
    decoding of 24 consecutive bytes with the header, type, command and
    terminator of a card notification that pass the length and checksum
    tests; a failure report stands for 8 consecutive bytes that start
    [BB 01 FF]. *)
Definition genuine (stream : list Z) (e : event) : Prop :=
  match e with
  | CardRead info =>
    exists pre packet post,
      stream = pre ++ packet ++ post /\ length packet = 24%nat /\
      packet_head packet /\ accepted packet = true /\ info = card_info_of packet
  | ReadFailed =>
    exists pre packet post,
      stream = pre ++ packet ++ post /\ length packet = 8%nat /\
      at_ packet 0 = 0xBB /\ at_ packet 1 = 0x01 /\ at_ packet 2 = 0xFF
  end.

(** A card report that carries the bytes of [packet]: its [epc], [pc]
    and [crc] texts read back as the bytes at offsets 8..19, 6..7 and
    20..21, and its [rssi] text reads as the decimal number got from
    the byte at offset 5, [v - 256] above 127 and [- v] otherwise. *)
Definition carries (packet : list Z) (info : card_info) : Prop :=
  Str.fromhex (epc info) = Some (slice 8 20 packet)
  /\ Str.fromhex (pc info) = Some [at_ packet 6; at_ packet 7]
  /\ Str.fromhex (crc info) = Some [at_ packet 20; at_ packet 21]
  /\ option_map Z.of_int (NilZero.int_of_string (rssi info))
     = Some (if 127 <? at_ packet 5 then at_ packet 5 - 256 else - at_ packet 5).



(** ** The decoders: proofs *)

Lemma ltb_false_of_le (n m : nat) : (n <= m)%nat -> (m <? n)%nat = false.
Proof. intro H. apply Nat.ltb_ge. exact H. Qed.

Lemma dispatch_card (c : Z) : c = 0x22 \/ c = 0x27 -> (c =? 0x22) || (c =? 0x27) = true.
Proof. intros [E | E]; rewrite E; reflexivity. Qed.

(** A complete, terminated card packet at the head of the buffer is
    consumed whole, and reported exactly when [accepted]. *)
Lemma core_scan_card_packet (buf : list Z) (logged : bool) :
  (24 <= length buf)%nat ->
  at_ buf 0 = 0xBB -> at_ buf 1 = 0x02 ->
  at_ buf 2 = 0x22 \/ at_ buf 2 = 0x27 ->
  at_ buf 23 = 0x7E ->
  Core.scan buf logged =
  if accepted (firstn 24 buf)
  then Core.Continue (skipn 24 buf) false [CardRead (card_info_of (firstn 24 buf))]
  else Core.Continue (skipn 24 buf) logged [].
Proof.
  intros Hlen H0 H1 H2 H23.
  unfold Core.scan, accepted.
  rewrite (ltb_false_of_le 1), (ltb_false_of_le 7), (ltb_false_of_le 24) by lia.
  rewrite H0, H1, H23, (dispatch_card _ H2). cbn [Z.eqb negb andb Pos.eqb].
  destruct (Z.lor _ _ =? 17); cbn [negb andb]; [ | reflexivity ].
  destruct (Z.land _ _ =? _); reflexivity.
Qed.

Lemma handler_scan_card_packet (buf : list Z) :
  (24 <= length buf)%nat ->
  at_ buf 0 = 0xBB -> at_ buf 1 = 0x02 ->
  at_ buf 2 = 0x22 \/ at_ buf 2 = 0x27 ->
  at_ buf 23 = 0x7E ->
  SerialHandler.scan buf =
  if accepted (firstn 24 buf)
  then SerialHandler.Continue (skipn 24 buf) [CardRead (card_info_of (firstn 24 buf))]
  else SerialHandler.Continue (skipn 24 buf) [].
Proof.
  intros Hlen H0 H1 H2 H23.
  unfold SerialHandler.scan, accepted.
  rewrite (ltb_false_of_le 1), (ltb_false_of_le 7), (ltb_false_of_le 24) by lia.
  rewrite H0, H1, H23, (dispatch_card _ H2). cbn [Z.eqb negb andb Pos.eqb].
  destruct (Z.lor _ _ =? 17); cbn [negb andb]; [ | reflexivity ].
  destruct (Z.land _ _ =? _); reflexivity.
Qed.

(** A list of known length, as its elements. *)
Ltac explode l H :=
  repeat (let x := fresh "x" in destruct l as [| x l]; [ discriminate H | ]);
  try (destruct l; [ clear H | discriminate H ]).

Lemma land_255 (x : Z) : Z.land x 0xFF = x mod 256.
Proof. change 0xFF with (Z.ones 8). rewrite Z.land_ones by lia. reflexivity. Qed.

Lemma well_formed_accepted (g : list Z) : well_formed g -> accepted g = true.
Proof.
  intros (Hlen & _ & _ & _ & _ & H3 & H4 & Hsum & _).
  unfold accepted. rewrite H3, H4, Hsum. unfold checksum.
  change (Z.lor (Z.shiftl 0 8) 17 =? 17) with true.
  cbn [andb]. apply Z.eqb_refl.
Qed.

Lemma corrupt_length (f : list Z) (i : nat) (b : Z) :
  (i < length f)%nat -> length (corrupt f i b) = length f.
Proof.
  intro H. unfold corrupt.
  rewrite length_app, length_firstn. cbn [length]. rewrite length_skipn. lia.
Qed.

Lemma corrupt_at_other (f : list Z) (i k : nat) (b : Z) :
  (i < length f)%nat -> k <> i -> at_ (corrupt f i b) k = at_ f k.
Proof.
  intros Hi Hk. unfold corrupt, at_.
  destruct (Nat.lt_ge_cases k i) as [Hlt | Hge].
  - rewrite app_nth1 by (rewrite length_firstn; lia).
    rewrite nth_firstn. apply Nat.ltb_lt in Hlt. rewrite Hlt. reflexivity.
  - rewrite app_nth2 by (rewrite length_firstn; lia).
    rewrite length_firstn, Nat.min_l by lia.
    destruct (k - i)%nat as [| d] eqn:E; [ lia | ].
    cbn [nth]. rewrite nth_skipn. f_equal. lia.
Qed.

Lemma corrupt_sum (f : list Z) (i : nat) (b : Z) :
  length f = 24%nat -> (5 <= i <= 21)%nat ->
  sum (slice 1 22 (corrupt f i b)) = sum (slice 1 22 f) - at_ f i + b.
Proof.
  intros H Hi. explode f H.
  do 22 (destruct i as [| i]; [ try (exfalso; lia); cbn; lia | ]).
  exfalso; lia.
Qed.

Lemma corrupt_rejected (f : list Z) (i : nat) (b : Z) :
  well_formed f -> (5 <= i <= 21)%nat -> is_byte b -> b <> at_ f i ->
  accepted (corrupt f i b) = false.
Proof.
  intros (Hlen & Hb & _ & _ & _ & H3 & H4 & Hsum & _) Hi Hbyte Hne.
  assert (Hfi : is_byte (at_ f i)).
  { unfold bytes in Hb. rewrite Forall_forall in Hb. apply Hb, nth_In. lia. }
  unfold accepted.
  rewrite !corrupt_at_other by lia.
  rewrite corrupt_sum, H3, H4, Hsum by assumption.
  unfold checksum. rewrite !land_255.
  change (Z.lor (Z.shiftl 0 8) 17 =? 17) with true. cbn [andb].
  apply Z.eqb_neq. unfold is_byte in *.
  intro E.
  clear Hsum. set (S := sum (slice 1 22 f)) in *. set (v := at_ f i) in *.
  clearbody S v. clear - Hbyte Hne Hfi E.
  Z.div_mod_to_equations. lia.
Qed.

Lemma packet_head_app (c rest : list Z) :
  length c = 24%nat -> at_ c 0 = 0xBB -> at_ c 1 = 0x02 ->
  at_ c 2 = 0x22 \/ at_ c 2 = 0x27 -> at_ c 23 = 0x7E ->
  packet_head (c ++ rest) /\ firstn 24 (c ++ rest) = c /\ skipn 24 (c ++ rest) = rest.
Proof.
  intros L H0 H1 H2 H23. unfold packet_head, at_ in *.
  rewrite !app_nth1 by lia. rewrite length_app.
  repeat split; try assumption; try lia.
  - rewrite <- L, firstn_app, Nat.sub_diag, firstn_all. cbn [firstn]. apply app_nil_r.
  - rewrite <- L, skipn_app, Nat.sub_diag, skipn_all. reflexivity.
Qed.

Lemma core_loop_dropped (fuel : nat) (buf : list Z) (logged : bool) :
  packet_head buf -> accepted (firstn 24 buf) = false ->
  Core.inner_loop (S fuel) buf logged = Core.inner_loop fuel (skipn 24 buf) logged.
Proof.
  intros (L & H0 & H1 & H2 & H23) A. cbn [Core.inner_loop].
  rewrite core_scan_card_packet, A by assumption.
  destruct (Core.inner_loop fuel _ _) as [[[b l] evs] | ]; reflexivity.
Qed.

Lemma core_loop_reported (fuel : nat) (buf : list Z) (logged : bool) :
  packet_head buf -> accepted (firstn 24 buf) = true ->
  Core.inner_loop (S fuel) buf logged =
  match Core.inner_loop fuel (skipn 24 buf) false with
  | Some (b, l, evs) => Some (b, l, CardRead (card_info_of (firstn 24 buf)) :: evs)
  | None => None
  end.
Proof.
  intros (L & H0 & H1 & H2 & H23) A. cbn [Core.inner_loop].
  rewrite core_scan_card_packet, A by assumption. reflexivity.
Qed.

Lemma handler_loop_dropped (fuel : nat) (buf : list Z) :
  packet_head buf -> accepted (firstn 24 buf) = false ->
  SerialHandler.inner_loop (S fuel) buf = SerialHandler.inner_loop fuel (skipn 24 buf).
Proof.
  intros (L & H0 & H1 & H2 & H23) A. cbn [SerialHandler.inner_loop].
  rewrite handler_scan_card_packet, A by assumption.
  destruct (SerialHandler.inner_loop fuel _) as [[b evs] | ]; reflexivity.
Qed.

Lemma handler_loop_reported (fuel : nat) (buf : list Z) :
  packet_head buf -> accepted (firstn 24 buf) = true ->
  SerialHandler.inner_loop (S fuel) buf =
  match SerialHandler.inner_loop fuel (skipn 24 buf) with
  | Some (b, evs) => Some (b, CardRead (card_info_of (firstn 24 buf)) :: evs)
  | None => None
  end.
Proof.
  intros (L & H0 & H1 & H2 & H23) A. cbn [SerialHandler.inner_loop].
  rewrite handler_scan_card_packet, A by assumption. reflexivity.
Qed.

Lemma well_formed_head (g rest : list Z) :
  well_formed g ->
  packet_head (g ++ rest) /\ firstn 24 (g ++ rest) = g /\ skipn 24 (g ++ rest) = rest.
Proof.
  intros (L & _ & H0 & H1 & H2 & _ & _ & _ & H23).
  apply packet_head_app; assumption.
Qed.

Lemma corrupt_head (f rest : list Z) (i : nat) (b : Z) :
  well_formed f -> (5 <= i <= 21)%nat ->
  packet_head (corrupt f i b ++ rest)
  /\ firstn 24 (corrupt f i b ++ rest) = corrupt f i b
  /\ skipn 24 (corrupt f i b ++ rest) = rest.
Proof.
  intros (L & _ & H0 & H1 & H2 & _ & _ & _ & H23) Hi.
  apply packet_head_app.
  - rewrite corrupt_length; lia.
  - rewrite corrupt_at_other; [ assumption | lia | lia ].
  - rewrite corrupt_at_other; [ assumption | lia | lia ].
  - rewrite corrupt_at_other; [ assumption | lia | lia ].
  - rewrite corrupt_at_other; [ assumption | lia | lia ].
Qed.

(** What the inner loops do with a corrupted packet followed by [rest]
    and with a well-formed one followed by nothing. *)
Lemma core_loop_corrupt (fuel : nat) (f rest : list Z) (i : nat) (b : Z) (logged : bool) :
  well_formed f -> (5 <= i <= 21)%nat -> is_byte b -> b <> at_ f i ->
  Core.inner_loop (S fuel) (corrupt f i b ++ rest) logged =
  Core.inner_loop fuel rest logged.
Proof.
  intros W Hi Hb Hne.
  destruct (corrupt_head f rest i b W Hi) as (P & F & K).
  rewrite core_loop_dropped; [ rewrite K; reflexivity | exact P | ].
  rewrite F. apply corrupt_rejected; assumption.
Qed.

Lemma core_loop_valid (fuel : nat) (g : list Z) (logged : bool) :
  well_formed g ->
  Core.inner_loop (S (S fuel)) g logged = Some ([], false, [CardRead (card_info_of g)]).
Proof.
  intro W. destruct (well_formed_head g [] W) as (P & F & K).
  rewrite app_nil_r in *.
  rewrite core_loop_reported, F, K; [ reflexivity | exact P | ].
  rewrite F. apply well_formed_accepted, W.
Qed.

Lemma handler_loop_corrupt (fuel : nat) (f rest : list Z) (i : nat) (b : Z) :
  well_formed f -> (5 <= i <= 21)%nat -> is_byte b -> b <> at_ f i ->
  SerialHandler.inner_loop (S fuel) (corrupt f i b ++ rest) =
  SerialHandler.inner_loop fuel rest.
Proof.
  intros W Hi Hb Hne.
  destruct (corrupt_head f rest i b W Hi) as (P & F & K).
  rewrite handler_loop_dropped; [ rewrite K; reflexivity | exact P | ].
  rewrite F. apply corrupt_rejected; assumption.
Qed.

Lemma handler_loop_valid (fuel : nat) (g : list Z) :
  well_formed g ->
  SerialHandler.inner_loop (S (S fuel)) g = Some ([], [CardRead (card_info_of g)]).
Proof.
  intro W. destruct (well_formed_head g [] W) as (P & F & K).
  rewrite app_nil_r in *.
  rewrite handler_loop_reported, F, K; [ reflexivity | exact P | ].
  rewrite F. apply well_formed_accepted, W.
Qed.

Lemma core_on_data_start (data : list Z) :
  data <> [] ->
  Core.on_data Core.start data =
  match Core.inner_loop (S (length data)) data false with
  | Some (b, l, evs) => Some (Core.mk_locals b l, evs)
  | None => None
  end.
Proof. destruct data; [ congruence | reflexivity ]. Qed.

Lemma handler_on_data_start (data : list Z) :
  data <> [] ->
  SerialHandler.on_data [] data = SerialHandler.inner_loop (S (length data)) data.
Proof. destruct data; [ congruence | reflexivity ]. Qed.

Lemma corrupt_app_nonempty (f rest : list Z) (i : nat) (b : Z) :
  corrupt f i b ++ rest <> [].
Proof. unfold corrupt. destruct (firstn i f); discriminate. Qed.

(** C1. Fed the 24 bytes of the worked example in one read, the decoder
    of [rfid_core.py] (and that of [serial_handler.py]) reports exactly
    one card, with rssi "-48", pc "30 00", the twelve EPC bytes and crc
    "12 34", and leaves an empty buffer; the RSSI of a raw byte [v] is
    [-(256 - v)] above 127 and [-v] otherwise. *)
Theorem example_frame_decodes :
  Core.read_thread_func Core.start [example_frame] = Some (Core.start, [CardRead example_card])
  /\ SerialHandler.run [] [example_frame] = Some ([], [CardRead example_card])
  /\ forall v, is_byte v ->
       (127 < v -> rssi_dbm v = - (256 - v)) /\ (v <= 127 -> rssi_dbm v = - v).
Proof.
  split; [ vm_compute; reflexivity | ].
  split; [ vm_compute; reflexivity | ].
  intros v _. unfold rssi_dbm.
  destruct (Z.ltb_spec 127 v); split; intros; lia || reflexivity.
Qed.

Lemma example_frame_decodes_witness :
  is_byte 0x30 /\ 0x30 <= 127 /\ rssi_dbm 0x30 = - 0x30.
Proof.
  assert (B : is_byte 0x30) by (unfold is_byte; lia).
  split; [ exact B | ].
  split; [ lia | ].
  apply (proj2 (proj2 (proj2 example_frame_decodes) 0x30 B)). lia.
Defined.

(** What both decoders do with a corrupted notification, alone and
    followed by a well-formed one. *)
Lemma corrupt_then_valid (f g : list Z) (i : nat) (b : Z) :
  well_formed f -> well_formed g ->
  (5 <= i <= 21)%nat -> is_byte b -> b <> at_ f i ->
  Core.read_thread_func Core.start [corrupt f i b] = Some (Core.start, [])
  /\ Core.read_thread_func Core.start [corrupt f i b ++ g]
     = Some (Core.start, [CardRead (card_info_of g)])
  /\ SerialHandler.run [] [corrupt f i b] = Some ([], [])
  /\ SerialHandler.run [] [corrupt f i b ++ g]
     = Some ([], [CardRead (card_info_of g)]).
Proof.
  intros Wf Wg Hi Hb Hne.
  assert (Lf : length (corrupt f i b) = 24%nat).
  { destruct Wf as (L & _). rewrite corrupt_length; lia. }
  assert (Lg : length g = 24%nat) by apply Wg.
  assert (N1 : corrupt f i b <> []).
  { rewrite <- (app_nil_r (corrupt f i b)). apply corrupt_app_nonempty. }
  repeat split.
  - cbn [Core.read_thread_func]. rewrite core_on_data_start by exact N1.
    rewrite <- (app_nil_r (corrupt f i b)) at 2.
    rewrite core_loop_corrupt by assumption.
    rewrite Lf. reflexivity.
  - cbn [Core.read_thread_func]. rewrite core_on_data_start by apply corrupt_app_nonempty.
    rewrite core_loop_corrupt by assumption.
    rewrite length_app, Lf, Lg.
    change (24 + 24)%nat with (S (S 46)).
    rewrite core_loop_valid by assumption. reflexivity.
  - cbn [SerialHandler.run]. rewrite handler_on_data_start by exact N1.
    rewrite <- (app_nil_r (corrupt f i b)) at 2.
    rewrite handler_loop_corrupt by assumption.
    rewrite Lf. reflexivity.
  - cbn [SerialHandler.run]. rewrite handler_on_data_start by apply corrupt_app_nonempty.
    rewrite handler_loop_corrupt by assumption.
    rewrite length_app, Lf, Lg.
    change (24 + 24)%nat with (S (S 46)).
    rewrite handler_loop_valid by assumption. reflexivity.
Qed.

Lemma example_frame_well_formed : well_formed example_frame.
Proof.
  unfold well_formed, bytes, is_byte.
  repeat split; try reflexivity; try (left; reflexivity).
  repeat constructor; cbn; lia.
Qed.

(** *** The failure flag of [_read_thread_func] *)

Ltac split_ifs :=
  repeat match goal with
         | |- context [if ?c then _ else _] => destruct c eqn:?
         end.

Lemma core_scan_continue (buf : list Z) (logged : bool) (b' : list Z) (l' : bool)
      (out : list event) :
  Core.scan buf logged = Core.Continue b' l' out ->
  latched logged out /\ l' = flag_after logged out /\ (length b' < length buf)%nat.
Proof.
  unfold Core.scan. split_ifs; intro E; try discriminate E;
    injection E as <- <- <-;
    repeat match goal with
           | H : (_ <? _)%nat = false |- _ => apply Nat.ltb_ge in H
           | H : (_ <=? _)%nat = true |- _ => apply Nat.leb_le in H
           end;
    (split; [ | split;
                [ | first [ change (length (skipn 8 buf) < length buf)%nat;
                            rewrite length_skipn; lia
                          | change (length (skipn 24 buf) < length buf)%nat;
                            rewrite length_skipn; lia
                          | destruct buf; cbn [tl length] in *; lia ] ] ]);
    cbn [latched flag_after]; auto.
Qed.

Lemma latched_app (evs1 evs2 : list event) (logged : bool) :
  latched logged evs1 -> latched (flag_after logged evs1) evs2 ->
  latched logged (evs1 ++ evs2).
Proof.
  revert logged. induction evs1 as [| [info | ] evs1 IH]; intros logged H1 H2;
    cbn [latched flag_after app] in *.
  - exact H2.
  - apply IH; assumption.
  - destruct H1 as [E H1]. split; [ exact E | apply IH; assumption ].
Qed.

Lemma flag_after_app (evs1 evs2 : list event) (logged : bool) :
  flag_after logged (evs1 ++ evs2) = flag_after (flag_after logged evs1) evs2.
Proof.
  revert logged. induction evs1 as [| [info | ] evs1 IH]; intro logged;
    cbn [flag_after app]; auto.
Qed.

(** The inner loop ends on every buffer shorter than its fuel, and its
    reports respect the flag. *)
Lemma core_inner_loop_latched (fuel : nat) :
  forall (buf : list Z) (logged : bool),
    (length buf < fuel)%nat ->
    exists b' l' evs,
      Core.inner_loop fuel buf logged = Some (b', l', evs)
      /\ latched logged evs /\ l' = flag_after logged evs.
Proof.
  induction fuel as [| fuel IH]; intros buf logged Hlen; [ lia | ].
  cbn [Core.inner_loop].
  destruct (Core.scan buf logged) as [| b1 l1 out] eqn:E.
  - exists buf, logged, []. cbn. auto.
  - apply core_scan_continue in E. destruct E as (L & F & Hshort).
    destruct (IH b1 l1) as (b' & l' & evs & R & L' & F'); [ lia | ].
    rewrite R. exists b', l', (out ++ evs).
    split; [ reflexivity | ]. subst l1. split.
    + apply latched_app; assumption.
    + rewrite flag_after_app. exact F'.
Qed.

Lemma core_on_data_latched (st : Core.locals) (data : list Z) :
  exists st' evs,
    Core.on_data st data = Some (st', evs)
    /\ latched (Core.read_failed_logged st) evs
    /\ Core.read_failed_logged st' = flag_after (Core.read_failed_logged st) evs.
Proof.
  unfold Core.on_data. destruct data as [| d data].
  - exists st, []. cbn. auto.
  - destruct (core_inner_loop_latched
                (S (length (Core.buffer st ++ d :: data)))
                (Core.buffer st ++ d :: data) (Core.read_failed_logged st))
      as (b' & l' & evs & R & L & F); [ lia | ].
    rewrite R. eexists _, evs. split; [ reflexivity | ]. cbn. auto.
Qed.

Lemma core_run_latched (chunks : list (list Z)) :
  forall st : Core.locals,
  exists st' evs,
    Core.read_thread_func st chunks = Some (st', evs)
    /\ latched (Core.read_failed_logged st) evs
    /\ Core.read_failed_logged st' = flag_after (Core.read_failed_logged st) evs.
Proof.
  induction chunks as [| data chunks IH]; intro st; cbn [Core.read_thread_func].
  - exists st, []. cbn. auto.
  - destruct (core_on_data_latched st data) as (st1 & evs1 & R1 & L1 & F1).
    rewrite R1. destruct (IH st1) as (st2 & evs2 & R2 & L2 & F2).
    rewrite R2. exists st2, (evs1 ++ evs2). split; [ reflexivity | ].
    rewrite F1 in L2, F2. split.
    + apply latched_app; assumption.
    + rewrite flag_after_app. exact F2.
Qed.

Lemma latched_raised (evs : list event) :
  latched true evs ->
  forall between rest, evs = between ++ ReadFailed :: rest ->
  exists info, In (CardRead info) between.
Proof.
  induction evs as [| [info | ] evs IH]; intros L between rest E.
  - destruct between; discriminate.
  - destruct between as [| e between]; [ discriminate | ].
    injection E as <- E. exists info. left. reflexivity.
  - cbn in L. destruct L as [L _]. discriminate.
Qed.

Lemma latched_once_per_streak (evs : list event) (logged : bool) :
  latched logged evs -> once_per_streak evs.
Proof.
  unfold once_per_streak. revert logged.
  induction evs as [| e evs IH]; intros logged L before between rest E.
  - destruct before; discriminate.
  - destruct before as [| e' before]; cbn [app] in E.
    + injection E as -> E. cbn in L. destruct L as [_ L].
      exact (latched_raised evs L between rest E).
    + injection E as -> E. destruct e'; cbn in L.
      * exact (IH false L before between rest E).
      * destruct L as [_ L]. exact (IH true L before between rest E).
Qed.

Lemma handler_scan_error_packet (buf : list Z) :
  (8 <= length buf)%nat ->
  at_ buf 0 = 0xBB -> at_ buf 1 = 0x01 -> at_ buf 2 = 0xFF ->
  SerialHandler.scan buf = SerialHandler.Continue (skipn 8 buf) [ReadFailed].
Proof.
  intros L H0 H1 H2. unfold SerialHandler.scan.
  rewrite (ltb_false_of_le 1), (ltb_false_of_le 7) by lia.
  rewrite H0, H1, H2. apply Nat.leb_le in L. rewrite L. reflexivity.
Qed.

(** C4 (as amended). In [RFIDReader._read_thread_func], whatever the
    reads deliver, the loop ends on each of them and a failure is
    reported at most once per streak: between two failure reports there
    is a card report.  [SerialReadThread.run] keeps no flag: every
    error packet it consumes emits [read_failed]. *)
Theorem missed_read_latch :
  (forall chunks : list (list Z),
     exists st evs, Core.read_thread_func Core.start chunks = Some (st, evs) /\ once_per_streak evs)
  /\ (forall buf : list Z,
        (8 <= length buf)%nat ->
        at_ buf 0 = 0xBB -> at_ buf 1 = 0x01 -> at_ buf 2 = 0xFF ->
        SerialHandler.scan buf = SerialHandler.Continue (skipn 8 buf) [ReadFailed]).
Proof.
  split.
  - intro chunks.
    destruct (core_run_latched chunks Core.start) as (st & evs & R & L & _).
    exists st, evs. split; [ exact R | ].
    exact (latched_once_per_streak evs _ L).
  - exact handler_scan_error_packet.
Qed.

Lemma missed_read_latch_witness :
  (exists st evs,
     Core.read_thread_func Core.start [error_frame ++ error_frame; example_frame ++ error_frame]
     = Some (st, evs) /\ once_per_streak evs)
  /\ SerialHandler.scan (error_frame ++ error_frame)
     = SerialHandler.Continue error_frame [ReadFailed].
Proof.
  split.
  - exact (proj1 missed_read_latch
                 [error_frame ++ error_frame; example_frame ++ error_frame]).
  - apply (proj2 missed_read_latch (error_frame ++ error_frame)).
    + cbn. lia.
    + reflexivity.
    + reflexivity.
    + reflexivity.
Defined.

(** C4, as stated, fails on [SerialReadThread.run]: two error packets in
    a row emit [read_failed] twice with no card in between. *)
Lemma handler_repeats_missed_read :
  SerialHandler.run [] [error_frame ++ error_frame] = Some ([], [ReadFailed; ReadFailed])
  /\ ~ once_per_streak [ReadFailed; ReadFailed].
Proof.
  split; [ vm_compute; reflexivity | ].
  intro O. destruct (O [] [] [] eq_refl) as [info []].
Qed.

(** ** The command builders: proofs *)

Lemma password_length (access_password : string) (pwd_bytes : list Z) :
  Cmd.password access_password = Some pwd_bytes -> length pwd_bytes = 4%nat.
Proof.
  unfold Cmd.password. destruct (Str.fromhex _) as [bs | ]; [ | discriminate ].
  destruct (Nat.eqb_spec (length bs) 4); [ | discriminate ].
  intro E. injection E as <-. assumption.
Qed.

Lemma new_epc_length (new_epc : string) (epc_bytes : list Z) :
  Cmd.new_epc new_epc = Some epc_bytes -> length epc_bytes = 12%nat.
Proof.
  unfold Cmd.new_epc. destruct (Str.fromhex _) as [bs | ]; [ | discriminate ].
  destruct (Nat.eqb_spec (length bs) 12); [ | discriminate ].
  intro E. injection E as <-. assumption.
Qed.

(** ** The reader: proofs *)

Import Env Reader.

Section Keeps.

Variable R : state -> state -> Prop.
Hypothesis R_refl : forall s, R s s.
Hypothesis R_trans : forall s1 s2 s3, R s1 s2 -> R s2 s3 -> R s1 s3.

Lemma keeps_ret {A} (a : A) : keeps R (ret a).
Proof. intros s out s' E. injection E as _ <-. apply R_refl. Qed.

Lemma keeps_raise {A} (e : exn) : keeps R (@raise A e).
Proof. intros s out s' E. injection E as _ <-. apply R_refl. Qed.

Lemma keeps_out_of_fuel {A} : keeps R (@out_of_fuel A).
Proof. intros s out s' E. discriminate E. Qed.

Lemma keeps_bind {A B} (m : M A) (k : A -> M B) :
  keeps R m -> (forall a, keeps R (k a)) -> keeps R (bind m k).
Proof.
  intros Hm Hk s out s' E. unfold bind in E.
  destruct (m s) as [[[a | e] s1] | ] eqn:Em; [ | | discriminate ].
  - eapply R_trans; [ eapply Hm, Em | eapply Hk, E ].
  - injection E as _ <-. eapply Hm, Em.
Qed.

Lemma keeps_try {A} (body : M A) (handler : exn -> M A) :
  keeps R body -> (forall e, keeps R (handler e)) -> keeps R (try_except body handler).
Proof.
  intros Hb Hh s out s' E. unfold try_except in E.
  destruct (body s) as [[[a | e] s1] | ] eqn:Eb; [ | | discriminate ].
  - injection E as _ <-. eapply Hb, Eb.
  - eapply R_trans; [ eapply Hb, Eb | eapply Hh, E ].
Qed.

Lemma keeps_get_self : keeps R get_self.
Proof. intros s out s' E. injection E as _ <-. apply R_refl. Qed.

Lemma keeps_get_world : keeps R get_world.
Proof. intros s out s' E. injection E as _ <-. apply R_refl. Qed.

End Keeps.

Lemma device_kept_refl (w : World) : device_kept w w.
Proof. unfold device_kept. repeat split. exists []. reflexivity. Qed.

Lemma device_kept_trans (w1 w2 w3 : World) :
  device_kept w1 w2 -> device_kept w2 w3 -> device_kept w1 w3.
Proof.
  intros (A1 & B1 & C1 & D1 & F1 & d1 & E1) (A2 & B2 & C2 & D2 & F2 & d2 & E2).
  unfold device_kept. repeat split; try congruence.
  exists (d1 ++ d2). rewrite E1, E2. apply app_assoc.
Qed.

Lemma exchanged_refl (s : state) : exchanged s s.
Proof. split; [ apply device_kept_refl | left; reflexivity ]. Qed.

Lemma exchanged_trans (s1 s2 s3 : state) :
  exchanged s1 s2 -> exchanged s2 s3 -> exchanged s1 s3.
Proof.
  intros [D1 S1] [D2 S2]. split; [ eapply device_kept_trans; eassumption | ].
  destruct S2 as [-> | ->]; destruct S1 as [-> | ->]; auto.
Qed.

Lemma cache_kept_refl (r : RFIDReader) : cache_kept r r.
Proof. unfold cache_kept. repeat split. left. reflexivity. Qed.

Lemma cache_kept_trans (r1 r2 r3 : RFIDReader) :
  cache_kept r1 r2 -> cache_kept r2 r3 -> cache_kept r1 r3.
Proof.
  unfold cache_kept.
  intros (A1 & B1 & C1 & D1 & E1 & F1) (A2 & B2 & C2 & D2 & E2 & F2).
  repeat split; try congruence.
  destruct F2 as [F2 | F2]; [ rewrite F2; exact F1 | right; exact F2 ].
Qed.

Lemma kept_refl (s : state) : kept s s.
Proof. split; [ apply device_kept_refl | apply cache_kept_refl ]. Qed.

Lemma kept_trans (s1 s2 s3 : state) : kept s1 s2 -> kept s2 s3 -> kept s1 s3.
Proof.
  intros [D1 C1] [D2 C2]. split.
  - eapply device_kept_trans; eassumption.
  - eapply cache_kept_trans; eassumption.
Qed.

Lemma exchanged_kept (s s' : state) : exchanged s s' -> kept s s'.
Proof.
  intros [D [E | E]]; (split; [ exact D | ]); rewrite E.
  - apply cache_kept_refl.
  - unfold cache_kept. cbn. repeat split. right. reflexivity.
Qed.

Lemma keeps_weaken {A} (m : M A) : keeps exchanged m -> keeps kept m.
Proof. intros H s out s' E. apply exchanged_kept. exact (H s out s' E). Qed.

Lemma device_kept_longest (w w' : World) :
  device_kept w w' -> (longest_answer (script w') <= longest_answer (script w))%nat.
Proof.
  intros (_ & _ & _ & _ & _ & done & E). rewrite E. clear E.
  induction done as [| [ | | data] done IH]; cbn [app longest_answer]; lia.
Qed.

Lemma exchanged_enough (fuel : nat) (s s' : state) :
  exchanged s s' -> enough fuel s -> enough fuel s'.
Proof.
  intros [D _] E. unfold enough in *.
  pose proof (device_kept_longest _ _ D). lia.
Qed.

(** Unfolds a primitive on a state and splits on what it inspects. *)
Ltac run_prim E :=
  cbv [sleep reset_input_buffer write in_waiting read1 close ser_is_open
       Serial_ list_devices is_connected modify_self on_ser
       bind ret raise get_self get_world put_self put_world] in E;
  cbn [world self] in E;
  repeat match type of E with
         | context [match ?x with _ => _ end] => destruct x eqn:?
         end;
  try discriminate E;
  injection E as <- <-.

Ltac show_device_kept :=
  unfold device_kept; cbn; repeat split;
  first [ exists []; reflexivity
        | eexists (cons _ nil); cbn [app]; eassumption ].

Ltac show_exchanged :=
  split; [ show_device_kept | cbn; auto ].

Ltac show_kept :=
  split; [ show_device_kept | unfold cache_kept; cbn; repeat split; auto ].

Lemma keeps_sleep (ms : Z) : keeps exchanged (sleep ms).
Proof. intros [w r] out s' E. run_prim E. show_exchanged. Qed.

Lemma keeps_reset_input_buffer : keeps exchanged reset_input_buffer.
Proof. intros [w r] out s' E. run_prim E; show_exchanged. Qed.

Lemma keeps_write (data : list Z) : keeps exchanged (write data).
Proof. intros [w r] out s' E. run_prim E; show_exchanged. Qed.

Lemma keeps_in_waiting : keeps exchanged in_waiting.
Proof. intros [w r] out s' E. run_prim E; show_exchanged. Qed.

Lemma keeps_read1 : keeps exchanged read1.
Proof. intros [w r] out s' E. run_prim E; show_exchanged. Qed.

Lemma keeps_ser_is_open : keeps exchanged ser_is_open.
Proof. intros [w r] out s' E. run_prim E; show_exchanged. Qed.

Lemma keeps_is_connected : keeps exchanged is_connected.
Proof. intros [w r] out s' E. run_prim E; show_exchanged. Qed.

Lemma keeps_drop_ser : keeps exchanged (modify_self (fun r => with_ser r None)).
Proof. intros [w r] out s' E. run_prim E; show_exchanged. Qed.

Lemma keeps_set_active (b : bool) :
  keeps kept (modify_self (fun r => with_group_read_active r b)).
Proof. intros [w r] out s' E. run_prim E; show_kept. Qed.

Lemma keeps_set_thread (b : bool) :
  keeps kept (modify_self (fun r => with_read_thread r b)).
Proof. intros [w r] out s' E. run_prim E; show_kept. Qed.

Create HintDb keeps_db.
#[local] Hint Resolve keeps_sleep keeps_reset_input_buffer keeps_write keeps_in_waiting
  keeps_read1 keeps_ser_is_open keeps_is_connected keeps_drop_ser
  keeps_set_active keeps_set_thread keeps_weaken : keeps_db.

Ltac keeps_step R R_refl R_trans :=
  match goal with
  | |- keeps _ (bind _ _) => apply (keeps_bind R R_trans); [ | intro ]
  | |- keeps _ (try_except _ _) => apply (keeps_try R R_trans); [ | intro ]
  | |- keeps _ (ret _) => apply (keeps_ret R R_refl)
  | |- keeps _ (raise _) => apply (keeps_raise R R_refl)
  | |- keeps _ out_of_fuel => apply keeps_out_of_fuel
  | |- keeps _ get_self => apply (keeps_get_self R R_refl)
  | |- keeps _ get_world => apply (keeps_get_world R R_refl)
  | |- keeps _ (match ?x with _ => _ end) => destruct x
  | |- keeps _ _ => solve [ auto with keeps_db ]
  end.

Ltac exchanged_steps := repeat keeps_step exchanged exchanged_refl exchanged_trans.
Ltac kept_steps := repeat keeps_step kept kept_refl kept_trans.

Lemma keeps_wait_response (fuel : nat) :
  forall response wait_time, keeps exchanged (wait_response fuel response wait_time).
Proof.
  induction fuel as [| fuel IH]; intros response wait_time; cbn [wait_response].
  - apply keeps_out_of_fuel.
  - exchanged_steps; apply IH.
Qed.

Lemma keeps_send_attempt (fuel : nat) (command : list Z) (retry : nat) :
  keeps exchanged (send_attempt fuel command retry).
Proof.
  unfold send_attempt. pose proof (keeps_wait_response fuel).
  exchanged_steps; auto.
Qed.

Lemma keeps_send_attempts (fuel : nat) (command : list Z) (remaining : nat) :
  forall retry, keeps exchanged (send_attempts fuel command retry remaining).
Proof.
  induction remaining as [| remaining IH]; intro retry; cbn [send_attempts].
  - exchanged_steps.
  - pose proof (keeps_send_attempt fuel command retry).
    exchanged_steps; auto.
Qed.

Lemma keeps_send_command (fuel : nat) (command : list Z) :
  keeps exchanged (send_command fuel command).
Proof.
  unfold send_command. pose proof (keeps_send_attempts fuel command 3 0).
  exchanged_steps; auto.
Qed.

Lemma keeps_stop_reading (fuel : nat) : keeps kept (stop_reading fuel).
Proof.
  unfold stop_reading. pose proof (keeps_send_command fuel Cmd.stop_inventory).
  kept_steps; auto with keeps_db.
Qed.

(** *** Every exchange ends *)

Ltac fields :=
  cbn [world self ser is_open in_buffer script set_in_buffer set_script
       log_write log_close log_open advance with_ser is_connected_of
       with_group_read_active with_read_thread with_gain with_select_mode
       with_select_param with_last_port port
       comports busy close_fails written opened closed clock_ms
       group_read_active read_thread current_power gain select_mode
       select_param last_port negb] in *.

Ltac run_goal :=
  repeat progress
    (cbv [sleep reset_input_buffer write in_waiting read1 close ser_is_open
          Serial_ list_devices is_connected modify_self on_ser try_except
          bind ret raise get_self get_world put_self put_world
          set_in_buffer set_script log_write log_close log_open advance
          with_ser with_group_read_active with_read_thread with_gain
          with_select_mode with_select_param with_last_port];
     fields;
     change (3 - 1)%nat with 2%nat;
     cbn [length app Nat.ltb Nat.leb]).

Lemma wait_response_total (fuel : nat) :
  forall (response : list Z) (wait_time : nat) (w : World) (r : RFIDReader),
    ser r <> None ->
    (length (in_buffer w) + (100 - wait_time) < fuel)%nat ->
    exists response' w',
      wait_response fuel response wait_time (mk_state w r)
      = Some (Return response', mk_state w' r).
Proof.
  induction fuel as [| fuel IH]; intros response wait_time w r Hser Hfuel; [ lia | ].
  cbn [wait_response].
  destruct (Nat.ltb_spec wait_time 100) as [Hlt | Hge].
  - destruct r as [[h | ] a t p g m sp lp]; [ clear Hser | cbn in Hser; congruence ].
    destruct w as [cp bz cf sc ib wr op cl ck]. cbn [in_buffer] in Hfuel.
    run_goal.
    destruct ib as [| b rest]; run_goal.
    + apply IH; [ discriminate | fields; cbn [length] in *; lia ].
    + destruct (list_eq_dec Z.eq_dec [b] [126]).
      * eauto.
      * apply IH; [ discriminate | fields; cbn [length] in *; lia ].
  - eexists _, _. reflexivity.
Qed.

Lemma runs_bind {A B} (m : M A) (k : A -> M B) (s : state) :
  runs m s ->
  (forall a s1, m s = Some (Return a, s1) -> runs (k a) s1) ->
  runs (bind m k) s.
Proof.
  intros (out & s1 & E) Hk. unfold runs, bind. rewrite E.
  destruct out as [a | e]; [ exact (Hk a s1 E) | eauto ].
Qed.

Lemma runs_try {A} (body : M A) (handler : exn -> M A) (s : state) :
  runs body s ->
  (forall e s1, body s = Some (Raise e, s1) -> runs (handler e) s1) ->
  runs (try_except body handler) s.
Proof.
  intros (out & s1 & E) Hh. unfold runs, try_except. rewrite E.
  destruct out as [a | e]; [ eauto | exact (Hh e s1 E) ].
Qed.

Lemma runs_ret {A} (a : A) (s : state) : runs (ret a) s.
Proof. unfold runs, ret. eauto. Qed.

Lemma runs_raise {A} (e : exn) (s : state) : runs (@raise A e) s.
Proof. unfold runs, raise. eauto. Qed.

Ltac destructure s :=
  let w := fresh "w" in
  let r := fresh "r" in
  destruct s as [w r];
  destruct w as [?cp ?bz ?cf ?sc ?ib ?wr ?op ?cl ?ck];
  destruct r as [?h ?a ?t ?p ?g ?m ?sp ?lp].

Lemma longest_answer_head (data : list Z) (rest : list exchange) :
  (length data <= longest_answer (Answer data :: rest))%nat.
Proof. cbn [longest_answer]. lia. Qed.

Lemma send_attempt_total (fuel : nat) (command : list Z) (retry : nat) (s : state) :
  enough fuel s -> runs (send_attempt fuel command retry) s.
Proof.
  unfold enough, runs, send_attempt. destructure s. fields. intro Hfuel.
  destruct h as [[pt [ | ]] | ]; run_goal;
    [ | destruct (retry <=? 1)%nat; run_goal; eauto
      | destruct (retry <=? 1)%nat; run_goal; eauto ].
  destruct sc as [| [ | | data] rest]; run_goal;
    try (destruct (retry <=? 1)%nat; run_goal; eauto; fail); eauto;
    try pose proof (longest_answer_head data rest);
    match goal with
    | |- context [wait_response ?f ?rs ?wt (mk_state ?w ?rd)] =>
      destruct (wait_response_total f rs wt w rd) as (resp & w' & E);
        [ discriminate | fields; cbn [length] in *; lia | rewrite E ]
    end;
    destruct resp; run_goal; eauto;
    destruct (retry <=? 1)%nat; run_goal; eauto.
Qed.

Lemma send_attempts_total (fuel : nat) (command : list Z) (remaining : nat) :
  forall (retry : nat) (s : state),
    enough fuel s -> runs (send_attempts fuel command retry remaining) s.
Proof.
  induction remaining as [| remaining IH]; intros retry s Hfuel; cbn [send_attempts].
  - apply runs_raise.
  - apply runs_bind; [ apply send_attempt_total, Hfuel | ].
    intros [resp | ] s1 E; [ apply runs_ret | ].
    apply IH. eapply exchanged_enough; [ | exact Hfuel ].
    eapply keeps_send_attempt, E.
Qed.

Lemma is_connected_run (s : state) :
  is_connected s = Some (Return (is_connected_of (self s)), s).
Proof. reflexivity. Qed.

Lemma get_self_run (s : state) : get_self s = Some (Return (self s), s).
Proof. reflexivity. Qed.

Lemma bind_run {A B} (m : M A) (k : A -> M B) (s s1 : state) (a : A) :
  m s = Some (Return a, s1) -> bind m k s = k a s1.
Proof. intro E. unfold bind. rewrite E. reflexivity. Qed.

Lemma runs_after {A B} (m : M A) (k : A -> M B) (s s1 : state) (a : A) :
  m s = Some (Return a, s1) -> runs (k a) s1 -> runs (bind m k) s.
Proof. intros E H. unfold runs. rewrite (bind_run m k s s1 a E). exact H. Qed.

Lemma send_command_total (fuel : nat) (command : list Z) (s : state) :
  enough fuel s -> runs (send_command fuel command) s.
Proof.
  intro Hfuel. unfold send_command.
  apply (runs_after _ _ _ _ _ (is_connected_run s)).
  destruct (is_connected_of (self s)); cbn [negb].
  - apply send_attempts_total, Hfuel.
  - apply runs_raise.
Qed.

Lemma modify_self_run (f : RFIDReader -> RFIDReader) (s : state) :
  modify_self f s = Some (Return tt, mk_state (world s) (f (self s))).
Proof. reflexivity. Qed.

Lemma stop_reading_total (fuel : nat) (s : state) :
  enough fuel s -> runs (stop_reading fuel) s.
Proof.
  intro Hfuel. unfold stop_reading.
  apply (runs_after _ _ _ _ _ (is_connected_run s)).
  destruct (is_connected_of (self s)); cbn [negb]; [ | apply runs_ret ].
  apply (runs_after _ _ _ _ _ (get_self_run s)).
  destruct (group_read_active (self s)); cbn [negb]; [ | apply runs_ret ].
  apply runs_try; [ | intros; apply runs_ret ].
  apply runs_bind; [ apply send_command_total, Hfuel | ].
  intros resp s1 _.
  apply (runs_after _ _ _ _ _ (modify_self_run _ s1)).
  apply (runs_after _ _ _ _ _ (modify_self_run _ _)).
  apply runs_ret.
Qed.

Lemma close_runs (s : state) : runs close s.
Proof.
  unfold runs. destructure s. run_goal.
  destruct h; run_goal; [ destruct cf | ]; run_goal; eauto.
Qed.

Lemma disconnect_total (fuel : nat) (s : state) :
  enough fuel s -> runs (disconnect fuel) s.
Proof.
  intro Hfuel. unfold disconnect.
  apply (runs_after _ _ _ _ _ (get_self_run s)).
  destruct (ser (self s)); [ | apply runs_ret ].
  apply runs_bind.
  - destruct (group_read_active (self s)); [ | apply runs_ret ].
    apply runs_bind; [ apply stop_reading_total, Hfuel | intros; apply runs_ret ].
  - intros _ s1 _. apply runs_bind.
    + apply runs_try.
      * apply runs_bind; [ apply close_runs | intros; apply runs_ret ].
      * intros [ | | | ] s2 _; apply runs_ret || apply runs_raise.
    + intros success s2 _.
      apply (runs_after _ _ _ _ _ (modify_self_run _ s2)). apply runs_ret.
Qed.

(** *** What a returning exchange leaves of the reader *)

Lemma wait_response_self (fuel : nat) :
  forall response wait_time s out s',
    wait_response fuel response wait_time s = Some (out, s') ->
    self s' = self s.
Proof.
  induction fuel as [| fuel IH]; intros response wait_time s out s' E;
    [ discriminate E | ].
  cbn [wait_response] in E.
  destruct (wait_time <? 100)%nat.
  - destructure s. destruct h as [hd | ]; revert E; run_goal.
    + destruct ib as [| b rest]; run_goal.
      * intro E. apply IH in E. exact E.
      * destruct (list_eq_dec Z.eq_dec [b] [126]).
        -- intro E. injection E as _ <-. reflexivity.
        -- intro E. apply IH in E. exact E.
    + intro E. injection E as _ <-. reflexivity.
  - injection E as _ <-. reflexivity.
Qed.

Ltac split_wait :=
  match goal with
  | |- context [wait_response ?f ?rs ?wt ?st] =>
    let EW := fresh "EW" in
    destruct (wait_response f rs wt st) as [[[[| ? ?] | ?] ?] | ] eqn:EW;
    [ apply wait_response_self in EW
    | apply wait_response_self in EW
    | apply wait_response_self in EW
    | ]
  end.

(** An attempt that returns a response has left the reader as it was,
    and the reader held a handle. *)
Lemma send_attempt_exit (fuel : nat) (command : list Z) (retry : nat)
      (s s' : state) (response : list Z) :
  send_attempt fuel command retry s = Some (Return (Exit response), s') ->
  self s' = self s /\ ser (self s) <> None.
Proof.
  unfold send_attempt. destructure s.
  destruct h as [[pt [ | ]] | ]; run_goal;
    try (destruct (retry <=? 1)%nat; run_goal; discriminate).
  destruct sc as [| [ | | data] rest]; run_goal;
    try (destruct (retry <=? 1)%nat; run_goal; discriminate);
    try discriminate;
    split_wait; run_goal;
    try match goal with
        | |- context [match ?e with SerialException => _ | _ => _ end] => destruct e
        end;
    run_goal;
    try (destruct (retry <=? 1)%nat; run_goal; discriminate);
    try discriminate;
    intro E; injection E as _ <-; (split; [ exact EW | discriminate ]).
Qed.

Lemma send_attempts_no_handle (fuel : nat) (command : list Z) (remaining : nat) :
  forall (retry : nat) (s s' : state) (response : list Z),
    ser (self s) = None ->
    send_attempts fuel command retry remaining s <> Some (Return response, s').
Proof.
  induction remaining as [| remaining IH]; intros retry s s' response Hser;
    cbn [send_attempts]; [ discriminate | ].
  unfold bind.
  destruct (send_attempt fuel command retry s) as [[[[resp | ] | e] s1] | ] eqn:EA;
    try discriminate.
  - apply send_attempt_exit in EA. destruct EA as [_ EA]. contradiction.
  - apply IH. apply keeps_send_attempt in EA.
    destruct EA as [_ [-> | ->]]; [ exact Hser | reflexivity ].
Qed.

Lemma send_attempts_return (fuel : nat) (command : list Z) (remaining : nat) :
  forall (retry : nat) (s s' : state) (response : list Z),
    send_attempts fuel command retry remaining s = Some (Return response, s') ->
    self s' = self s.
Proof.
  induction remaining as [| remaining IH]; intros retry s s' response;
    cbn [send_attempts]; [ discriminate | ].
  unfold bind.
  destruct (send_attempt fuel command retry s) as [[[[resp | ] | e] s1] | ] eqn:EA;
    try discriminate.
  - intro E. injection E as _ <-. apply send_attempt_exit in EA. apply EA.
  - intro E. pose proof (keeps_send_attempt _ _ _ _ _ _ EA) as [_ [K | K]].
    + rewrite <- K. exact (IH _ _ _ _ E).
    + exfalso. refine (send_attempts_no_handle _ _ _ _ _ _ _ _ E).
      rewrite K. reflexivity.
Qed.

(** A command that got a response has left the reader as it was. *)
Lemma send_command_return (fuel : nat) (command : list Z) (s s' : state)
      (response : list Z) :
  send_command fuel command s = Some (Return response, s') ->
  self s' = self s.
Proof.
  unfold send_command. rewrite (bind_run _ _ _ _ _ (is_connected_run s)).
  destruct (is_connected_of (self s)); cbn [negb]; [ | discriminate ].
  apply send_attempts_return.
Qed.

(** *** [stop_reading] *)

Lemma stop_reading_idle (fuel : nat) (s : state) :
  is_connected_of (self s) = true -> group_read_active (self s) = false ->
  stop_reading fuel s = Some (Return true, s).
Proof.
  intros Hc Ha. unfold stop_reading.
  rewrite (bind_run _ _ _ _ _ (is_connected_run s)), Hc. cbn [negb].
  rewrite (bind_run _ _ _ _ _ (get_self_run s)), Ha. reflexivity.
Qed.

Lemma stop_reading_success (fuel : nat) (s s' : state) :
  stop_reading fuel s = Some (Return true, s') ->
  is_connected_of (self s') = true /\ group_read_active (self s') = false.
Proof.
  unfold stop_reading.
  rewrite (bind_run _ _ _ _ _ (is_connected_run s)).
  destruct (is_connected_of (self s)) eqn:Hc; cbn [negb]; [ | discriminate ].
  rewrite (bind_run _ _ _ _ _ (get_self_run s)).
  destruct (group_read_active (self s)) eqn:Ha; cbn [negb].
  - unfold try_except, bind at 1.
    destruct (send_command fuel Cmd.stop_inventory s) as [[[resp | e] s1] | ] eqn:ES;
      try discriminate.
    apply send_command_return in ES.
    intro E. injection E as <-. cbn. rewrite ES. split; [ | reflexivity ].
    destruct s as [w r]. destruct r as [[hd | ] ? ? ? ? ? ? ?]; [ exact Hc | discriminate Hc ].
  - intro E. injection E as <-. auto.
Qed.

(** C9. On a connected session that is not reading, [stop_reading]
    returns [True], writes nothing and changes nothing, so two calls in
    a row both succeed; and whenever a first call returned [True], from
    any state, a second call returns [True] and leaves the state as the
    first call left it. *)
Theorem stop_reading_idempotent (fuel fuel' : nat) (s : state) :
  (is_connected_of (self s) = true -> group_read_active (self s) = false ->
   stop_reading fuel s = Some (Return true, s)
   /\ (_ <- stop_reading fuel ;; stop_reading fuel') s = Some (Return true, s))
  /\ (forall s1, stop_reading fuel s = Some (Return true, s1) ->
                 stop_reading fuel' s1 = Some (Return true, s1)).
Proof.
  split.
  - intros Hc Ha. split; [ apply stop_reading_idle; assumption | ].
    rewrite (bind_run _ _ _ _ _ (stop_reading_idle fuel s Hc Ha)).
    apply stop_reading_idle; assumption.
  - intros s1 E. apply stop_reading_success in E. destruct E as [Hc Ha].
    apply stop_reading_idle; assumption.
Qed.

(** C10. On a session that is not connected (no handle, or a closed
    one) and marked as reading, [stop_reading] returns [False] and
    changes nothing: the reading flag stays set, after one call and
    after any number of calls. *)
Theorem stop_reading_disconnected (fuel : nat) (s : state) :
  is_connected_of (self s) = false -> group_read_active (self s) = true ->
  stop_reading fuel s = Some (Return false, s)
  /\ forall n : nat,
       exists out,
         Nat.iter n (fun m => _ <- stop_reading fuel ;; m) (stop_reading fuel) s
         = Some (out, s)
         /\ group_read_active (self s) = true.
Proof.
  intros Hc Ha.
  assert (E : stop_reading fuel s = Some (Return false, s)).
  { unfold stop_reading.
    rewrite (bind_run _ _ _ _ _ (is_connected_run s)), Hc. reflexivity. }
  split; [ exact E | ].
  induction n as [| n IH].
  - exists (Return false). auto.
  - rewrite Nat.iter_succ. rewrite (bind_run _ _ _ _ _ E). exact IH.
Qed.

Lemma stop_reading_idempotent_witness :
  is_connected_of attached = true /\ group_read_active attached = false /\
  stop_reading 101 (mk_state (bench []) attached)
  = Some (Return true, mk_state (bench []) attached).
Proof.
  split; [ reflexivity | ]. split; [ reflexivity | ].
  exact (proj1 (proj1 (stop_reading_idempotent 101 101 (mk_state (bench []) attached))
                      eq_refl eq_refl)).
Defined.

Lemma stop_reading_disconnected_witness :
  is_connected_of stranded = false /\ group_read_active stranded = true /\
  stop_reading 101 (mk_state (bench []) stranded)
  = Some (Return false, mk_state (bench []) stranded).
Proof.
  split; [ reflexivity | ]. split; [ reflexivity | ].
  exact (proj1 (stop_reading_disconnected 101 (mk_state (bench []) stranded)
                                          eq_refl eq_refl)).
Defined.

(** *** [send_command] against a silent device *)

Lemma advance_zero (w : World) : advance w 0 = w.
Proof. destruct w. unfold advance. cbn. f_equal. lia. Qed.

Lemma advance_advance (w : World) (a b : Z) : advance (advance w a) b = advance w (a + b).
Proof. destruct w. unfold advance. cbn. f_equal. lia. Qed.

(** With nothing to read the polling loop sleeps until [wait_time]
    reaches the hundred hundredths of a second, and returns what it
    had. *)
Lemma wait_response_idle (fuel : nat) :
  forall (response : list Z) (wait_time : nat) (w : World) (r : RFIDReader),
    ser r <> None -> in_buffer w = [] ->
    (100 - wait_time < fuel)%nat ->
    wait_response fuel response wait_time (mk_state w r)
    = Some (Return response,
            mk_state (advance w (10 * Z.of_nat (100 - wait_time))) r).
Proof.
  induction fuel as [| fuel IH]; intros response wait_time w r Hser Hbuf Hfuel; [ lia | ].
  cbn [wait_response].
  destruct (Nat.ltb_spec wait_time 100) as [Hlt | Hge].
  - destruct r as [[hd | ] a t p g m sp lp]; [ | contradiction ].
    destruct w as [cp bz cf sc ib wr op cl ck]. cbn [in_buffer] in Hbuf. subst ib.
    run_goal.
    rewrite IH; [ | discriminate | reflexivity | lia ].
    unfold advance. fields. do 4 f_equal. lia.
  - replace (100 - wait_time)%nat with 0%nat by lia.
    rewrite advance_zero. reflexivity.
Qed.

Ltac wait_idle :=
  rewrite wait_response_idle by (try discriminate; try reflexivity; lia);
  change (Z.of_nat (100 - 0)) with 100.

(** C5. Against a device that stays silent for three exchanges, on a
    connected reader, [send_command] ends by raising [RFIDDeviceError]
    for the missing response: it has written the command three times,
    polled for 1000 ms each time and paused 100 ms after the first and
    the second attempt, 3200 ms in all, within 3 x (1000 + 100) ms. *)
Theorem send_command_timeout (fuel : nat) (command : list Z) (w : World) (r : RFIDReader) :
  is_connected_of r = true -> silent 3 (script w) -> (100 < fuel)%nat ->
  exists w',
    send_command fuel command (mk_state w r)
    = Some (Raise (RFIDDeviceError (SendFailed (RFIDDeviceError NoResponse))),
            mk_state w' r)
    /\ written w' = written w ++ [command; command; command]
    /\ clock_ms w' = clock_ms w + (1000 + 100) + (1000 + 100) + 1000
    /\ clock_ms w' - clock_ms w <= 3 * (1000 + 100).
Proof.
  intros Hc Hs Hfuel.
  destruct r as [[[pt [ | ]] | ] a t p g m sp lp]; try discriminate Hc. clear Hc.
  destruct w as [cp bz cf sc ib wr op cl ck]. cbn [script] in Hs.
  unfold send_command. cbn [send_attempts]. unfold send_attempt.
  destruct sc as [| [ | | [ | ]] [| [ | | [ | ]] [| [ | | [ | ]] sc]]];
    cbn [silent] in Hs; try contradiction;
    run_goal; wait_idle; run_goal; wait_idle; run_goal; wait_idle; run_goal;
    (eexists; split; [ reflexivity | ]);
    cbn [written clock_ms];
    (split; [ rewrite <- !app_assoc; reflexivity | split; lia ]).
Qed.

Lemma send_command_timeout_witness :
  is_connected_of attached = true /\ silent 3 (script (bench [])) /\ (100 < 101)%nat /\
  exists w',
    send_command 101 Cmd.read_once (mk_state (bench []) attached)
    = Some (Raise (RFIDDeviceError (SendFailed (RFIDDeviceError NoResponse))),
            mk_state w' attached)
    /\ written w' = written (bench []) ++ [Cmd.read_once; Cmd.read_once; Cmd.read_once]
    /\ clock_ms w' = clock_ms (bench []) + (1000 + 100) + (1000 + 100) + 1000
    /\ clock_ms w' - clock_ms (bench []) <= 3 * (1000 + 100).
Proof.
  assert (F : (100 < 101)%nat) by lia.
  split; [ reflexivity | ]. split; [ exact I | ]. split; [ exact F | ].
  exact (send_command_timeout 101 Cmd.read_once (bench []) attached eq_refl I F).
Defined.

(** *** [set_select_params] *)

(** C6 (as amended). A non-empty EPC string that is not valid
    hexadecimal, or that decodes to fewer than twelve bytes, makes
    [set_select_params] return [False] with the world and the reader
    untouched: nothing is written, whether the reader is connected or
    not. *)
Theorem select_mask_rejected (fuel : nat) (target_epc : string) (s : state) :
  target_epc <> EmptyString -> short_or_invalid target_epc ->
  set_select_params fuel (Some target_epc) s = Some (Return false, s).
Proof.
  intros Hne Hbad. unfold set_select_params.
  rewrite (bind_run _ _ _ _ _ (is_connected_run s)).
  destruct (is_connected_of (self s)); cbn [negb]; [ | reflexivity ].
  destruct target_epc as [| c rest]; [ contradiction | ]. cbn [truthy].
  unfold short_or_invalid in Hbad. unfold try_except.
  destruct (Str.fromhex (Str.remove_spaces (String c rest))) as [epc_bytes | ].
  - destruct (Nat.eqb_spec (length epc_bytes) 12) as [E | _]; [ lia | reflexivity ].
  - reflexivity.
Qed.

Lemma select_mask_rejected_witness :
  "AA BB"%string <> EmptyString /\ short_or_invalid "AA BB" /\
  set_select_params 101 (Some "AA BB"%string) (mk_state (bench []) attached)
  = Some (Return false, mk_state (bench []) attached).
Proof.
  assert (N : "AA BB"%string <> EmptyString) by discriminate.
  assert (B : short_or_invalid "AA BB") by (vm_compute; lia).
  split; [ exact N | ]. split; [ exact B | ].
  exact (select_mask_rejected 101 "AA BB" (mk_state (bench []) attached) N B).
Defined.

(** C6, as stated, fails on the empty string: it decodes to zero bytes,
    yet [set_select_params] takes it for "no EPC", writes the Select
    mode command [BB 00 12 00 01 01 14 7E] and returns [True]. *)
Lemma select_mask_empty_string_writes :
  short_or_invalid "" /\
  exists s',
    set_select_params 101 (Some ""%string)
                      (mk_state (bench [Answer select_mode_ack]) attached)
    = Some (Return true, s')
    /\ written (world s') = [[0xBB; 0x00; 0x12; 0x00; 0x01; 0x01; 0x14; 0x7E]].
Proof.
  split; [ vm_compute; lia | ].
  eexists. split; [ vm_compute; reflexivity | reflexivity ].
Qed.

(** *** [disconnect] *)

Lemma keeps_stop_before_close (fuel : nat) (active : bool) :
  keeps kept (if active then _ <- stop_reading fuel ;; ret tt else ret tt).
Proof.
  pose proof (keeps_stop_reading fuel). destruct active; kept_steps; auto.
Qed.

(** C8 (as amended). With fuel enough for its exchanges, [disconnect]
    ends from every state, and leaves the cached gain, power level,
    Select mode, Select parameter and last port as they were.  From a
    reader that is not reading it always returns.  When it returns, the
    reader holds no handle; and from a reader that held one, the port
    was closed and [True] is returned, unless [close] itself raises, in
    which case nothing is closed and [False] is returned. *)
Theorem disconnect_releases_handle_only (fuel : nat) (s : state) :
  enough fuel s ->
  exists out s',
    disconnect fuel s = Some (out, s')
    /\ gain (self s') = gain (self s)
    /\ current_power (self s') = current_power (self s)
    /\ select_mode (self s') = select_mode (self s)
    /\ select_param (self s') = select_param (self s)
    /\ last_port (self s') = last_port (self s)
    /\ (group_read_active (self s) = false -> exists success, out = Return success)
    /\ forall success,
         out = Return success ->
         ser (self s') = None
         /\ (ser (self s) = None -> success = true /\ world s' = world s)
         /\ forall hd,
              ser (self s) = Some hd ->
              if close_fails (world s)
              then success = false /\ closed (world s') = closed (world s)
              else success = true /\ closed (world s') = closed (world s) ++ [port hd].
Proof.
  intro Hfuel. destruct (disconnect_total fuel s Hfuel) as (out & s' & E).
  exists out, s'. split; [ exact E | ].
  assert (Hidle : group_read_active (self s) = false -> exists success, out = Return success).
  { intro Hi. revert E. unfold disconnect.
    rewrite (bind_run _ _ _ _ _ (get_self_run s)).
    destruct (ser (self s)) as [hd | ] eqn:Hser.
    - rewrite Hi. destructure s. fields. subst h. run_goal.
      destruct cf; run_goal; intro E; injection E as <- <-; eauto.
    - intro E. injection E as <- <-. eauto. }
  cut (cache_kept (self s) (self s')
       /\ forall success,
            out = Return success ->
            ser (self s') = None
            /\ (ser (self s) = None -> success = true /\ world s' = world s)
            /\ forall hd,
                 ser (self s) = Some hd ->
                 if close_fails (world s)
                 then success = false /\ closed (world s') = closed (world s)
                 else success = true /\ closed (world s') = closed (world s) ++ [port hd]).
  { unfold cache_kept. intuition. }
  clear Hidle. revert E. unfold disconnect.
  rewrite (bind_run _ _ _ _ _ (get_self_run s)).
  destruct (ser (self s)) as [hd | ] eqn:Hser.
  - unfold bind at 1.
    destruct ((if group_read_active (self s)
               then _ <- stop_reading fuel ;; ret tt else ret tt) s)
      as [[[[] | e] s1] | ] eqn:E1; [ | | discriminate ].
    + apply keeps_stop_before_close in E1.
      destruct E1 as [(_ & _ & Hcf & _ & Hcl & _) Hcache].
      pose proof Hcache as (_ & _ & _ & _ & _ & Hs1).
      destructure s1. fields. run_goal.
      destruct h as [hd1 | ]; run_goal; [ destruct cf; run_goal | ];
        intro E; injection E as <- <-; fields;
        (split; [ eapply cache_kept_trans; [ exact Hcache | ];
                  unfold cache_kept; fields; repeat split; auto | ]);
        intros success Hout; try discriminate Hout;
        (split; [ reflexivity | ]);
        (split; [ intro Hn; discriminate Hn | ]);
        intros hd' Ehd; injection Hout as <-; rewrite <- Hcf.
      * split; [ reflexivity | exact Hcl ].
      * rewrite Hser in Hs1. rewrite Hcl.
        destruct Hs1 as [Hs1 | Hs1]; [ | discriminate Hs1 ].
        injection Hs1 as ->. injection Ehd as <-. split; reflexivity.
    + intro E. injection E as <- <-. apply keeps_stop_before_close in E1.
      split; [ apply E1 | ]. intros success Hout. discriminate Hout.
  - intro E. injection E as <- <-.
    split; [ apply cache_kept_refl | ].
    intros success Hout. injection Hout as <-.
    split; [ exact Hser | ]. split; [ intros _; split; reflexivity | ].
    intros hd Ehd. discriminate Ehd.
Qed.

Lemma disconnect_releases_handle_only_witness :
  enough 101 (mk_state (bench []) configured) /\
  exists out s',
    disconnect 101 (mk_state (bench []) configured) = Some (out, s')
    /\ gain (self s') = gain configured
    /\ current_power (self s') = current_power configured
    /\ select_mode (self s') = select_mode configured
    /\ select_param (self s') = select_param configured
    /\ last_port (self s') = last_port configured
    /\ (group_read_active configured = false -> exists success, out = Return success)
    /\ forall success,
         out = Return success ->
         ser (self s') = None
         /\ (ser configured = None -> success = true /\ world s' = bench [])
         /\ forall hd,
              ser configured = Some hd ->
              if close_fails (bench [])
              then success = false /\ closed (world s') = closed (bench [])
              else success = true /\ closed (world s') = closed (bench []) ++ [port hd].
Proof.
  assert (F : enough 101 (mk_state (bench []) configured)) by (unfold enough; cbn; lia).
  split; [ exact F | ].
  exact (disconnect_releases_handle_only 101 (mk_state (bench []) configured) F).
Defined.

(** C8, as stated, fails: after [disconnect] on a configured reader the
    handle is gone and the port closed, but the cached gain, the Select
    mode and the Select parameter are still there. *)
Lemma disconnect_keeps_cached_state :
  exists s',
    disconnect 101 (mk_state (bench []) configured) = Some (Return true, s')
    /\ ser (self s') = None
    /\ closed (world s') = ["COM3"%string]
    /\ gain (self s') = Some 2000 /\ gain (self s') <> gain init
    /\ select_mode (self s') = 0x02 /\ select_mode (self s') <> select_mode init
    /\ select_param (self s') = Some "AA BB CC DD EE FF 11 22 33 44 55 66"%string
    /\ select_param (self s') <> select_param init.
Proof.
  eexists. split; [ vm_compute; reflexivity | ].
  cbn. repeat split; discriminate.
Qed.

(** *** Transport errors *)


(** The state of C10 is reached by the code itself: a continuous read
    is started, then the write of the stop command fails; [stop_reading]
    returns [False] with the handle dropped and the reading flag set,
    and [disconnect], called in that situation instead, ends in an
    [AttributeError] on the dropped handle. *)
Lemma stranded_reachable :
  (exists w',
     (_ <- start_reading 101 ;; stop_reading 101)
       (mk_state (bench [Answer [0xBB; 0x01; 0x27; 0x00; 0x01; 0x00; 0x29; 0x7E];
                         WriteFails]) attached)
     = Some (Return false, mk_state w' stranded))
  /\ (exists s',
        (_ <- start_reading 101 ;; disconnect 101)
          (mk_state (bench [Answer [0xBB; 0x01; 0x27; 0x00; 0x01; 0x00; 0x29; 0x7E];
                            WriteFails]) attached)
        = Some (Raise AttributeError, s')
        /\ self s' = stranded).
Proof.
  split; eexists; [ vm_compute; reflexivity | split; vm_compute; reflexivity ].
Qed.

(** * Further properties *)

(** ** The decoder and the way reads split the stream *)

Lemma at_app_l (buf more : list Z) (i : nat) :
  (i < length buf)%nat -> at_ (buf ++ more) i = at_ buf i.
Proof. intro H. unfold at_. apply app_nth1. exact H. Qed.

Lemma ltb_app_false (buf more : list Z) (n : nat) :
  (length buf <? n)%nat = false -> (length (buf ++ more) <? n)%nat = false.
Proof.
  intro H. apply Nat.ltb_ge in H. apply Nat.ltb_ge. rewrite length_app. lia.
Qed.

Lemma tl_app (buf more : list Z) : buf <> [] -> tl (buf ++ more) = tl buf ++ more.
Proof. destruct buf; [ congruence | reflexivity ]. Qed.

Lemma firstn_app_l (n : nat) (buf more : list Z) :
  (n <= length buf)%nat -> firstn n (buf ++ more) = firstn n buf.
Proof.
  intro H. rewrite firstn_app. replace (n - length buf)%nat with 0%nat by lia.
  cbn [firstn]. apply app_nil_r.
Qed.

Lemma skipn_app_l (n : nat) (buf more : list Z) :
  (n <= length buf)%nat -> skipn n (buf ++ more) = skipn n buf ++ more.
Proof.
  intro H. rewrite skipn_app. replace (n - length buf)%nat with 0%nat by lia.
  reflexivity.
Qed.

(** A pass that does not break does the same when more bytes follow. *)
Lemma core_scan_app (buf more : list Z) (logged : bool) (b' : list Z) (l' : bool)
      (out : list event) :
  Core.scan buf logged = Core.Continue b' l' out ->
  Core.scan (buf ++ more) logged = Core.Continue (b' ++ more) l' out.
Proof.
  unfold Core.scan.
  destruct (length buf <? 1)%nat eqn:L1; [ discriminate | ].
  rewrite (ltb_app_false _ more _ L1). apply Nat.ltb_ge in L1.
  rewrite (at_app_l buf more 0) by lia.
  assert (N : buf <> []) by (destruct buf; [ cbn in L1; lia | discriminate ]).
  destruct (negb (at_ buf 0 =? 187)).
  { intro E. injection E as <- <- <-. rewrite tl_app by exact N. reflexivity. }
  destruct (length buf <? 7)%nat eqn:L7; [ discriminate | ].
  rewrite (ltb_app_false _ more _ L7). apply Nat.ltb_ge in L7.
  rewrite (at_app_l buf more 1), (at_app_l buf more 2) by lia.
  destruct ((at_ buf 1 =? 1) && (at_ buf 2 =? 255)).
  { destruct (8 <=? length buf)%nat eqn:L8; [ | discriminate ].
    apply Nat.leb_le in L8.
    assert (L8' : (8 <=? length (buf ++ more))%nat = true)
      by (apply Nat.leb_le; rewrite length_app; lia).
    rewrite L8'. intro E. injection E as <- <- <-.
    rewrite skipn_app_l by lia. reflexivity. }
  destruct ((at_ buf 1 =? 2) && ((at_ buf 2 =? 34) || (at_ buf 2 =? 39))).
  2:{ intro E. injection E as <- <- <-. rewrite tl_app by exact N. reflexivity. }
  destruct (length buf <? 24)%nat eqn:L24; [ discriminate | ].
  rewrite (ltb_app_false _ more _ L24). apply Nat.ltb_ge in L24.
  rewrite (at_app_l buf more 23) by lia.
  destruct (negb (at_ buf 23 =? 126)).
  { intro E. injection E as <- <- <-. rewrite tl_app by exact N. reflexivity. }
  rewrite (firstn_app_l 24) by lia. rewrite (skipn_app_l 24) by lia.
  cbv zeta.
  destruct (negb (Z.lor _ _ =? 17)).
  { intro E. injection E as <- <- <-. reflexivity. }
  destruct (negb (Z.land _ _ =? _)); intro E; injection E as <- <- <-; reflexivity.
Qed.

Lemma core_inner_loop_fuel (fuel : nat) :
  forall (fuel' : nat) (buf : list Z) (logged : bool) res,
    Core.inner_loop fuel buf logged = Some res -> (fuel <= fuel')%nat ->
    Core.inner_loop fuel' buf logged = Some res.
Proof.
  induction fuel as [| fuel IH]; intros fuel' buf logged res E Hle; [ discriminate E | ].
  destruct fuel' as [| fuel']; [ lia | ]. cbn [Core.inner_loop] in *.
  destruct (Core.scan buf logged) as [| b1 l1 out]; [ exact E | ].
  destruct (Core.inner_loop fuel b1 l1) as [[[b l] evs] | ] eqn:E1; [ | discriminate E ].
  rewrite (IH fuel' b1 l1 _ E1) by lia. exact E.
Qed.

Lemma core_inner_loop_agree (fuel fuel' : nat) (buf : list Z) (logged : bool) res res' :
  Core.inner_loop fuel buf logged = Some res ->
  Core.inner_loop fuel' buf logged = Some res' ->
  res = res'.
Proof.
  intros E E'.
  apply (core_inner_loop_fuel _ (Nat.max fuel fuel')) in E; [ | lia ].
  apply (core_inner_loop_fuel _ (Nat.max fuel fuel')) in E'; [ | lia ].
  congruence.
Qed.

Lemma core_inner_loop_total (buf : list Z) (logged : bool) :
  exists res, Core.inner_loop (S (length buf)) buf logged = Some res.
Proof.
  destruct (core_inner_loop_latched (S (length buf)) buf logged) as (b & l & evs & E & _);
    [ lia | ].
  eauto.
Qed.

(** Running the loop on [buf], then on what it left followed by [more],
    is running it on [buf ++ more]. *)
Lemma core_inner_loop_app (fuel : nat) :
  forall (buf more : list Z) (logged : bool) r l evs fuel2 r2 l2 evs2,
    Core.inner_loop fuel buf logged = Some (r, l, evs) ->
    Core.inner_loop fuel2 (r ++ more) l = Some (r2, l2, evs2) ->
    exists fuel3,
      Core.inner_loop fuel3 (buf ++ more) logged = Some (r2, l2, evs ++ evs2).
Proof.
  induction fuel as [| fuel IH]; intros buf more logged r l evs fuel2 r2 l2 evs2 E E2;
    [ discriminate E | ].
  cbn [Core.inner_loop] in E.
  destruct (Core.scan buf logged) as [| b1 l1 out] eqn:Es.
  - injection E as <- <- <-. exists fuel2. exact E2.
  - destruct (Core.inner_loop fuel b1 l1) as [[[b l0] evs1] | ] eqn:E1; [ | discriminate E ].
    injection E as <- <- <-.
    destruct (IH b1 more l1 _ _ _ _ _ _ _ E1 E2) as [fuel3 E3].
    exists (S fuel3). cbn [Core.inner_loop].
    rewrite (core_scan_app _ more _ _ _ _ Es), E3, app_assoc. reflexivity.
Qed.

Lemma core_on_data_nonempty (st : Core.locals) (data : list Z) :
  data <> [] ->
  Core.on_data st data =
  match Core.inner_loop (S (length (Core.buffer st ++ data)))
                        (Core.buffer st ++ data) (Core.read_failed_logged st) with
  | Some (b, l, evs) => Some (Core.mk_locals b l, evs)
  | None => None
  end.
Proof. destruct data; [ congruence | reflexivity ]. Qed.

Lemma core_on_data_app (st st1 st2 : Core.locals) (d1 d2 : list Z) (e1 e2 : list event) :
  Core.on_data st d1 = Some (st1, e1) ->
  Core.on_data st1 d2 = Some (st2, e2) ->
  Core.on_data st (d1 ++ d2) = Some (st2, e1 ++ e2).
Proof.
  intros E1 E2.
  destruct d1 as [| x d1]; [ injection E1 as <- <-; exact E2 | ].
  destruct d2 as [| y d2].
  { injection E2 as <- <-. rewrite !app_nil_r. exact E1. }
  rewrite core_on_data_nonempty in E1, E2 by discriminate.
  rewrite core_on_data_nonempty by discriminate.
  destruct (Core.inner_loop _ (Core.buffer st ++ x :: d1) _) as [[[b l] evs] | ] eqn:L1;
    [ | discriminate E1 ].
  injection E1 as <- <-. cbn [Core.buffer Core.read_failed_logged] in E2.
  destruct (Core.inner_loop _ (b ++ y :: d2) l) as [[[b2 l2] evs2] | ] eqn:L2;
    [ | discriminate E2 ].
  injection E2 as <- <-.
  destruct (core_inner_loop_app _ _ (y :: d2) _ _ _ _ _ _ _ _ L1 L2) as [fuel3 L3].
  rewrite <- app_assoc in L3.
  destruct (core_inner_loop_total (Core.buffer st ++ (x :: d1) ++ y :: d2)
                                  (Core.read_failed_logged st)) as [res L].
  rewrite L. rewrite (core_inner_loop_agree _ _ _ _ _ _ L L3). reflexivity.
Qed.

Lemma core_run_concat (chunks : list (list Z)) (st : Core.locals) :
  Core.read_thread_func st chunks = Core.on_data st (concat chunks).
Proof.
  revert st. induction chunks as [| data chunks IH]; intro st; [ reflexivity | ].
  cbn [Core.read_thread_func concat].
  destruct (core_on_data_latched st data) as (st1 & e1 & E1 & _).
  rewrite E1, IH.
  destruct (core_on_data_latched st1 (concat chunks)) as (st2 & e2 & E2 & _).
  rewrite E2. symmetry. exact (core_on_data_app _ _ _ _ _ _ _ E1 E2).
Qed.

(** ** The two decoders side by side *)

Lemma suppress_app (evs1 evs2 : list event) (logged : bool) :
  suppress logged (evs1 ++ evs2)
  = suppress logged evs1 ++ suppress (flag_after logged evs1) evs2.
Proof.
  revert logged. induction evs1 as [| [info | ] evs1 IH]; intro logged;
    cbn [suppress flag_after app].
  - reflexivity.
  - rewrite IH. reflexivity.
  - destruct logged; rewrite IH; reflexivity.
Qed.

(** One pass of [SerialReadThread.run] and one pass of
    [_read_thread_func] on the same buffer: the same decision, the same
    next buffer, and the reports of the second are those of the first
    with the flag applied. *)
Lemma scans_related (buf : list Z) (logged : bool) :
  match SerialHandler.scan buf with
  | SerialHandler.Break => Core.scan buf logged = Core.Break
  | SerialHandler.Continue b out =>
    Core.scan buf logged = Core.Continue b (flag_after logged out) (suppress logged out)
  end.
Proof.
  unfold SerialHandler.scan, Core.scan.
  repeat match goal with
         | |- context [if ?c then _ else _] =>
           lazymatch c with
           | logged => fail
           | _ => destruct c
           end
         end;
    cbn [flag_after suppress]; reflexivity.
Qed.

Lemma inner_loops_related (fuel : nat) :
  forall (buf : list Z) (logged : bool),
    match SerialHandler.inner_loop fuel buf with
    | None => Core.inner_loop fuel buf logged = None
    | Some (b, evs) =>
      Core.inner_loop fuel buf logged
      = Some (b, flag_after logged evs, suppress logged evs)
    end.
Proof.
  induction fuel as [| fuel IH]; intros buf logged; [ reflexivity | ].
  cbn [SerialHandler.inner_loop Core.inner_loop].
  pose proof (scans_related buf logged) as Hs.
  destruct (SerialHandler.scan buf) as [| b1 out]; rewrite Hs; [ reflexivity | ].
  specialize (IH b1 (flag_after logged out)).
  destruct (SerialHandler.inner_loop fuel b1) as [[b evs] | ]; rewrite IH; [ | reflexivity ].
  rewrite flag_after_app, suppress_app. reflexivity.
Qed.

Lemma on_data_related (buf data : list Z) (logged : bool) :
  match SerialHandler.on_data buf data with
  | None => Core.on_data (Core.mk_locals buf logged) data = None
  | Some (b, evs) =>
    Core.on_data (Core.mk_locals buf logged) data
    = Some (Core.mk_locals b (flag_after logged evs), suppress logged evs)
  end.
Proof.
  unfold SerialHandler.on_data, Core.on_data. destruct data as [| x data]; [ reflexivity | ].
  cbn [Core.buffer Core.read_failed_logged].
  pose proof (inner_loops_related (S (length (buf ++ x :: data))) (buf ++ x :: data) logged)
    as H.
  destruct (SerialHandler.inner_loop _ _) as [[b evs] | ]; rewrite H; reflexivity.
Qed.

Lemma runs_related (chunks : list (list Z)) :
  forall (buf : list Z) (logged : bool),
    match SerialHandler.run buf chunks with
    | None => Core.read_thread_func (Core.mk_locals buf logged) chunks = None
    | Some (b, evs) =>
      Core.read_thread_func (Core.mk_locals buf logged) chunks
      = Some (Core.mk_locals b (flag_after logged evs), suppress logged evs)
    end.
Proof.
  induction chunks as [| data chunks IH]; intros buf logged; [ reflexivity | ].
  cbn [SerialHandler.run Core.read_thread_func].
  pose proof (on_data_related buf data logged) as H.
  destruct (SerialHandler.on_data buf data) as [[b1 e1] | ]; rewrite H; [ | reflexivity ].
  specialize (IH b1 (flag_after logged e1)).
  destruct (SerialHandler.run b1 chunks) as [[b e2] | ]; rewrite IH; [ | reflexivity ].
  rewrite flag_after_app, suppress_app. reflexivity.
Qed.

Lemma decoders_related (chunks : list (list Z)) :
  exists b evs,
    SerialHandler.run [] chunks = Some (b, evs)
    /\ Core.read_thread_func Core.start chunks
       = Some (Core.mk_locals b (flag_after false evs), suppress false evs).
Proof.
  pose proof (runs_related chunks [] false) as H.
  destruct (core_run_latched chunks Core.start) as (st & evs' & R & _).
  change (Core.mk_locals [] false) with Core.start in H.
  destruct (SerialHandler.run [] chunks) as [[b evs] | ].
  - exists b, evs. split; [ reflexivity | exact H ].
  - rewrite R in H. discriminate H.
Qed.

Lemma handler_scan_app (buf more b' : list Z) (out : list event) :
  SerialHandler.scan buf = SerialHandler.Continue b' out ->
  SerialHandler.scan (buf ++ more) = SerialHandler.Continue (b' ++ more) out.
Proof.
  unfold SerialHandler.scan.
  destruct (length buf <? 1)%nat eqn:L1; [ discriminate | ].
  rewrite (ltb_app_false _ more _ L1). apply Nat.ltb_ge in L1.
  rewrite (at_app_l buf more 0) by lia.
  assert (N : buf <> []) by (destruct buf; [ cbn in L1; lia | discriminate ]).
  destruct (negb (at_ buf 0 =? 187)).
  { intro E. injection E as <- <-. rewrite tl_app by exact N. reflexivity. }
  destruct (length buf <? 7)%nat eqn:L7; [ discriminate | ].
  rewrite (ltb_app_false _ more _ L7). apply Nat.ltb_ge in L7.
  rewrite (at_app_l buf more 1), (at_app_l buf more 2) by lia.
  destruct ((at_ buf 1 =? 1) && (at_ buf 2 =? 255)).
  { destruct (8 <=? length buf)%nat eqn:L8; [ | discriminate ].
    apply Nat.leb_le in L8.
    assert (L8' : (8 <=? length (buf ++ more))%nat = true)
      by (apply Nat.leb_le; rewrite length_app; lia).
    rewrite L8'. intro E. injection E as <- <-.
    rewrite skipn_app_l by lia. reflexivity. }
  destruct ((at_ buf 1 =? 2) && ((at_ buf 2 =? 34) || (at_ buf 2 =? 39))).
  2:{ intro E. injection E as <- <-. rewrite tl_app by exact N. reflexivity. }
  destruct (length buf <? 24)%nat eqn:L24; [ discriminate | ].
  rewrite (ltb_app_false _ more _ L24). apply Nat.ltb_ge in L24.
  rewrite (at_app_l buf more 23) by lia.
  destruct (negb (at_ buf 23 =? 126)).
  { intro E. injection E as <- <-. rewrite tl_app by exact N. reflexivity. }
  rewrite (firstn_app_l 24) by lia. rewrite (skipn_app_l 24) by lia.
  cbv zeta.
  destruct (negb (Z.lor _ _ =? 17)).
  { intro E. injection E as <- <-. reflexivity. }
  destruct (negb (Z.land _ _ =? _)); intro E; injection E as <- <-; reflexivity.
Qed.

Lemma handler_inner_loop_fuel (fuel : nat) :
  forall (fuel' : nat) (buf : list Z) res,
    SerialHandler.inner_loop fuel buf = Some res -> (fuel <= fuel')%nat ->
    SerialHandler.inner_loop fuel' buf = Some res.
Proof.
  induction fuel as [| fuel IH]; intros fuel' buf res E Hle; [ discriminate E | ].
  destruct fuel' as [| fuel']; [ lia | ]. cbn [SerialHandler.inner_loop] in *.
  destruct (SerialHandler.scan buf) as [| b1 out]; [ exact E | ].
  destruct (SerialHandler.inner_loop fuel b1) as [[b evs] | ] eqn:E1; [ | discriminate E ].
  rewrite (IH fuel' b1 _ E1) by lia. exact E.
Qed.

Lemma handler_inner_loop_agree (fuel fuel' : nat) (buf : list Z) res res' :
  SerialHandler.inner_loop fuel buf = Some res ->
  SerialHandler.inner_loop fuel' buf = Some res' ->
  res = res'.
Proof.
  intros E E'.
  apply (handler_inner_loop_fuel _ (Nat.max fuel fuel')) in E; [ | lia ].
  apply (handler_inner_loop_fuel _ (Nat.max fuel fuel')) in E'; [ | lia ].
  congruence.
Qed.

Lemma handler_inner_loop_total (buf : list Z) :
  exists res, SerialHandler.inner_loop (S (length buf)) buf = Some res.
Proof.
  pose proof (inner_loops_related (S (length buf)) buf false) as H.
  destruct (core_inner_loop_total buf false) as [res E].
  destruct (SerialHandler.inner_loop (S (length buf)) buf) as [res' | ]; [ eauto | ].
  congruence.
Qed.

Lemma handler_on_data_total (buf data : list Z) :
  exists res, SerialHandler.on_data buf data = Some res.
Proof.
  unfold SerialHandler.on_data. destruct data; [ eauto | ].
  apply handler_inner_loop_total.
Qed.

Lemma handler_inner_loop_app (fuel : nat) :
  forall (buf more r : list Z) evs fuel2 r2 evs2,
    SerialHandler.inner_loop fuel buf = Some (r, evs) ->
    SerialHandler.inner_loop fuel2 (r ++ more) = Some (r2, evs2) ->
    exists fuel3, SerialHandler.inner_loop fuel3 (buf ++ more) = Some (r2, evs ++ evs2).
Proof.
  induction fuel as [| fuel IH]; intros buf more r evs fuel2 r2 evs2 E E2;
    [ discriminate E | ].
  cbn [SerialHandler.inner_loop] in E.
  destruct (SerialHandler.scan buf) as [| b1 out] eqn:Es.
  - injection E as <- <-. exists fuel2. exact E2.
  - destruct (SerialHandler.inner_loop fuel b1) as [[b evs1] | ] eqn:E1; [ | discriminate E ].
    injection E as <- <-.
    destruct (IH b1 more _ _ _ _ _ E1 E2) as [fuel3 E3].
    exists (S fuel3). cbn [SerialHandler.inner_loop].
    rewrite (handler_scan_app _ more _ _ Es), E3, app_assoc. reflexivity.
Qed.

Lemma handler_on_data_app (buf b1 b2 d1 d2 : list Z) (e1 e2 : list event) :
  SerialHandler.on_data buf d1 = Some (b1, e1) ->
  SerialHandler.on_data b1 d2 = Some (b2, e2) ->
  SerialHandler.on_data buf (d1 ++ d2) = Some (b2, e1 ++ e2).
Proof.
  intros E1 E2.
  destruct d1 as [| x d1]; [ injection E1 as <- <-; exact E2 | ].
  destruct d2 as [| y d2].
  { injection E2 as <- <-. rewrite !app_nil_r. exact E1. }
  unfold SerialHandler.on_data in *. cbn [app] in *.
  destruct (handler_inner_loop_app _ _ (y :: d2) _ _ _ _ _ E1 E2) as [fuel3 L3].
  rewrite <- app_assoc in L3. cbn [app] in L3.
  destruct (handler_inner_loop_total (buf ++ x :: d1 ++ y :: d2)) as [res L].
  rewrite L. rewrite (handler_inner_loop_agree _ _ _ _ _ L L3). reflexivity.
Qed.

Lemma handler_run_concat (chunks : list (list Z)) (buf : list Z) :
  SerialHandler.run buf chunks = SerialHandler.on_data buf (concat chunks).
Proof.
  revert buf. induction chunks as [| data chunks IH]; intro buf; [ reflexivity | ].
  cbn [SerialHandler.run concat].
  destruct (handler_on_data_total buf data) as [[b1 e1] E1].
  rewrite E1, IH.
  destruct (handler_on_data_total b1 (concat chunks)) as [[b2 e2] E2].
  rewrite E2. symmetry. exact (handler_on_data_app _ _ _ _ _ _ _ E1 E2).
Qed.

(** X1. What [_read_thread_func] reports, and the state it is left in,
    depend on the bytes read, not on how the reads split them: running
    it over any list of reads is running it over their concatenation in
    one read. *)
Theorem core_reads_concatenate (chunks : list (list Z)) (st : Core.locals) :
  Core.read_thread_func st chunks = Core.on_data st (concat chunks).
Proof. exact (core_run_concat chunks st). Qed.

(** X2. The same for [SerialReadThread.run]: the signals emitted and
    the buffer left depend on the bytes read, not on how the reads
    split them. *)
Theorem handler_reads_concatenate (chunks : list (list Z)) (buf : list Z) :
  SerialHandler.run buf chunks = SerialHandler.on_data buf (concat chunks).
Proof. exact (handler_run_concat chunks buf). Qed.

(** X3. On the same reads, [SerialReadThread.run] ends, and
    [_read_thread_func] is left with the same buffer and reports what
    [SerialReadThread.run] emits, less the failure reports that come
    while the flag is up: the same cards in the same order. *)
Theorem decoders_differ_by_latch (chunks : list (list Z)) :
  exists b evs,
    SerialHandler.run [] chunks = Some (b, evs)
    /\ Core.read_thread_func Core.start chunks
       = Some (Core.mk_locals b (flag_after false evs), suppress false evs).
Proof. exact (decoders_related chunks). Qed.

(** ** A stream of noise, error and card notifications *)

Lemma handler_loop_noise (garbage rest : list Z) (fuel : nat) :
  Forall (fun b => b <> 0xBB) garbage ->
  SerialHandler.inner_loop (length garbage + fuel) (garbage ++ rest)
  = SerialHandler.inner_loop fuel rest.
Proof.
  induction 1 as [| b garbage Hb _ IH]; [ reflexivity | ].
  cbn [length app Nat.add SerialHandler.inner_loop].
  unfold SerialHandler.scan. cbn [length Nat.ltb Nat.leb at_ nth tl].
  apply Z.eqb_neq in Hb. rewrite Hb. cbn [negb]. rewrite IH.
  destruct (SerialHandler.inner_loop fuel rest) as [[b0 evs] | ]; reflexivity.
Qed.

Lemma handler_loop_error (frame rest : list Z) (fuel : nat) :
  length frame = 8%nat -> at_ frame 0 = 0xBB -> at_ frame 1 = 0x01 -> at_ frame 2 = 0xFF ->
  SerialHandler.inner_loop (S fuel) (frame ++ rest)
  = match SerialHandler.inner_loop fuel rest with
    | Some (b, evs) => Some (b, ReadFailed :: evs)
    | None => None
    end.
Proof.
  intros L H0 H1 H2. cbn [SerialHandler.inner_loop].
  rewrite handler_scan_error_packet.
  - rewrite <- L, skipn_app, Nat.sub_diag, skipn_all. reflexivity.
  - rewrite length_app. lia.
  - rewrite at_app_l by lia. exact H0.
  - rewrite at_app_l by lia. exact H1.
  - rewrite at_app_l by lia. exact H2.
Qed.

Lemma handler_loop_card (frame rest : list Z) (fuel : nat) :
  well_formed frame ->
  SerialHandler.inner_loop (S fuel) (frame ++ rest)
  = match SerialHandler.inner_loop fuel rest with
    | Some (b, evs) => Some (b, CardRead (card_info_of frame) :: evs)
    | None => None
    end.
Proof.
  intro W. destruct (well_formed_head frame rest W) as (P & F & K).
  rewrite handler_loop_reported, F, K; [ reflexivity | exact P | ].
  rewrite F. apply well_formed_accepted, W.
Qed.

Lemma handler_loop_items (items : list item) :
  Forall item_ok items ->
  exists fuel,
    SerialHandler.inner_loop fuel (concat (map item_bytes items))
    = Some ([], flat_map item_events items).
Proof.
  induction 1 as [| it items Hit _ [fuel IH]]; [ exists 1%nat; reflexivity | ].
  cbn [map concat flat_map].
  destruct it as [garbage | frame | frame]; cbn [item_bytes item_events item_ok] in *.
  - exists (length garbage + fuel)%nat. rewrite handler_loop_noise by exact Hit. exact IH.
  - destruct Hit as (L & H0 & H1 & H2). exists (S fuel).
    rewrite handler_loop_error, IH by assumption. reflexivity.
  - exists (S fuel). rewrite handler_loop_card, IH by assumption. reflexivity.
Qed.

Lemma handler_on_data_items (items : list item) :
  Forall item_ok items ->
  SerialHandler.on_data [] (concat (map item_bytes items))
  = Some ([], flat_map item_events items).
Proof.
  intro H. destruct (handler_loop_items items H) as [fuel E].
  unfold SerialHandler.on_data.
  destruct (concat (map item_bytes items)) as [| x data] eqn:Ed.
  - destruct fuel; [ discriminate E | ]. cbn in E. injection E as <-. reflexivity.
  - cbn [app]. destruct (handler_inner_loop_total (x :: data)) as [res L].
    rewrite L. rewrite (handler_inner_loop_agree _ _ _ _ _ L E). reflexivity.
Qed.

(** X4. A stream made of noise free of header bytes, error
    notifications and well-formed card notifications, split into reads
    in any way: [SerialReadThread.run] emits one signal per notification,
    in order, and ends with an empty buffer; [_read_thread_func] reports
    the same cards in the same order, each once, and one failure per
    streak of error notifications. *)
Theorem stream_decoded_in_order (items : list item) (chunks : list (list Z)) :
  Forall item_ok items ->
  concat chunks = concat (map item_bytes items) ->
  SerialHandler.run [] chunks = Some ([], flat_map item_events items)
  /\ Core.read_thread_func Core.start chunks
     = Some (Core.mk_locals [] (flag_after false (flat_map item_events items)),
             suppress false (flat_map item_events items)).
Proof.
  intros Hok Hcat.
  assert (E : SerialHandler.run [] chunks = Some ([], flat_map item_events items)).
  { rewrite handler_run_concat, Hcat. apply handler_on_data_items, Hok. }
  split; [ exact E | ].
  pose proof (runs_related chunks [] false) as H. rewrite E in H. exact H.
Qed.

Lemma stream_decoded_in_order_witness :
  Forall item_ok [Noise [0xFF; 0x00]; ErrorFrame error_frame; ErrorFrame error_frame;
                  CardFrame example_frame; Noise [0x01]] /\
  Core.read_thread_func Core.start
    [[0xFF; 0x00; 0xBB; 0x01; 0xFF]; [0x00; 0x01; 0x15]; [0x16; 0x7E] ++ error_frame;
     firstn 10 example_frame; skipn 10 example_frame ++ [0x01]]
  = Some (Core.start, [ReadFailed; CardRead example_card]).
Proof.
  assert (H : Forall item_ok
                [Noise [0xFF; 0x00]; ErrorFrame error_frame; ErrorFrame error_frame;
                 CardFrame example_frame; Noise [0x01]]).
  { repeat constructor; try discriminate; apply example_frame_well_formed. }
  split; [ exact H | ].
  exact (proj2 (stream_decoded_in_order _
                  [[0xFF; 0x00; 0xBB; 0x01; 0xFF]; [0x00; 0x01; 0x15];
                   [0x16; 0x7E] ++ error_frame;
                   firstn 10 example_frame; skipn 10 example_frame ++ [0x01]]
                  H eq_refl)).
Defined.

(** ** Hexadecimal text *)

Lemma hex_digit_value (d : Z) :
  0 <= d < 16 ->
  Str.hex_value (Fmt.hex_digit d) = Some d
  /\ Str.is_space (Fmt.hex_digit d) = false
  /\ Ascii.eqb (Fmt.hex_digit d) " " = false.
Proof.
  intro H.
  assert (G : forall n : nat,
             (n < 16)%nat ->
             Str.hex_value (Fmt.hex_digit (Z.of_nat n)) = Some (Z.of_nat n)
             /\ Str.is_space (Fmt.hex_digit (Z.of_nat n)) = false
             /\ Ascii.eqb (Fmt.hex_digit (Z.of_nat n)) " " = false).
  { intros n Hn. do 16 (destruct n as [| n]; [ repeat split | ]). lia. }
  rewrite <- (Z2Nat.id d) by lia. apply G. lia.
Qed.

Lemma byte_digits (b : Z) :
  is_byte b -> 0 <= b / 16 < 16 /\ 0 <= b mod 16 < 16 /\ 16 * (b / 16) + b mod 16 = b.
Proof.
  unfold is_byte. intro H.
  pose proof (Z.div_mod b 16). pose proof (Z.mod_pos_bound b 16).
  assert (0 <= b / 16) by (apply Z.div_pos; lia).
  assert (b / 16 < 16) by (apply Z.div_lt_upper_bound; lia).
  lia.
Qed.

Lemma fromhex_fmt (b : Z) (s : string) :
  is_byte b ->
  Str.fromhex (Fmt.fmt_02X b ++ s)
  = match Str.fromhex s with Some bs => Some (b :: bs) | None => None end.
Proof.
  intro H. destruct (byte_digits b H) as (Hh & Hl & E).
  destruct (hex_digit_value _ Hh) as (Vh & Sh & _).
  destruct (hex_digit_value _ Hl) as (Vl & _ & _).
  unfold Fmt.fmt_02X. cbn [String.append Str.fromhex].
  rewrite Sh, Vh, Vl, E. reflexivity.
Qed.

Lemma remove_spaces_fmt (b : Z) (s : string) :
  is_byte b ->
  Str.remove_spaces (Fmt.fmt_02X b ++ s) = (Fmt.fmt_02X b ++ Str.remove_spaces s)%string.
Proof.
  intro H. destruct (byte_digits b H) as (Hh & Hl & _).
  destruct (hex_digit_value _ Hh) as (_ & _ & Nh).
  destruct (hex_digit_value _ Hl) as (_ & _ & Nl).
  unfold Fmt.fmt_02X. cbn [String.append Str.remove_spaces].
  rewrite Nh, Nl. reflexivity.
Qed.

Lemma hex_join_cons (b : Z) (bs : list Z) :
  Fmt.hex_join (b :: bs)
  = match bs with
    | [] => Fmt.fmt_02X b
    | _ :: _ => (Fmt.fmt_02X b ++ String " " (Fmt.hex_join bs))%string
    end.
Proof. unfold Fmt.hex_join. destruct bs; reflexivity. Qed.

Lemma fromhex_hex_join (bs : list Z) :
  bytes bs -> Str.fromhex (Fmt.hex_join bs) = Some bs.
Proof.
  induction 1 as [| b bs Hb _ IH]; [ reflexivity | ].
  rewrite hex_join_cons. destruct bs as [| b' bs].
  - change (Fmt.fmt_02X b) with (Fmt.fmt_02X b ++ EmptyString)%string.
    rewrite fromhex_fmt by exact Hb. reflexivity.
  - rewrite fromhex_fmt by exact Hb.
    change (Str.fromhex (String " " (Fmt.hex_join (b' :: bs))))
      with (Str.fromhex (Fmt.hex_join (b' :: bs))).
    rewrite IH. reflexivity.
Qed.

Lemma remove_spaces_hex_join (bs : list Z) :
  bytes bs ->
  Str.remove_spaces (Fmt.hex_join bs) = String.concat "" (map Fmt.fmt_02X bs).
Proof.
  induction 1 as [| b bs Hb _ IH]; [ reflexivity | ].
  rewrite hex_join_cons. destruct bs as [| b' bs].
  - change (Fmt.fmt_02X b) with (Fmt.fmt_02X b ++ EmptyString)%string at 1.
    rewrite remove_spaces_fmt by exact Hb. reflexivity.
  - rewrite remove_spaces_fmt by exact Hb.
    change (Str.remove_spaces (String " " (Fmt.hex_join (b' :: bs))))
      with (Str.remove_spaces (Fmt.hex_join (b' :: bs))).
    rewrite IH. reflexivity.
Qed.

Lemma concat_fmt_cons (b : Z) (bs : list Z) :
  String.concat "" (map Fmt.fmt_02X (b :: bs))
  = (Fmt.fmt_02X b ++ String.concat "" (map Fmt.fmt_02X bs))%string.
Proof. destruct bs; reflexivity. Qed.

Lemma fromhex_packed (bs : list Z) :
  bytes bs -> Str.fromhex (String.concat "" (map Fmt.fmt_02X bs)) = Some bs.
Proof.
  induction 1 as [| b bs Hb _ IH]; [ reflexivity | ].
  rewrite concat_fmt_cons, fromhex_fmt, IH by exact Hb. reflexivity.
Qed.

Lemma length_packed (bs : list Z) :
  String.length (String.concat "" (map Fmt.fmt_02X bs)) = (2 * length bs)%nat.
Proof.
  induction bs as [| b bs IH]; [ reflexivity | ].
  rewrite concat_fmt_cons. unfold Fmt.fmt_02X at 1.
  cbn [String.append String.length length]. rewrite IH. lia.
Qed.

(** X5. The spaced hexadecimal text the code prints for a byte
    sequence ([' '.join(f"{b:02X}")], the format of the [epc] field) is
    read back by [bytes.fromhex] as the same bytes, with or without
    [replace(" ", "")] first. *)
Theorem hex_text_round_trip (bs : list Z) :
  bytes bs ->
  Str.fromhex (Fmt.hex_join bs) = Some bs
  /\ Str.fromhex (Str.remove_spaces (Fmt.hex_join bs)) = Some bs.
Proof.
  intro H. split; [ apply fromhex_hex_join, H | ].
  rewrite remove_spaces_hex_join by exact H. apply fromhex_packed, H.
Qed.

Lemma hex_text_round_trip_witness :
  bytes [0xAA; 0x0B; 0x00; 0xFF] /\
  Str.fromhex (Fmt.hex_join [0xAA; 0x0B; 0x00; 0xFF]) = Some [0xAA; 0x0B; 0x00; 0xFF].
Proof.
  assert (B : bytes [0xAA; 0x0B; 0x00; 0xFF])
    by (repeat constructor; unfold is_byte; lia).
  split; [ exact B | ].
  exact (proj1 (hex_text_round_trip _ B)).
Defined.

Lemma hex_value_range (c : ascii) (v : Z) : Str.hex_value c = Some v -> 0 <= v < 16.
Proof.
  unfold Str.hex_value.
  repeat match goal with
         | |- context [if ?c then _ else _] => destruct c eqn:?
         end; intro E; try discriminate E; injection E as <-;
    repeat match goal with
           | H : _ && _ = true |- _ => apply andb_prop in H; destruct H
           | H : (_ <=? _) = true |- _ => apply Z.leb_le in H
           end; lia.
Qed.

Lemma fromhex_sound (n : nat) :
  forall (s : string) (bs : list Z),
    (String.length s <= n)%nat -> Str.fromhex s = Some bs ->
    bytes bs /\ (2 * length bs <= String.length s)%nat.
Proof.
  induction n as [n IH] using lt_wf_ind. intros s bs Hn E.
  destruct s as [| c s]; cbn [Str.fromhex] in E.
  - injection E as <-. split; [ constructor | cbn; lia ].
  - cbn [String.length] in *. destruct (Str.is_space c).
    + destruct (IH (String.length s)) with (s := s) (bs := bs) as [B L];
        [ lia | lia | exact E | ].
      split; [ exact B | lia ].
    + destruct (Str.hex_value c) as [hi | ] eqn:Hh; [ | discriminate E ].
      destruct s as [| d s]; [ discriminate E | ].
      destruct (Str.hex_value d) as [lo | ] eqn:Hl; [ | discriminate E ].
      destruct (Str.fromhex s) as [rest | ] eqn:Er; [ | discriminate E ].
      injection E as <-. cbn [String.length] in *.
      destruct (IH (String.length s)) with (s := s) (bs := rest) as [B L];
        [ lia | lia | exact Er | ].
      pose proof (hex_value_range _ _ Hh). pose proof (hex_value_range _ _ Hl).
      split; [ constructor; [ unfold is_byte; destruct hi; lia | exact B ]
             | cbn [length]; lia ].
Qed.

(** Whatever [bytes.fromhex] accepts decodes to bytes in 0..255,
    two characters at least for each, so a [bytearray] built from it
    never holds an out-of-range value. *)
Theorem fromhex_gives_bytes (s : string) (bs : list Z) :
  Str.fromhex s = Some bs ->
  bytes bs /\ (2 * length bs <= String.length s)%nat.
Proof. intro E. exact (fromhex_sound (String.length s) s bs (le_n _) E). Qed.

Lemma fromhex_gives_bytes_witness :
  Str.fromhex "aB 0f" = Some [0xAB; 0x0F] /\
  bytes [0xAB; 0x0F] /\ (2 * length [0xAB; 0x0F] <= String.length "aB 0f")%nat.
Proof.
  split; [ reflexivity | ].
  exact (fromhex_gives_bytes "aB 0f" [0xAB; 0x0F] eq_refl).
Defined.

(** ** Frames and the debug page's check *)

Lemma password_bytes (access_password : string) (pwd_bytes : list Z) :
  Cmd.password access_password = Some pwd_bytes -> bytes pwd_bytes.
Proof.
  unfold Cmd.password. destruct (Str.fromhex _) as [bs | ] eqn:E; [ | discriminate ].
  destruct (length bs =? 4)%nat; [ | discriminate ].
  intro H. injection H as <-. exact (proj1 (fromhex_sound _ _ _ (le_n _) E)).
Qed.

Lemma new_epc_bytes (new_epc : string) (epc_bytes : list Z) :
  Cmd.new_epc new_epc = Some epc_bytes -> bytes epc_bytes.
Proof.
  unfold Cmd.new_epc. destruct (Str.fromhex _) as [bs | ] eqn:E; [ | discriminate ].
  destruct (length bs =? 12)%nat; [ | discriminate ].
  intro H. injection H as <-. exact (proj1 (fromhex_sound _ _ _ (le_n _) E)).
Qed.

Lemma is_byte_mod (x : Z) : is_byte (x mod 256).
Proof. unfold is_byte. apply Z.mod_pos_bound. lia. Qed.

Lemma is_byte_land (x : Z) : is_byte (Z.land x 0xFF).
Proof. rewrite land_255. apply is_byte_mod. Qed.

(** A command body [pre] (header, type, code, length, payload) closed
    by its checksum and the terminator. *)
Lemma framed_shape (pre : list Z) :
  bytes pre -> (5 <= length pre)%nat -> at_ pre 0 = 0xBB ->
  let frame := pre ++ [sum (skipn 1 pre) mod 256; 0x7E] in
  bytes frame /\ (7 <= length frame)%nat /\ at_ frame 0 = 0xBB
  /\ at_ frame (length frame - 1) = 0x7E /\ checksum_ok frame.
Proof.
  intros Hb Hl H0 frame. subst frame. unfold checksum_ok.
  rewrite length_app. cbn [length].
  replace (length pre + 2 - 1)%nat with (length pre + 1)%nat by lia.
  replace (length pre + 2 - 2)%nat with (length pre + 0)%nat by lia.
  unfold at_ in *. rewrite app_nth1 by lia. rewrite !app_nth2_plus. cbn [nth].
  repeat split; try lia; try exact H0.
  - apply Forall_app. split; [ exact Hb | ].
    constructor; [ apply is_byte_mod | ].
    constructor; [ unfold is_byte; lia | constructor ].
  - unfold slice. destruct pre as [| x p]; [ cbn in Hl; lia | ].
    cbn [length app skipn]. replace (S (length p) + 0 - 1)%nat with (length p) by lia.
    rewrite firstn_app, Nat.sub_diag, firstn_all. cbn [firstn].
    rewrite app_nil_r. reflexivity.
Qed.

Lemma validate_accepts (frame : list Z) :
  bytes frame -> (7 <= length frame)%nat -> at_ frame 0 = 0xBB ->
  at_ frame (length frame - 1) = 0x7E -> checksum_ok frame ->
  Debug.validate_command (Fmt.hex_join frame) = (true, Debug.Valid).
Proof.
  intros Hb Hl H0 Ht Hc. unfold Debug.validate_command.
  rewrite remove_spaces_hex_join, length_packed, fromhex_packed by exact Hb.
  replace (2 * length frame)%nat with (length frame * 2)%nat by lia.
  rewrite Nat.Div0.mod_mul. cbn [Nat.eqb negb].
  rewrite (ltb_false_of_le 7) by exact Hl.
  rewrite H0, Ht. cbn [Z.eqb Pos.eqb negb].
  unfold checksum_ok in Hc. rewrite Hc, land_255, Z.eqb_refl. reflexivity.
Qed.

Lemma built_framed (frame : list Z) :
  built frame ->
  exists pre,
    frame = pre ++ [sum (skipn 1 pre) mod 256; 0x7E]
    /\ bytes pre /\ (5 <= length pre)%nat /\ at_ pre 0 = 0xBB.
Proof.
  intros [mode Hm | target epc Hx He | ne ap epc pwd He Hp | ap pwd mb sa len Hp].
  - exists [0xBB; 0x00; 0x12; 0x00; 0x01; mode].
    split; [ unfold Cmd.select_mode; rewrite land_255; reflexivity | ].
    split; [ | split; [ cbn; lia | reflexivity ] ].
    repeat (constructor; [ first [ exact Hm | unfold is_byte; lia ] | ]). constructor.
  - pose proof (proj1 (fromhex_sound _ _ _ (le_n _) Hx)) as Hb.
    exists ([0xBB; 0x00; 0x0C; 0x00; 0x13; 0x01; 0x00; 0x00; 0x00; 0x20; 0x60; 0x00] ++ epc).
    split; [ | split; [ | split; [ rewrite length_app; cbn; lia | reflexivity ] ] ].
    + unfold Cmd.select_params. rewrite land_255, <- app_assoc. cbn [app].
      do 13 f_equal. unfold slice. rewrite firstn_all2; [ reflexivity | ].
      cbn [skipn length]. lia.
    + apply Forall_app. split; [ | exact Hb ].
      repeat (constructor; [ unfold is_byte; lia | ]). constructor.
  - pose proof (new_epc_bytes _ _ He) as Hbe. pose proof (password_bytes _ _ Hp) as Hbp.
    exists ((([0xBB; 0x00; 0x49; 0x00; 0x11] ++ pwd) ++ [0x01; 0x02; 0x00; 0x06]) ++ epc).
    split; [ | split; [ | split; [ rewrite !length_app; cbn; lia | reflexivity ] ] ].
    + unfold Cmd.write_epc. rewrite <- (app_assoc _ [_] [_]). reflexivity.
    + repeat (apply Forall_app; split); try assumption;
        repeat (constructor; [ unfold is_byte; lia | ]); constructor.
  - pose proof (password_bytes _ _ Hp) as Hbp.
    exists (([0xBB; 0x00; 0x39; 0x00; 0x09] ++ pwd)
              ++ [Z.land mb 0xFF; Z.land sa 0xFF; Z.land (Z.shiftr sa 8) 0xFF;
                  Z.land len 0xFF; Z.land (Z.shiftr len 8) 0xFF]).
    split; [ | split; [ | split; [ rewrite !length_app; cbn; lia | reflexivity ] ] ].
    + unfold Cmd.read_tag_memory. rewrite (land_255 (sum _)), <- (app_assoc _ [_] [_]).
      reflexivity.
    + repeat (apply Forall_app; split); try assumption.
      * repeat (constructor; [ unfold is_byte; lia | ]). constructor.
      * repeat (constructor; [ apply is_byte_land | ]). constructor.
Qed.

Lemma built_shape (frame : list Z) :
  built frame ->
  bytes frame /\ (7 <= length frame)%nat /\ at_ frame 0 = 0xBB
  /\ at_ frame (length frame - 1) = 0x7E /\ checksum_ok frame.
Proof.
  intro B. destruct (built_framed frame B) as (pre & -> & Hb & Hl & H0).
  exact (framed_shape pre Hb Hl H0).
Qed.

Lemma write_card_shape (data_bytes : list Z) :
  bytes data_bytes -> (length data_bytes <= 16)%nat ->
  let frame := Cmd.write_card data_bytes in
  bytes frame /\ (7 <= length frame)%nat /\ at_ frame 0 = 0xBB
  /\ at_ frame (length frame - 1) = 0x7E /\ checksum_ok frame.
Proof.
  intros Hb Hl. unfold Cmd.write_card. cbv zeta.
  rewrite <- (app_assoc _ [_] [_]). apply framed_shape.
  - apply Forall_app. split; [ | exact Hb ].
    repeat (constructor; [ unfold is_byte; lia | ]). constructor.
  - rewrite length_app. cbn [length]. lia.
  - reflexivity.
Qed.

(** X6. Every frame the builders of set-Select-mode, set-Select-mask,
    write-EPC and read-tag-memory produce from validated arguments,
    every write-card frame for at most 16 data bytes, and every fixed
    command and power command of the module, printed as spaced
    hexadecimal, is accepted by [validate_command] of the debug page:
    even length, header [BB], terminator [7E], checksum right. *)
Theorem frames_pass_validate_command :
  (forall frame, built frame ->
                 Debug.validate_command (Fmt.hex_join frame) = (true, Debug.Valid))
  /\ (forall data_bytes,
        bytes data_bytes -> (length data_bytes <= 16)%nat ->
        Debug.validate_command (Fmt.hex_join (Cmd.write_card data_bytes))
        = (true, Debug.Valid))
  /\ Forall (fun frame => Debug.validate_command (Fmt.hex_join frame) = (true, Debug.Valid))
            ([Cmd.read_once; Cmd.start_inventory; Cmd.stop_inventory; Cmd.get_gain;
              Cmd.SUCCESS_RESPONSE] ++ map snd Cmd.POWER_COMMANDS).
Proof.
  split; [ | split ].
  - intros frame B. destruct (built_shape frame B) as (Hb & Hl & H0 & Ht & Hc).
    apply validate_accepts; assumption.
  - intros data_bytes Hb Hl.
    destruct (write_card_shape data_bytes Hb Hl) as (Hb' & Hl' & H0 & Ht & Hc).
    apply validate_accepts; assumption.
  - repeat constructor.
Qed.

Lemma frames_pass_validate_command_witness :
  built (Cmd.select_mode 0x02) /\
  Debug.validate_command (Fmt.hex_join (Cmd.select_mode 0x02)) = (true, Debug.Valid).
Proof.
  assert (B : built (Cmd.select_mode 0x02))
    by (apply built_select_mode; unfold is_byte; lia).
  split; [ exact B | ].
  exact (proj1 frames_pass_validate_command _ B).
Defined.

(** X7. The 16-bit length field equals the number of payload bytes in
    the frames of set-Select-mode, set-Select-mask and read-tag-memory;
    the frames of [write_epc] and [write_card] always carry the length
    field 0x0011 = 17, while their payload is 20 bytes and 9 bytes plus
    the data. *)
Theorem length_fields :
  (forall mode,
     length_field (Cmd.select_mode mode) = Z.of_nat (length (Cmd.select_mode mode)) - 7)
  /\ (forall epc_bytes,
        length epc_bytes = 12%nat ->
        length_field (Cmd.select_params epc_bytes)
        = Z.of_nat (length (Cmd.select_params epc_bytes)) - 7)
  /\ (forall pwd_bytes membank start_addr len,
        length pwd_bytes = 4%nat ->
        length_field (Cmd.read_tag_memory pwd_bytes membank start_addr len)
        = Z.of_nat (length (Cmd.read_tag_memory pwd_bytes membank start_addr len)) - 7)
  /\ (forall pwd_bytes epc_bytes,
        length pwd_bytes = 4%nat -> length epc_bytes = 12%nat ->
        length_field (Cmd.write_epc pwd_bytes epc_bytes) = 17
        /\ Z.of_nat (length (Cmd.write_epc pwd_bytes epc_bytes)) - 7 = 20)
  /\ (forall data_bytes,
        length_field (Cmd.write_card data_bytes) = 17
        /\ Z.of_nat (length (Cmd.write_card data_bytes)) - 7
           = 9 + Z.of_nat (length data_bytes)).
Proof.
  split; [ reflexivity | ].
  split; [ intros epc He; explode epc He; reflexivity | ].
  split; [ intros pwd mb sa len Hp; explode pwd Hp; reflexivity | ].
  split.
  - intros pwd epc Hp He. explode pwd Hp. explode epc He. split; reflexivity.
  - intro data. split; [ reflexivity | ].
    unfold Cmd.write_card. cbv zeta. rewrite !length_app. cbn [length]. lia.
Qed.

Lemma length_fields_witness :
  length [0; 0; 0; 1] = 4%nat /\
  length [0xAA; 0xBB; 0xCC; 0xDD; 0xEE; 0xFF; 0x11; 0x22; 0x33; 0x44; 0x55; 0x66] = 12%nat /\
  length_field (Cmd.write_epc [0; 0; 0; 1]
                  [0xAA; 0xBB; 0xCC; 0xDD; 0xEE; 0xFF; 0x11; 0x22; 0x33; 0x44; 0x55; 0x66])
  = 17.
Proof.
  split; [ reflexivity | ]. split; [ reflexivity | ].
  exact (proj1 (proj1 (proj2 (proj2 (proj2 length_fields)))
                      [0; 0; 0; 1]
                      [0xAA; 0xBB; 0xCC; 0xDD; 0xEE; 0xFF; 0x11; 0x22; 0x33; 0x44; 0x55; 0x66]
                      eq_refl eq_refl)).
Defined.

(** ** Answered exchanges *)

Lemma upto_terminator_nonempty (data : list Z) : data <> [] -> upto_terminator data <> [].
Proof.
  destruct data as [| b data]; [ congruence | ]. intros _. cbn [upto_terminator].
  destruct (b =? 126); discriminate.
Qed.

(** The polling loop on an input buffer that holds [data]: it reads up
    to the terminator and stops at once, or reads everything and then
    sleeps its hundred times. *)
Lemma wait_response_answer (data : list Z) :
  forall (fuel : nat) (response : list Z) cp bz cf sc wr op cl ck (r : RFIDReader),
    ser r <> None -> (length data + 100 < fuel)%nat ->
    wait_response fuel response 0 (mk_state (mk_world cp bz cf sc data wr op cl ck) r)
    = Some (Return (response ++ upto_terminator data),
            mk_state (if has_terminator data
                      then mk_world cp bz cf sc (after_terminator data) wr op cl ck
                      else mk_world cp bz cf sc [] wr op cl (ck + 1000)) r).
Proof.
  induction data as [| b data IH]; intros fuel response cp bz cf sc wr op cl ck r Hser Hfuel.
  - rewrite wait_response_idle by (try assumption; try reflexivity; cbn in *; lia).
    cbn [upto_terminator has_terminator existsb]. rewrite app_nil_r. reflexivity.
  - destruct fuel as [| fuel]; [ cbn in Hfuel; lia | ]. cbn [wait_response].
    destruct r as [[hd | ] a t p g m sp lp]; [ | contradiction ].
    run_goal. cbn [upto_terminator after_terminator has_terminator existsb].
    rewrite (Z.eqb_sym 126 b).
    destruct (list_eq_dec Z.eq_dec [b] [126]) as [E | N].
    + injection E as ->. reflexivity.
    + assert (Hb : (b =? 126) = false) by (apply Z.eqb_neq; congruence).
      rewrite Hb. cbn [orb].
      rewrite IH by (try discriminate; cbn [length] in Hfuel; lia).
      rewrite <- app_assoc. reflexivity.
Qed.

(** [send_command] on a connected reader whose device answers [data]:
    one write, and the answer up to its first terminator comes back. *)
Lemma send_command_answer (fuel : nat) (command data : list Z) (rest : list exchange)
      (w : World) (r : RFIDReader) :
  is_connected_of r = true -> script w = Answer data :: rest ->
  data <> [] -> (length data + 100 < fuel)%nat ->
  send_command fuel command (mk_state w r)
  = Some (Return (upto_terminator data), mk_state (after_exchange w rest command data) r).
Proof.
  intros Hc Hs Hd Hfuel.
  destruct r as [[[pt [ | ]] | ] a t p g m sp lp]; try discriminate Hc. clear Hc.
  destruct w as [cp bz cf sc ib wr op cl ck]. cbn [script] in Hs. subst sc.
  unfold send_command. cbn [send_attempts]. unfold send_attempt. run_goal.
  rewrite wait_response_answer by (try discriminate; lia).
  pose proof (upto_terminator_nonempty data Hd) as Hn.
  unfold after_exchange. cbn [app].
  destruct (upto_terminator data) as [| x resp]; [ congruence | ].
  destruct (has_terminator data); run_goal; reflexivity.
Qed.

Lemma terminated_once (pre : list Z) :
  Forall (fun b => b <> 0x7E) pre ->
  upto_terminator (pre ++ [0x7E]) = pre ++ [0x7E]
  /\ after_terminator (pre ++ [0x7E]) = []
  /\ has_terminator (pre ++ [0x7E]) = true.
Proof.
  induction 1 as [| b pre Hb _ (IH1 & IH2 & IH3)]; [ repeat split | ].
  cbn [app upto_terminator after_terminator has_terminator existsb].
  apply Z.eqb_neq in Hb. rewrite Hb. rewrite (Z.eqb_sym 126 b), Hb. cbn [orb].
  rewrite IH1, IH2. repeat split. exact IH3.
Qed.

Lemma upto_after_terminator (data : list Z) :
  upto_terminator data ++ after_terminator data = data
  /\ (has_terminator data = false -> after_terminator data = []).
Proof.
  induction data as [| b data [IH1 IH2]]; [ split; reflexivity | ].
  cbn [upto_terminator after_terminator has_terminator existsb].
  rewrite (Z.eqb_sym 126 b). destruct (b =? 126); cbn [orb app].
  - split; [ reflexivity | discriminate ].
  - rewrite IH1. split; [ reflexivity | exact IH2 ].
Qed.

Lemma after_exchange_logs (w : World) (rest : list exchange) (command data : list Z) :
  written (after_exchange w rest command data) = written w ++ [command]
  /\ script (after_exchange w rest command data) = rest
  /\ opened (after_exchange w rest command data) = opened w
  /\ closed (after_exchange w rest command data) = closed w.
Proof.
  unfold after_exchange. destruct w. destruct (has_terminator data); cbn; repeat split.
Qed.

(** X8. When the device answers a command with at least one byte,
    [send_command] on a connected reader writes the command once and
    returns the answer up to and including its first [7E]; what follows
    stays in the input buffer.  An answer without [7E] is returned whole
    after the full second of polling. *)
Theorem send_command_returns_first_frame
        (fuel : nat) (command data : list Z) (rest : list exchange)
        (w : World) (r : RFIDReader) :
  is_connected_of r = true -> script w = Answer data :: rest ->
  data <> [] -> (length data + 100 < fuel)%nat ->
  exists w',
    send_command fuel command (mk_state w r)
    = Some (Return (upto_terminator data), mk_state w' r)
    /\ written w' = written w ++ [command]
    /\ script w' = rest
    /\ in_buffer w' = after_terminator data
    /\ upto_terminator data ++ after_terminator data = data
    /\ clock_ms w' = clock_ms w + (if has_terminator data then 0 else 1000).
Proof.
  intros Hc Hs Hd Hfuel. exists (after_exchange w rest command data).
  split; [ apply send_command_answer; assumption | ].
  destruct (upto_after_terminator data) as [Hua Hnone].
  unfold after_exchange. destruct w as [cp bz cf sc ib wr op cl ck].
  destruct (has_terminator data); cbn; repeat split; try exact Hua; try lia.
  symmetry. apply Hnone. reflexivity.
Qed.

Lemma send_command_returns_first_frame_witness :
  is_connected_of attached = true /\
  script (bench [Answer (select_mode_ack ++ [0xBB; 0x01])]) =
    Answer (select_mode_ack ++ [0xBB; 0x01]) :: [] /\
  select_mode_ack ++ [0xBB; 0x01] <> [] /\
  (length (select_mode_ack ++ [0xBB%Z; 0x01%Z]) + 100 < 200)%nat /\
  exists w',
    send_command 200 (Cmd.select_mode 0x01)
                 (mk_state (bench [Answer (select_mode_ack ++ [0xBB; 0x01])]) attached)
    = Some (Return (upto_terminator (select_mode_ack ++ [0xBB; 0x01])), mk_state w' attached)
    /\ written w' = written (bench [Answer (select_mode_ack ++ [0xBB; 0x01])])
                    ++ [Cmd.select_mode 0x01]
    /\ script w' = []
    /\ in_buffer w' = after_terminator (select_mode_ack ++ [0xBB; 0x01])
    /\ upto_terminator (select_mode_ack ++ [0xBB; 0x01])
       ++ after_terminator (select_mode_ack ++ [0xBB; 0x01])
       = select_mode_ack ++ [0xBB; 0x01]
    /\ clock_ms w' = clock_ms (bench [Answer (select_mode_ack ++ [0xBB; 0x01])])
                     + (if has_terminator (select_mode_ack ++ [0xBB; 0x01]) then 0 else 1000).
Proof.
  assert (N : select_mode_ack ++ [0xBB; 0x01] <> []) by discriminate.
  assert (F : (length (select_mode_ack ++ [0xBB%Z; 0x01%Z]) + 100 < 200)%nat) by (cbn; lia).
  split; [ reflexivity | ]. split; [ reflexivity | ]. split; [ exact N | ].
  split; [ exact F | ].
  exact (send_command_returns_first_frame 200 (Cmd.select_mode 0x01) _ []
           (bench [Answer (select_mode_ack ++ [0xBB; 0x01])]) attached
           eq_refl eq_refl N F).
Defined.

(** ** Operations against an answering device *)

Lemma lor_shiftl_8 (hi lo : Z) :
  0 <= hi -> 0 <= lo < 256 -> Z.lor (Z.shiftl hi 8) lo = 256 * hi + lo.
Proof.
  intros Hh Hl.
  assert (D : Z.land (Z.shiftl hi 8) lo = 0).
  { apply Z.bits_inj'. intros n Hn. rewrite Z.land_spec, Z.bits_0.
    destruct (Z.lt_ge_cases n 8) as [Hlt | Hge].
    - rewrite Z.shiftl_spec_low by exact Hlt. reflexivity.
    - replace (Z.testbit lo n) with false; [ apply andb_false_r | ].
      symmetry. destruct (Z.eq_dec lo 0) as [-> | Hz]; [ apply Z.bits_0 | ].
      apply Z.bits_above_log2; [ lia | ].
      apply Z.log2_lt_pow2; [ lia | ].
      apply Z.lt_le_trans with (2 ^ 8); [ cbn; lia | ].
      apply Z.pow_le_mono_r; lia. }
  rewrite <- Z.lxor_lor by exact D.
  rewrite <- Z.add_nocarry_lxor by exact D.
  rewrite Z.shiftl_mul_pow2 by lia. change (2 ^ 8) with 256. lia.
Qed.

Ltac is_connected_step s :=
  rewrite (bind_run _ _ _ _ _ (is_connected_run s)); cbn [self is_connected_of negb].

(** The first attempt of the gain query against a device that answers
    a gain frame; [reconnect] is not called. *)
Lemma gain_query_answered (fuel : nat) (reconnect : string -> M bool)
      (hi lo chk : Z) (rest : list exchange) (w : World) (r : RFIDReader) :
  is_connected_of r = true ->
  script w = Answer [0xBB; 0x01; 0xB7; 0x00; 0x02; hi; lo; chk; 0x7E] :: rest ->
  hi <> 0x7E -> lo <> 0x7E -> chk <> 0x7E ->
  (109 < fuel)%nat ->
  get_current_gain_with fuel reconnect (mk_state w r)
  = Some (Return (Some (Z.lor (Z.shiftl hi 8) lo)),
          mk_state (after_exchange w rest Cmd.get_gain
                      [0xBB; 0x01; 0xB7; 0x00; 0x02; hi; lo; chk; 0x7E])
                   (with_gain r (Some (Z.lor (Z.shiftl hi 8) lo)))).
Proof.
  intros Hc Hs Hh Hl Hk Hfuel.
  unfold get_current_gain_with. is_connected_step (mk_state w r). rewrite Hc. cbn [negb].
  cbn [gain_attempts]. unfold gain_attempt at 1.
  unfold bind at 1. unfold try_except.
  change (if (0 <? 0)%nat then sleep 500 else ret tt) with (@ret unit tt).
  rewrite (bind_run _ _ _ _ tt (eq_refl : ret tt (mk_state w r) = Some (Return tt, mk_state w r))).
  is_connected_step (mk_state w r). rewrite Hc. cbn [negb].
  rewrite (bind_run _ _ _ _ _
             (send_command_answer fuel Cmd.get_gain _ rest w r Hc Hs
                ltac:(discriminate) ltac:(cbn [length]; lia))).
  apply Z.eqb_neq in Hh, Hl, Hk.
  cbn [upto_terminator]. rewrite Hh, Hl, Hk.
  cbn [Z.eqb Pos.eqb length Nat.leb startswith andb at_ nth].
  reflexivity.
Qed.

(** X9. When the device answers the gain query with
    [BB 01 B7 00 02 hi lo chk 7E], none of the three variable bytes
    being [7E], [get_current_gain] writes the query once, returns the
    big-endian value [256 hi + lo] (hundredths of a dBm) and caches it;
    [chk] is not checked. *)
Theorem get_current_gain_parses
        (fuel : nat) (hi lo chk : Z) (rest : list exchange) (w : World) (r : RFIDReader) :
  is_connected_of r = true ->
  script w = Answer [0xBB; 0x01; 0xB7; 0x00; 0x02; hi; lo; chk; 0x7E] :: rest ->
  is_byte hi -> is_byte lo ->
  hi <> 0x7E -> lo <> 0x7E -> chk <> 0x7E ->
  (109 < fuel)%nat ->
  exists w',
    get_current_gain fuel (mk_state w r)
    = Some (Return (Some (256 * hi + lo)), mk_state w' (with_gain r (Some (256 * hi + lo))))
    /\ written w' = written w ++ [Cmd.get_gain]
    /\ script w' = rest
    /\ opened w' = opened w.
Proof.
  intros Hc Hs Bh Bl Hh Hl Hk Hfuel. unfold get_current_gain.
  rewrite (gain_query_answered fuel _ hi lo chk rest w r) by assumption.
  rewrite lor_shiftl_8 by (unfold is_byte in *; lia).
  eexists. split; [ reflexivity | ].
  apply Z.eqb_neq in Hh, Hl, Hk.
  unfold after_exchange, has_terminator. cbn [existsb].
  rewrite (Z.eqb_sym 126 hi), (Z.eqb_sym 126 lo), (Z.eqb_sym 126 chk), Hh, Hl, Hk.
  cbn [Z.eqb Pos.eqb orb]. destruct w. cbn. repeat split.
Qed.

Lemma get_current_gain_parses_witness :
  is_connected_of attached = true /\
  is_byte 0x06 /\ is_byte 0xA4 /\ 0x06 <> 0x7E /\ 0xA4 <> 0x7E /\ 0x64 <> 0x7E /\
  (109 < 110)%nat /\
  exists w',
    get_current_gain 110
      (mk_state (bench [Answer [0xBB; 0x01; 0xB7; 0x00; 0x02; 0x06; 0xA4; 0x64; 0x7E]])
                attached)
    = Some (Return (Some (256 * 0x06 + 0xA4)),
            mk_state w' (with_gain attached (Some (256 * 0x06 + 0xA4))))
    /\ written w'
       = written (bench [Answer [0xBB; 0x01; 0xB7; 0x00; 0x02; 0x06; 0xA4; 0x64; 0x7E]])
         ++ [Cmd.get_gain]
    /\ script w' = []
    /\ opened w'
       = opened (bench [Answer [0xBB; 0x01; 0xB7; 0x00; 0x02; 0x06; 0xA4; 0x64; 0x7E]]).
Proof.
  assert (B1 : is_byte 0x06) by (unfold is_byte; lia).
  assert (B2 : is_byte 0xA4) by (unfold is_byte; lia).
  assert (N1 : 0x06 <> 0x7E) by lia.
  assert (N2 : 0xA4 <> 0x7E) by lia.
  assert (N3 : 0x64 <> 0x7E) by lia.
  assert (F : (109 < 110)%nat) by lia.
  repeat (split; [ first [ reflexivity | assumption ] | ]).
  exact (get_current_gain_parses 110 0x06 0xA4 0x64 []
           (bench [Answer [0xBB; 0x01; 0xB7; 0x00; 0x02; 0x06; 0xA4; 0x64; 0x7E]])
           attached eq_refl eq_refl B1 B2 N1 N2 N3 F).
Defined.

(** X10. [read_card_once] against a device that answers 24 bytes
    starting [BB 02 22], ending in [7E], with no [7E] before: the card
    is returned with the fields of the inventory decoder
    ([card_info_of]), after one write.  Neither the length field nor the
    checksum of the answer is looked at. *)
Theorem read_card_once_unchecked
        (fuel : nat) (pre : list Z) (rest : list exchange) (w : World) (r : RFIDReader) :
  is_connected_of r = true ->
  script w = Answer (pre ++ [0x7E]) :: rest ->
  length pre = 23%nat -> Forall (fun b => b <> 0x7E) pre ->
  startswith pre [0xBB; 0x02; 0x22] = true ->
  (124 < fuel)%nat ->
  read_card_once fuel (mk_state w r)
  = Some (Return (Some (card_info_of (pre ++ [0x7E]))),
          mk_state (after_exchange w rest Cmd.read_once (pre ++ [0x7E])) r).
Proof.
  intros Hc Hs Hl Hn Hh Hfuel.
  destruct (terminated_once pre Hn) as (Hu & _ & _).
  unfold read_card_once. is_connected_step (mk_state w r). rewrite Hc. cbn [negb].
  unfold try_except.
  rewrite (bind_run _ _ _ _ _
             (send_command_answer fuel Cmd.read_once _ rest w r Hc Hs
                ltac:(destruct pre; discriminate)
                ltac:(rewrite length_app, Hl; cbn [length]; lia))).
  rewrite Hu.
  assert (L : length (pre ++ [126]) = 24%nat) by (rewrite length_app, Hl; reflexivity).
  assert (S3 : startswith (pre ++ [126]) [187; 2; 34] = true).
  { clear - Hh Hl. explode pre Hl. exact Hh. }
  rewrite L, S3. cbn [Nat.ltb Nat.leb].
  destruct (pre ++ [126]) eqn:E; [ discriminate L | reflexivity ].
Qed.

Lemma read_card_once_unchecked_witness :
  is_connected_of attached = true /\
  accepted (corrupt example_frame 5 0x31) = false /\
  read_card_once 125
    (mk_state (bench [Answer (firstn 23 (corrupt example_frame 5 0x31) ++ [0x7E])]) attached)
  = Some (Return (Some (card_info_of (firstn 23 (corrupt example_frame 5 0x31) ++ [0x7E]))),
          mk_state (after_exchange
                      (bench [Answer (firstn 23 (corrupt example_frame 5 0x31) ++ [0x7E])])
                      [] Cmd.read_once
                      (firstn 23 (corrupt example_frame 5 0x31) ++ [0x7E]))
                   attached).
Proof.
  split; [ reflexivity | ]. split; [ reflexivity | ].
  apply (read_card_once_unchecked 125 (firstn 23 (corrupt example_frame 5 0x31)) []).
  - reflexivity.
  - reflexivity.
  - reflexivity.
  - repeat constructor; cbn; lia.
  - reflexivity.
  - lia.
Defined.

Lemma select_mode_answered (fuel : nat) (mode chk : Z) (rest : list exchange)
      (w : World) (r : RFIDReader) :
  is_connected_of r = true -> is_byte mode ->
  script w = Answer [0xBB; 0x01; 0x12; 0x00; 0x01; 0x00; chk; 0x7E] :: rest ->
  chk <> 0x7E -> (108 < fuel)%nat ->
  set_select_mode fuel mode (mk_state w r)
  = Some (Return true,
          mk_state (after_exchange w rest (Cmd.select_mode mode)
                      [0xBB; 0x01; 0x12; 0x00; 0x01; 0x00; chk; 0x7E])
                   (with_select_mode r mode)).
Proof.
  intros Hc Hm Hs Hk Hfuel. unfold set_select_mode.
  is_connected_step (mk_state w r). rewrite Hc. cbn [negb].
  assert (R : (0 <=? mode) && (mode <? 256) = true).
  { unfold is_byte in Hm. apply andb_true_intro. split; [ apply Z.leb_le | apply Z.ltb_lt ]; lia. }
  rewrite R. cbn [negb]. unfold try_except.
  rewrite (bind_run _ _ _ _ _
             (send_command_answer fuel (Cmd.select_mode mode) _ rest w r Hc Hs
                ltac:(discriminate) ltac:(cbn [length]; lia))).
  apply Z.eqb_neq in Hk. cbn [upto_terminator]. rewrite Hk.
  cbn [Z.eqb Pos.eqb length Nat.leb andb at_ nth]. reflexivity.
Qed.

(** X11. [set_select_mode] for a byte [mode], against a device that
    answers [BB 01 12 00 01 00 chk 7E]: the frame [BB 00 12 00 01 mode
    sum 7E] is written once.  When [chk] is not [7E], [True] is returned
    and the mode recorded: the value of [chk] is not checked.  When
    [chk] is [7E], the answer is cut after it, at seven bytes: [False]
    is returned and the mode is not recorded. *)
Theorem set_select_mode_acknowledged
        (fuel : nat) (mode chk : Z) (rest : list exchange) (w : World) (r : RFIDReader) :
  is_connected_of r = true -> is_byte mode ->
  script w = Answer [0xBB; 0x01; 0x12; 0x00; 0x01; 0x00; chk; 0x7E] :: rest ->
  (108 < fuel)%nat ->
  exists w',
    set_select_mode fuel mode (mk_state w r)
    = Some (Return (negb (chk =? 0x7E)),
            mk_state w' (if chk =? 0x7E then r else with_select_mode r mode))
    /\ written w'
       = written w ++ [[0xBB; 0x00; 0x12; 0x00; 0x01; mode; (0x13 + mode) mod 256; 0x7E]]
    /\ script w' = rest.
Proof.
  intros Hc Hm Hs Hfuel.
  assert (Hframe : Cmd.select_mode mode
                   = [0xBB; 0x00; 0x12; 0x00; 0x01; mode; (0x13 + mode) mod 256; 0x7E]).
  { unfold Cmd.select_mode. rewrite land_255.
    cbn [slice Nat.sub skipn firstn sum fold_right app].
    replace (0 + (18 + (0 + (1 + (mode + 0))))) with (19 + mode) by lia. reflexivity. }
  destruct (chk =? 0x7E) eqn:Hk; cbn [negb].
  - apply Z.eqb_eq in Hk. subst chk.
    exists (after_exchange w rest (Cmd.select_mode mode)
              [0xBB; 0x01; 0x12; 0x00; 0x01; 0x00; 0x7E; 0x7E]).
    split.
    + unfold set_select_mode. is_connected_step (mk_state w r). rewrite Hc. cbn [negb].
      assert (R : (0 <=? mode) && (mode <? 256) = true).
      { unfold is_byte in Hm. apply andb_true_intro.
        split; [ apply Z.leb_le | apply Z.ltb_lt ]; lia. }
      rewrite R. cbn [negb]. unfold try_except.
      rewrite (bind_run _ _ _ _ _
                 (send_command_answer fuel (Cmd.select_mode mode) _ rest w r Hc Hs
                    ltac:(discriminate) ltac:(cbn [length]; lia))).
      reflexivity.
    + destruct (after_exchange_logs w rest (Cmd.select_mode mode)
                  [0xBB; 0x01; 0x12; 0x00; 0x01; 0x00; 0x7E; 0x7E]) as (Hw & Hsc & _).
      rewrite Hw, Hsc, Hframe. split; reflexivity.
  - apply Z.eqb_neq in Hk.
    rewrite (select_mode_answered fuel mode chk rest w r) by assumption.
    eexists. split; [ reflexivity | ].
    destruct (after_exchange_logs w rest (Cmd.select_mode mode)
                [0xBB; 0x01; 0x12; 0x00; 0x01; 0x00; chk; 0x7E]) as (Hw & Hsc & _).
    rewrite Hw, Hsc, Hframe. split; reflexivity.
Qed.

Lemma set_select_mode_acknowledged_witness :
  is_connected_of attached = true /\ is_byte 0x02 /\ (108 < 109)%nat /\
  exists w',
    set_select_mode 109 0x02
      (mk_state (bench [Answer [0xBB; 0x01; 0x12; 0x00; 0x01; 0x00; 0xFF; 0x7E]]) attached)
    = Some (Return (negb (0xFF =? 0x7E)),
            mk_state w' (if 0xFF =? 0x7E then attached else with_select_mode attached 0x02))
    /\ written w'
       = written (bench [Answer [0xBB; 0x01; 0x12; 0x00; 0x01; 0x00; 0xFF; 0x7E]])
         ++ [[0xBB; 0x00; 0x12; 0x00; 0x01; 0x02; (0x13 + 0x02) mod 256; 0x7E]]
    /\ script w' = [].
Proof.
  assert (B : is_byte 0x02) by (unfold is_byte; lia).
  assert (F : (108 < 109)%nat) by lia.
  split; [ reflexivity | ]. split; [ exact B | ]. split; [ exact F | ].
  exact (set_select_mode_acknowledged 109 0x02 0xFF []
           (bench [Answer [0xBB; 0x01; 0x12; 0x00; 0x01; 0x00; 0xFF; 0x7E]]) attached
           eq_refl B eq_refl F).
Defined.

Lemma set_select_mode_frame
        (fuel : nat) (mode : Z) (s s' : state) (out : result bool) :
  set_select_mode fuel mode s = Some (out, s') ->
  select_mode (self s') = (if out is Return true then mode else select_mode (self s))
  /\ gain (self s') = gain (self s)
  /\ select_param (self s') = select_param (self s)
  /\ current_power (self s') = current_power (self s)
  /\ last_port (self s') = last_port (self s)
  /\ opened (world s') = opened (world s).
Proof.
  unfold set_select_mode. is_connected_step s.
  destruct (is_connected_of (self s)); cbn [negb].
  2:{ intro E. injection E as <- <-. repeat split. }
  destruct (negb _).
  { intro E. injection E as <- <-. repeat split. }
  unfold try_except, bind at 1.
  destruct (send_command fuel (Cmd.select_mode mode) s) as [[[resp | e] s1] | ] eqn:ES;
    [ | | discriminate ];
    apply keeps_send_command, exchanged_kept in ES;
    destruct ES as [(_ & _ & _ & Ho & _) (Hg & Hp & Hm & Hsp & Hlp & _)].
  - destruct (_ && _); intro E; injection E as <- <-; cbn; repeat split; assumption.
  - intro E. injection E as <- <-. repeat split; assumption.
Qed.

(** X12. However [set_select_mode] ends, the recorded Select mode is
    the new one exactly when it returned [True], and the old one
    otherwise; the cached gain, Select parameter, power level and last
    port, and the log of opened ports, are never touched. *)
Theorem set_select_mode_records_on_success
        (fuel : nat) (mode : Z) (s s' : state) (out : result bool) :
  set_select_mode fuel mode s = Some (out, s') ->
  select_mode (self s') = (if out is Return true then mode else select_mode (self s))
  /\ gain (self s') = gain (self s)
  /\ select_param (self s') = select_param (self s)
  /\ current_power (self s') = current_power (self s)
  /\ last_port (self s') = last_port (self s)
  /\ opened (world s') = opened (world s).
Proof. exact (set_select_mode_frame fuel mode s s' out). Qed.

Lemma set_select_mode_records_on_success_witness :
  exists s',
    set_select_mode 101 0x02 (mk_state (bench []) attached) = Some (Return false, s')
    /\ select_mode (self s') = select_mode attached
    /\ gain (self s') = gain attached.
Proof.
  assert (E : exists s',
             set_select_mode 101 0x02 (mk_state (bench []) attached)
             = Some (Return false, s'))
    by (eexists; vm_compute; reflexivity).
  destruct E as [s' E]. exists s'. split; [ exact E | ].
  pose proof (set_select_mode_records_on_success 101 0x02 (mk_state (bench []) attached)
                s' (Return false) E) as (Hm & Hg & _).
  split; [ exact Hm | exact Hg ].
Defined.

Lemma ack_exchange (w : World) (rest : list exchange) (command : list Z) (a b c chk : Z) :
  chk <> 0x7E ->
  a <> 0x7E -> b <> 0x7E -> c <> 0x7E ->
  after_exchange w rest command [0xBB; a; b; 0x00; c; 0x00; chk; 0x7E]
  = set_in_buffer (log_write (set_script w rest) command) [].
Proof.
  intros Hk Ha Hb Hc. apply Z.eqb_neq in Hk, Ha, Hb, Hc.
  unfold after_exchange, has_terminator. cbn [existsb after_terminator].
  rewrite (Z.eqb_sym 126 chk), (Z.eqb_sym 126 a), (Z.eqb_sym 126 b), (Z.eqb_sym 126 c).
  rewrite Hk, Ha, Hb, Hc. reflexivity.
Qed.

Lemma bytes_firstn (n : nat) (l : list Z) : bytes l -> bytes (firstn n l).
Proof.
  intro H. revert n. unfold bytes in *.
  induction H as [| b l Hb _ IH]; intro n; destruct n; cbn [firstn];
    constructor; auto.
Qed.

Lemma bytes_skipn (n : nat) (l : list Z) : bytes l -> bytes (skipn n l).
Proof.
  intro H. revert n. unfold bytes in *.
  induction H as [| b l Hb Hl IH]; intro n; destruct n; cbn [skipn];
    try constructor; auto.
Qed.

Lemma slice_8_20 (packet : list Z) :
  bytes packet -> (20 <= length packet)%nat ->
  bytes (slice 8 20 packet) /\ length (slice 8 20 packet) = 12%nat.
Proof.
  intros Hb Hl. unfold slice. split.
  - apply bytes_firstn, bytes_skipn, Hb.
  - rewrite length_firstn, length_skipn. lia.
Qed.

Lemma hex_join_truthy (bs : list Z) :
  bs <> [] -> truthy (Some (Fmt.hex_join bs)) = Some (Fmt.hex_join bs).
Proof.
  destruct bs as [| b bs]; [ congruence | ]. intros _.
  rewrite hex_join_cons. destruct bs; reflexivity.
Qed.

(** X13. Selecting the card just read: with the [epc] text of a decoded
    packet as argument, against a device that acknowledges both
    commands, [set_select_params] writes the Select-mask frame for the
    twelve EPC bytes of the packet (offsets 8..19), records the text,
    then writes the Select-mode frame for mode 2, records the mode and
    returns [True]. *)
Theorem select_card_just_read
        (fuel : nat) (packet : list Z) (chk1 chk2 : Z) (rest : list exchange)
        (w : World) (r : RFIDReader) :
  is_connected_of r = true ->
  bytes packet -> (20 <= length packet)%nat ->
  script w = Answer [0xBB; 0x01; 0x0C; 0x00; 0x01; 0x00; chk1; 0x7E]
             :: Answer [0xBB; 0x01; 0x12; 0x00; 0x01; 0x00; chk2; 0x7E] :: rest ->
  chk1 <> 0x7E -> chk2 <> 0x7E -> (108 < fuel)%nat ->
  exists w',
    set_select_params fuel (Some (epc (card_info_of packet))) (mk_state w r)
    = Some (Return true,
            mk_state w' (with_select_mode
                           (with_select_param r (Some (epc (card_info_of packet)))) 0x02))
    /\ written w' = written w ++ [Cmd.select_params (slice 8 20 packet); Cmd.select_mode 0x02]
    /\ script w' = rest.
Proof.
  intros Hc Hb Hl Hs Hk1 Hk2 Hfuel.
  destruct (slice_8_20 packet Hb Hl) as [Hsb Hsl].
  cbn [epc card_info_of]. unfold set_select_params.
  is_connected_step (mk_state w r). rewrite Hc. cbn [negb].
  rewrite hex_join_truthy by (destruct (slice 8 20 packet); [ discriminate Hsl | discriminate ]).
  rewrite remove_spaces_hex_join, fromhex_packed by exact Hsb.
  rewrite Hsl. cbn [Nat.eqb negb]. unfold try_except.
  rewrite (bind_run _ _ _ _ _
             (send_command_answer fuel (Cmd.select_params (slice 8 20 packet)) _ _ w r Hc Hs
                ltac:(discriminate) ltac:(cbn [length]; lia))).
  rewrite ack_exchange by (assumption || lia).
  assert (Hk1' := Hk1). apply Z.eqb_neq in Hk1'.
  cbn [upto_terminator]. rewrite Hk1'.
  cbn [Z.eqb Pos.eqb length Nat.leb andb at_ nth].
  rewrite (bind_run _ _ _ _ _ (modify_self_run _ _)). cbn [world self].
  rewrite (bind_run _ _ _ _ _
             (select_mode_answered fuel 0x02 chk2 rest
                (set_in_buffer
                   (log_write
                      (set_script w (Answer [0xBB; 0x01; 0x12; 0x00; 0x01; 0x00; chk2; 0x7E]
                                     :: rest))
                      (Cmd.select_params (slice 8 20 packet))) [])
                (with_select_param r (Some (Fmt.hex_join (slice 8 20 packet))))
                Hc ltac:(unfold is_byte; lia) eq_refl Hk2 Hfuel)).
  rewrite ack_exchange by (assumption || lia).
  eexists. split; [ reflexivity | ].
  destruct w. cbn. rewrite <- app_assoc. split; reflexivity.
Qed.

Lemma select_card_just_read_witness :
  is_connected_of attached = true /\ bytes example_frame /\
  (20 <= length example_frame)%nat /\ 0x0E <> 0x7E /\ 0x14 <> 0x7E /\ (108 < 109)%nat /\
  exists w',
    set_select_params 109 (Some (epc (card_info_of example_frame)))
      (mk_state (bench [Answer [0xBB; 0x01; 0x0C; 0x00; 0x01; 0x00; 0x0E; 0x7E];
                        Answer [0xBB; 0x01; 0x12; 0x00; 0x01; 0x00; 0x14; 0x7E]]) attached)
    = Some (Return true,
            mk_state w' (with_select_mode
                           (with_select_param attached
                              (Some (epc (card_info_of example_frame)))) 0x02))
    /\ written w'
       = written (bench [Answer [0xBB; 0x01; 0x0C; 0x00; 0x01; 0x00; 0x0E; 0x7E];
                         Answer [0xBB; 0x01; 0x12; 0x00; 0x01; 0x00; 0x14; 0x7E]])
         ++ [Cmd.select_params (slice 8 20 example_frame); Cmd.select_mode 0x02]
    /\ script w' = [].
Proof.
  assert (B : bytes example_frame) by apply example_frame_well_formed.
  assert (L : (20 <= length example_frame)%nat) by (cbn; lia).
  assert (N1 : 0x0E <> 0x7E) by lia.
  assert (N2 : 0x14 <> 0x7E) by lia.
  assert (F : (108 < 109)%nat) by lia.
  split; [ reflexivity | ].
  repeat (split; [ assumption | ]).
  exact (select_card_just_read 109 example_frame 0x0E 0x14 []
           (bench [Answer [0xBB; 0x01; 0x0C; 0x00; 0x01; 0x00; 0x0E; 0x7E];
                   Answer [0xBB; 0x01; 0x12; 0x00; 0x01; 0x00; 0x14; 0x7E]]) attached
           eq_refl B L eq_refl N1 N2 F).
Defined.

Lemma set_select_mode_returns (fuel : nat) (mode : Z) (s : state) :
  is_byte mode -> enough fuel s ->
  exists b s', set_select_mode fuel mode s = Some (Return b, s').
Proof.
  intros Hm Hfuel. unfold set_select_mode. is_connected_step s.
  destruct (is_connected_of (self s)); cbn [negb]; [ | unfold ret; eauto ].
  assert (R : (0 <=? mode) && (mode <? 256) = true).
  { unfold is_byte in Hm. apply andb_true_intro. split; [ apply Z.leb_le | apply Z.ltb_lt ]; lia. }
  rewrite R. cbn [negb]. unfold try_except, bind at 1.
  destruct (send_command_total fuel (Cmd.select_mode mode) s Hfuel) as (out & s1 & E).
  rewrite E. destruct out as [resp | e]; [ | unfold ret; eauto ].
  match goal with |- context [if ?c then _ else _] => destruct c end;
    repeat (unfold bind, modify_self, get_self, put_self, ret); cbn; eauto.
Qed.

(** X14. Clearing the Select mask ([None] or the empty string) on a
    connected reader always ends with [True] and no Select parameter
    recorded, whether or not the device acknowledged the mode command;
    the gain and the last port are kept. *)
Theorem clear_select_always_succeeds (fuel : nat) (target_epc : option string) (s : state) :
  is_connected_of (self s) = true -> enough fuel s ->
  target_epc = None \/ target_epc = Some EmptyString ->
  exists s',
    set_select_params fuel target_epc s = Some (Return true, s')
    /\ select_param (self s') = None
    /\ gain (self s') = gain (self s)
    /\ last_port (self s') = last_port (self s).
Proof.
  intros Hc Hfuel Ht. unfold set_select_params. is_connected_step s. rewrite Hc. cbn [negb].
  replace (truthy target_epc) with (@None string) by (destruct Ht as [-> | ->]; reflexivity).
  destruct (set_select_mode_returns fuel 0x01 s ltac:(unfold is_byte; lia) Hfuel)
    as (b & s1 & E).
  rewrite (bind_run _ _ _ _ _ E).
  rewrite (bind_run _ _ _ _ _ (modify_self_run _ s1)).
  eexists. split; [ reflexivity | ].
  destruct (set_select_mode_frame fuel 0x01 s s1 _ E) as (_ & Hg & _ & _ & Hl & _).
  cbn. repeat split; assumption.
Qed.

Lemma clear_select_always_succeeds_witness :
  exists s',
    set_select_params 101 (Some EmptyString) (mk_state (bench []) attached)
    = Some (Return true, s')
    /\ select_param (self s') = None
    /\ gain (self s') = gain attached
    /\ last_port (self s') = last_port attached.
Proof.
  assert (F : enough 101 (mk_state (bench []) attached)) by (unfold enough; cbn; lia).
  exact (clear_select_always_succeeds 101 (Some EmptyString)
           (mk_state (bench []) attached) eq_refl F (or_intror eq_refl)).
Defined.

(** ** Writing to a tag *)

Lemma length_hex_join (bs : list Z) :
  String.length (Fmt.hex_join bs) = (3 * length bs - 1)%nat.
Proof.
  induction bs as [| b bs IH]; [ reflexivity | ].
  rewrite hex_join_cons. destruct bs as [| b' bs]; [ reflexivity | ].
  unfold Fmt.fmt_02X at 1. cbn [String.append String.length].
  rewrite IH. cbn [length]. lia.
Qed.

(** X15. [write_card] measures its argument before it removes the
    spaces: the spaced hexadecimal text of twelve bytes or more, which
    is 35 characters or more, is turned down with [False] and nothing
    written, although up to sixteen bytes are allowed.  The [epc] text of
    a card that was read is such a text. *)
Theorem write_card_rejects_spaced_text (fuel : nat) (s : state) :
  is_connected_of (self s) = true ->
  (forall bs, (12 <= length bs)%nat ->
              write_card fuel (Fmt.hex_join bs) s = Some (Return false, s))
  /\ (forall packet, (20 <= length packet)%nat ->
                     write_card fuel (epc (card_info_of packet)) s = Some (Return false, s)).
Proof.
  intro Hc.
  assert (G : forall bs, (12 <= length bs)%nat ->
                         write_card fuel (Fmt.hex_join bs) s = Some (Return false, s)).
  { intros bs Hl. unfold write_card. is_connected_step s. rewrite Hc. cbn [negb].
    rewrite length_hex_join.
    replace (32 <? 3 * length bs - 1)%nat with true
      by (symmetry; apply Nat.ltb_lt; lia).
    rewrite orb_true_r. reflexivity. }
  split; [ exact G | ].
  intros packet Hl. cbn [epc card_info_of]. apply G.
  unfold slice. rewrite length_firstn, length_skipn. lia.
Qed.

Lemma write_card_rejects_spaced_text_witness :
  is_connected_of attached = true /\
  write_card 101 (epc (card_info_of example_frame)) (mk_state (bench []) attached)
  = Some (Return false, mk_state (bench []) attached).
Proof.
  assert (L : (20 <= length example_frame)%nat) by (cbn; lia).
  split; [ reflexivity | ].
  exact (proj2 (write_card_rejects_spaced_text 101 (mk_state (bench []) attached) eq_refl)
               example_frame L).
Defined.

(** X16. [write_card] with the spaced hexadecimal text of one to eleven
    bytes (at most 32 characters), against a device that answers: the
    write-card frame for these bytes is written once, and the result is
    [True] exactly when the answer, up to its first [7E], starts with
    [BB 01 49].  The reader's fields are not touched. *)
Theorem write_card_sends_frame
        (fuel : nat) (bs data : list Z) (rest : list exchange) (w : World) (r : RFIDReader) :
  is_connected_of r = true -> bytes bs -> (1 <= length bs <= 11)%nat ->
  script w = Answer data :: rest -> data <> [] -> (length data + 100 < fuel)%nat ->
  exists w',
    write_card fuel (Fmt.hex_join bs) (mk_state w r)
    = Some (Return (startswith (upto_terminator data) [0xBB; 0x01; 0x49]), mk_state w' r)
    /\ written w' = written w ++ [Cmd.write_card bs]
    /\ script w' = rest.
Proof.
  intros Hc Hb Hl Hs Hd Hfuel.
  exists (after_exchange w rest (Cmd.write_card bs) data).
  split; [ | destruct (after_exchange_logs w rest (Cmd.write_card bs) data) as (? & ? & _);
             split; assumption ].
  unfold write_card. is_connected_step (mk_state w r). rewrite Hc. cbn [negb].
  rewrite length_hex_join.
  replace (3 * length bs - 1 =? 0)%nat with false by (symmetry; apply Nat.eqb_neq; lia).
  replace (32 <? 3 * length bs - 1)%nat with false by (symmetry; apply Nat.ltb_ge; lia).
  cbn [orb]. rewrite remove_spaces_hex_join, fromhex_packed by exact Hb.
  replace (16 <? length bs)%nat with false by (symmetry; apply Nat.ltb_ge; lia).
  unfold try_except.
  rewrite (bind_run _ _ _ _ _
             (send_command_answer fuel (Cmd.write_card bs) data rest w r Hc Hs Hd Hfuel)).
  destruct (startswith (upto_terminator data) [0xBB; 0x01; 0x49]); reflexivity.
Qed.

Lemma write_card_sends_frame_witness :
  is_connected_of attached = true /\ bytes [0x12; 0x34] /\
  (1 <= length [0x12%Z; 0x34%Z] <= 11)%nat /\
  exists w',
    write_card 110 (Fmt.hex_join [0x12; 0x34])
      (mk_state (bench [Answer [0xBB; 0x01; 0x49; 0x00; 0x01; 0x00; 0x4B; 0x7E]]) attached)
    = Some (Return (startswith
                      (upto_terminator [0xBB; 0x01; 0x49; 0x00; 0x01; 0x00; 0x4B; 0x7E])
                      [0xBB; 0x01; 0x49]),
            mk_state w' attached)
    /\ written w'
       = written (bench [Answer [0xBB; 0x01; 0x49; 0x00; 0x01; 0x00; 0x4B; 0x7E]])
         ++ [Cmd.write_card [0x12; 0x34]]
    /\ script w' = [].
Proof.
  assert (B : bytes [0x12; 0x34]) by (repeat constructor; unfold is_byte; lia).
  assert (L : (1 <= length [0x12%Z; 0x34%Z] <= 11)%nat) by (cbn; lia).
  assert (N : [0xBB; 0x01; 0x49; 0x00; 0x01; 0x00; 0x4B; 0x7E] <> []) by discriminate.
  assert (F : (length [0xBB%Z; 0x01%Z; 0x49%Z; 0x00%Z; 0x01%Z; 0x00%Z; 0x4B%Z; 0x7E%Z]
               + 100 < 110)%nat) by (cbn; lia).
  split; [ reflexivity | ]. split; [ exact B | ]. split; [ exact L | ].
  exact (write_card_sends_frame 110 [0x12; 0x34] _ []
           (bench [Answer [0xBB; 0x01; 0x49; 0x00; 0x01; 0x00; 0x4B; 0x7E]]) attached
           eq_refl B L eq_refl N F).
Defined.

(** X17. Writing back the EPC of a card that was read: with the [epc]
    text of a decoded packet and an access password that passes the
    check, against a device that answers, [write_epc] writes once the
    write-EPC frame that carries the password bytes and the twelve EPC
    bytes of the packet (offsets 8..19), and returns [True] exactly when
    the answer, up to its first [7E], starts with [BB 01 49]. *)
Theorem write_epc_card_just_read
        (fuel : nat) (packet data pwd_bytes : list Z) (access_password : string)
        (rest : list exchange) (w : World) (r : RFIDReader) :
  is_connected_of r = true -> bytes packet -> (20 <= length packet)%nat ->
  Cmd.password access_password = Some pwd_bytes ->
  script w = Answer data :: rest -> data <> [] -> (length data + 100 < fuel)%nat ->
  exists w',
    write_epc fuel (epc (card_info_of packet)) access_password (mk_state w r)
    = Some (Return (startswith (upto_terminator data) [0xBB; 0x01; 0x49]), mk_state w' r)
    /\ written w' = written w ++ [Cmd.write_epc pwd_bytes (slice 8 20 packet)]
    /\ script w' = rest.
Proof.
  intros Hc Hb Hl Hp Hs Hd Hfuel.
  destruct (slice_8_20 packet Hb Hl) as [Hsb Hsl].
  exists (after_exchange w rest (Cmd.write_epc pwd_bytes (slice 8 20 packet)) data).
  split; [ | destruct (after_exchange_logs w rest
                         (Cmd.write_epc pwd_bytes (slice 8 20 packet)) data) as (? & ? & _);
             split; assumption ].
  cbn [epc card_info_of]. unfold write_epc.
  is_connected_step (mk_state w r). rewrite Hc. cbn [negb].
  unfold Cmd.new_epc. rewrite remove_spaces_hex_join, fromhex_packed by exact Hsb.
  rewrite Hsl. cbn [Nat.eqb]. rewrite Hp. unfold try_except.
  rewrite (bind_run _ _ _ _ _
             (send_command_answer fuel (Cmd.write_epc pwd_bytes (slice 8 20 packet))
                data rest w r Hc Hs Hd Hfuel)).
  destruct (startswith (upto_terminator data) [0xBB; 0x01; 0x49]); reflexivity.
Qed.

Lemma write_epc_card_just_read_witness :
  is_connected_of attached = true /\ bytes example_frame /\
  (20 <= length example_frame)%nat /\
  Cmd.password "" = Some [0; 0; 0; 0] /\
  exists w',
    write_epc 110 (epc (card_info_of example_frame)) ""
      (mk_state (bench [Answer [0xBB; 0x01; 0x49; 0x00; 0x01; 0x00; 0x4B; 0x7E]]) attached)
    = Some (Return (startswith
                      (upto_terminator [0xBB; 0x01; 0x49; 0x00; 0x01; 0x00; 0x4B; 0x7E])
                      [0xBB; 0x01; 0x49]),
            mk_state w' attached)
    /\ written w'
       = written (bench [Answer [0xBB; 0x01; 0x49; 0x00; 0x01; 0x00; 0x4B; 0x7E]])
         ++ [Cmd.write_epc [0; 0; 0; 0] (slice 8 20 example_frame)]
    /\ script w' = [].
Proof.
  assert (B : bytes example_frame) by apply example_frame_well_formed.
  assert (L : (20 <= length example_frame)%nat) by (cbn; lia).
  assert (N : [0xBB; 0x01; 0x49; 0x00; 0x01; 0x00; 0x4B; 0x7E] <> []) by discriminate.
  assert (F : (length [0xBB%Z; 0x01%Z; 0x49%Z; 0x00%Z; 0x01%Z; 0x00%Z; 0x4B%Z; 0x7E%Z]
               + 100 < 110)%nat) by (cbn; lia).
  split; [ reflexivity | ]. split; [ exact B | ]. split; [ exact L | ].
  split; [ reflexivity | ].
  exact (write_epc_card_just_read 110 example_frame _ [0; 0; 0; 0] "" []
           (bench [Answer [0xBB; 0x01; 0x49; 0x00; 0x01; 0x00; 0x4B; 0x7E]]) attached
           eq_refl B L eq_refl eq_refl N F).
Defined.

(** ** The access password *)

Lemma hex_digit_no_sign (d : Z) :
  0 <= d < 16 ->
  Ascii.eqb (Fmt.hex_digit d) "+" = false /\ Ascii.eqb (Fmt.hex_digit d) "-" = false.
Proof.
  intro H.
  assert (G : forall n : nat,
             (n < 16)%nat ->
             Ascii.eqb (Fmt.hex_digit (Z.of_nat n)) "+" = false
             /\ Ascii.eqb (Fmt.hex_digit (Z.of_nat n)) "-" = false).
  { intros n Hn. do 16 (destruct n as [| n]; [ split; reflexivity | ]). lia. }
  rewrite <- (Z2Nat.id d) by lia. apply G. lia.
Qed.

Lemma zfill_packed (width : nat) (bs : list Z) :
  bytes bs ->
  Str.zfill width (String.concat "" (map Fmt.fmt_02X bs))
  = Str.repeat0 (width - 2 * length bs) (String.concat "" (map Fmt.fmt_02X bs)).
Proof.
  intro Hb. unfold Str.zfill. rewrite length_packed.
  destruct Hb as [| b bs Hb _]; [ reflexivity | ].
  rewrite concat_fmt_cons. unfold Fmt.fmt_02X at 1 3. cbn [String.append].
  destruct (byte_digits b Hb) as (Hh & _ & _).
  destruct (hex_digit_no_sign _ Hh) as [-> ->]. reflexivity.
Qed.

Lemma fromhex_repeat0 (k : nat) (s : string) :
  Str.fromhex (Str.repeat0 (2 * k) s)
  = match Str.fromhex s with Some bs => Some (repeat 0 k ++ bs) | None => None end.
Proof.
  induction k as [| k IH].
  { change (Str.repeat0 (2 * 0) s) with s. destruct (Str.fromhex s); reflexivity. }
  replace (2 * S k)%nat with (S (S (2 * k))) by lia.
  cbn [Str.repeat0 Str.fromhex].
  change (Str.is_space "0") with false. change (Str.hex_value "0") with (Some 0).
  cbv iota. rewrite IH. destruct (Str.fromhex s); reflexivity.
Qed.

(** X18. The access password of [write_epc] and [read_tag_memory],
    given as the packed hexadecimal text of [k] bytes: for [k <= 4] it
    stands for these bytes preceded by [4 - k] zero bytes (the empty
    text for four zero bytes); for [k > 4] it is turned down. *)
Theorem password_pads_left (bs : list Z) :
  bytes bs ->
  Cmd.password (String.concat "" (map Fmt.fmt_02X bs))
  = if (length bs <=? 4)%nat then Some (repeat 0 (4 - length bs) ++ bs) else None.
Proof.
  intro Hb. unfold Cmd.password. rewrite length_packed.
  destruct bs as [| b bs]; [ reflexivity | ].
  replace (2 * length (b :: bs) =? 0)%nat with false
    by (symmetry; apply Nat.eqb_neq; cbn [length]; lia).
  destruct (2 * length (b :: bs) <? 8)%nat eqn:E8.
  - apply Nat.ltb_lt in E8.
    rewrite zfill_packed by exact Hb.
    replace (8 - 2 * length (b :: bs))%nat with (2 * (4 - length (b :: bs)))%nat by lia.
    rewrite fromhex_repeat0, fromhex_packed by exact Hb.
    rewrite length_app, repeat_length.
    replace (4 - length (b :: bs) + length (b :: bs))%nat with 4%nat by lia.
    replace (length (b :: bs) <=? 4)%nat with true by (symmetry; apply Nat.leb_le; lia).
    reflexivity.
  - apply Nat.ltb_ge in E8. rewrite fromhex_packed by exact Hb.
    destruct (length (b :: bs) =? 4)%nat eqn:E4.
    + apply Nat.eqb_eq in E4. rewrite E4. reflexivity.
    + apply Nat.eqb_neq in E4.
      replace (length (b :: bs) <=? 4)%nat with false by (symmetry; apply Nat.leb_gt; lia).
      reflexivity.
Qed.

Lemma password_pads_left_witness :
  bytes [0x12; 0x34] /\
  Cmd.password "1234" = Some [0x00; 0x00; 0x12; 0x34].
Proof.
  assert (B : bytes [0x12; 0x34]) by (repeat constructor; unfold is_byte; lia).
  split; [ exact B | ].
  exact (password_pads_left [0x12; 0x34] B).
Defined.

(** ** Reading tag memory *)

(** X19. [read_tag_memory] against a device that answers
    [BB 01 39 a b n d.. chk 7E], where [n] is the number of the bytes
    [d] and no byte before the last is [7E]: the read frame built from
    the arguments is written once and the spaced hexadecimal text of [d]
    is returned.  How many bytes come back is decided by byte 5 of the
    answer, not by the [length] argument; [chk] is not checked. *)
Theorem read_tag_memory_parses
        (fuel : nat) (access_password : string) (pwd_bytes : list Z)
        (membank start_addr length_ a b chk : Z) (d : list Z)
        (rest : list exchange) (w : World) (r : RFIDReader) :
  is_connected_of r = true ->
  Cmd.password access_password = Some pwd_bytes ->
  script w = Answer ([0xBB; 0x01; 0x39; a; b; Z.of_nat (length d)] ++ d ++ [chk; 0x7E])
             :: rest ->
  Forall (fun x => x <> 0x7E) ([a; b; Z.of_nat (length d)] ++ d ++ [chk]) ->
  (length d + 108 < fuel)%nat ->
  exists w',
    read_tag_memory fuel access_password membank start_addr length_ (mk_state w r)
    = Some (Return (Some (Fmt.hex_join d)), mk_state w' r)
    /\ written w' = written w ++ [Cmd.read_tag_memory pwd_bytes membank start_addr length_]
    /\ script w' = rest.
Proof.
  intros Hc Hp Hs Hn Hfuel.
  set (command := Cmd.read_tag_memory pwd_bytes membank start_addr length_).
  set (data := [0xBB; 0x01; 0x39; a; b; Z.of_nat (length d)] ++ d ++ [chk; 0x7E]) in *.
  assert (Hlen : length data = (length d + 8)%nat).
  { subst data. rewrite !length_app. cbn [length]. lia. }
  assert (Hu : upto_terminator data = data).
  { replace data with (([0xBB; 0x01; 0x39] ++ [a; b; Z.of_nat (length d)] ++ d ++ [chk])
                         ++ [0x7E]).
    - apply terminated_once. apply Forall_app. split; [ | exact Hn ].
      repeat (constructor; [ lia | ]). constructor.
    - subst data. cbn [app]. rewrite <- app_assoc. reflexivity. }
  exists (after_exchange w rest command data).
  split; [ | destruct (after_exchange_logs w rest command data) as (? & ? & _);
             split; assumption ].
  unfold read_tag_memory. is_connected_step (mk_state w r). rewrite Hc. cbn [negb].
  rewrite Hp. unfold try_except. fold command.
  rewrite (bind_run _ _ _ _ _
             (send_command_answer fuel command data rest w r Hc Hs
                ltac:(subst data; discriminate) ltac:(rewrite Hlen; lia))).
  rewrite Hu, Hlen.
  replace (8 <=? length d + 8)%nat with true by (symmetry; apply Nat.leb_le; lia).
  assert (H5 : at_ data 5 = Z.of_nat (length d)) by reflexivity.
  change (at_ data 0 =? 187) with true. change (at_ data 1 =? 1) with true.
  change (at_ data 2 =? 57) with true. cbn [andb]. rewrite H5.
  replace (7 + Z.of_nat (length d) <=? Z.of_nat (length d + 8)) with true
    by (symmetry; apply Z.leb_le; lia).
  rewrite Nat2Z.id.
  replace (slice 6 (6 + length d) data) with d; [ reflexivity | ].
  unfold slice. replace (6 + length d - 6)%nat with (length d + 0)%nat by lia.
  subst data. cbn [app skipn]. rewrite firstn_app_2. cbn [firstn]. rewrite app_nil_r.
  reflexivity.
Qed.

Lemma read_tag_memory_parses_witness :
  is_connected_of attached = true /\
  Cmd.password "" = Some [0; 0; 0; 0] /\
  Forall (fun x => x <> 0x7E)
         ([0x00; 0x04; Z.of_nat (length [0xAA%Z; 0xBB%Z])] ++ [0xAA; 0xBB] ++ [0x12]) /\
  exists w',
    read_tag_memory 111 "" 0x01 0x02 0x06
      (mk_state (bench [Answer ([0xBB; 0x01; 0x39; 0x00; 0x04;
                                 Z.of_nat (length [0xAA%Z; 0xBB%Z])]
                                  ++ [0xAA; 0xBB] ++ [0x12; 0x7E])]) attached)
    = Some (Return (Some (Fmt.hex_join [0xAA; 0xBB])), mk_state w' attached)
    /\ written w'
       = written (bench [Answer ([0xBB; 0x01; 0x39; 0x00; 0x04;
                                  Z.of_nat (length [0xAA%Z; 0xBB%Z])]
                                   ++ [0xAA; 0xBB] ++ [0x12; 0x7E])])
         ++ [Cmd.read_tag_memory [0; 0; 0; 0] 0x01 0x02 0x06]
    /\ script w' = [].
Proof.
  assert (N : Forall (fun x => x <> 0x7E)
                     ([0x00; 0x04; Z.of_nat (length [0xAA%Z; 0xBB%Z])]
                        ++ [0xAA; 0xBB] ++ [0x12]))
    by (repeat constructor; cbn; lia).
  assert (F : (length [0xAA%Z; 0xBB%Z] + 108 < 111)%nat) by (cbn; lia).
  split; [ reflexivity | ]. split; [ reflexivity | ]. split; [ exact N | ].
  exact (read_tag_memory_parses 111 "" [0; 0; 0; 0] 0x01 0x02 0x06 0x00 0x04 0x12
           [0xAA; 0xBB] []
           (bench [Answer ([0xBB; 0x01; 0x39; 0x00; 0x04;
                            Z.of_nat (length [0xAA%Z; 0xBB%Z])]
                             ++ [0xAA; 0xBB] ++ [0x12; 0x7E])]) attached
           eq_refl eq_refl eq_refl N F).
Defined.

(** ** Transmit power *)

(** X20. [set_power] with one of the names of [POWER_COMMANDS], against
    a device that acknowledges with [SUCCESS_RESPONSE] and then answers
    the gain query with [BB 01 B7 00 02 hi lo chk 7E], none of [hi],
    [lo] and [chk] being [7E]: the power frame
    and the gain query are written, in this order, [True] is returned
    and the reader caches the gain [256 hi + lo] read back from the
    device; [current_power] is left as it was. *)
Theorem set_power_reads_gain_back
        (fuel : nat) (power_level : string) (command : list Z) (hi lo chk : Z)
        (rest : list exchange) (w : World) (r : RFIDReader) :
  is_connected_of r = true ->
  Cmd.lookup power_level Cmd.POWER_COMMANDS = Some command ->
  script w = Answer Cmd.SUCCESS_RESPONSE
             :: Answer [0xBB; 0x01; 0xB7; 0x00; 0x02; hi; lo; chk; 0x7E] :: rest ->
  is_byte hi -> is_byte lo ->
  hi <> 0x7E -> lo <> 0x7E -> chk <> 0x7E ->
  (109 < fuel)%nat ->
  exists w',
    set_power fuel power_level (mk_state w r)
    = Some (Return true, mk_state w' (with_gain r (Some (256 * hi + lo))))
    /\ written w' = written w ++ [command; Cmd.get_gain]
    /\ script w' = rest
    /\ current_power (with_gain r (Some (256 * hi + lo))) = current_power r.
Proof.
  intros Hc Hk Hs Bh Bl Hh Hl Hchk Hfuel.
  unfold set_power. is_connected_step (mk_state w r). rewrite Hc. cbn [negb].
  rewrite Hk. unfold try_except.
  rewrite (bind_run _ _ _ _ _
             (send_command_answer fuel command Cmd.SUCCESS_RESPONSE _ w r Hc Hs
                ltac:(discriminate) ltac:(cbn [length Cmd.SUCCESS_RESPONSE]; lia))).
  unfold Cmd.SUCCESS_RESPONSE.
  rewrite ack_exchange by lia.
  change (upto_terminator [187; 1; 182; 0; 1; 0; 184; 126])
    with [187; 1; 182; 0; 1; 0; 184; 126].
  match goal with
  | |- context [list_eq_dec ?d ?x ?y] => destruct (list_eq_dec d x y) as [_ | N]
  end; [ | congruence ].
  unfold get_current_gain.
  rewrite (bind_run _ _ _ _ _
             (gain_query_answered fuel (connect fuel) hi lo chk rest
                (set_in_buffer
                   (log_write
                      (set_script w (Answer [0xBB; 0x01; 0xB7; 0x00; 0x02; hi; lo; chk; 0x7E]
                                     :: rest)) command) [])
                r Hc eq_refl Hh Hl Hchk Hfuel)).
  rewrite lor_shiftl_8 by (unfold is_byte in *; lia).
  eexists. split; [ reflexivity | ].
  destruct (after_exchange_logs
              (set_in_buffer
                 (log_write
                    (set_script w (Answer [0xBB; 0x01; 0xB7; 0x00; 0x02; hi; lo; chk; 0x7E]
                                   :: rest)) command) [])
              rest Cmd.get_gain [0xBB; 0x01; 0xB7; 0x00; 0x02; hi; lo; chk; 0x7E])
    as (Hw & Hsc & _).
  rewrite Hw, Hsc. destruct w, r. cbn. rewrite <- app_assoc. repeat split.
Qed.

Lemma set_power_reads_gain_back_witness :
  is_connected_of attached = true /\
  Cmd.lookup "17 dBm (1m)" Cmd.POWER_COMMANDS
  = Some [0xBB; 0x00; 0xB6; 0x00; 0x02; 0x06; 0xA4; 0x62; 0x7E] /\
  is_byte 0x06 /\ is_byte 0xA4 /\ 0x06 <> 0x7E /\ 0xA4 <> 0x7E /\ 0x64 <> 0x7E /\
  (109 < 110)%nat /\
  exists w',
    set_power 110 "17 dBm (1m)"
      (mk_state (bench [Answer Cmd.SUCCESS_RESPONSE;
                        Answer [0xBB; 0x01; 0xB7; 0x00; 0x02; 0x06; 0xA4; 0x64; 0x7E]])
                attached)
    = Some (Return true, mk_state w' (with_gain attached (Some (256 * 0x06 + 0xA4))))
    /\ written w'
       = written (bench [Answer Cmd.SUCCESS_RESPONSE;
                         Answer [0xBB; 0x01; 0xB7; 0x00; 0x02; 0x06; 0xA4; 0x64; 0x7E]])
         ++ [[0xBB; 0x00; 0xB6; 0x00; 0x02; 0x06; 0xA4; 0x62; 0x7E]; Cmd.get_gain]
    /\ script w' = []
    /\ current_power (with_gain attached (Some (256 * 0x06 + 0xA4)))
       = current_power attached.
Proof.
  assert (B1 : is_byte 0x06) by (unfold is_byte; lia).
  assert (B2 : is_byte 0xA4) by (unfold is_byte; lia).
  assert (N1 : 0x06 <> 0x7E) by lia.
  assert (N2 : 0xA4 <> 0x7E) by lia.
  assert (N3 : 0x64 <> 0x7E) by lia.
  assert (F : (109 < 110)%nat) by lia.
  split; [ reflexivity | ]. split; [ reflexivity | ].
  repeat (split; [ assumption | ]).
  exact (set_power_reads_gain_back 110 "17 dBm (1m)" _ 0x06 0xA4 0x64 []
           (bench [Answer Cmd.SUCCESS_RESPONSE;
                   Answer [0xBB; 0x01; 0xB7; 0x00; 0x02; 0x06; 0xA4; 0x64; 0x7E]])
           attached eq_refl eq_refl eq_refl B1 B2 N1 N2 N3 F).
Defined.

(** X21. [set_power] with a name that is not a key of [POWER_COMMANDS]
    returns [False] and writes nothing.  With a known name, against a
    device whose answer, up to its first [7E], is not exactly
    [SUCCESS_RESPONSE], it returns [False] after the one write of the
    power frame: the gain is not queried and the cached gain is kept. *)
Theorem set_power_refused
        (fuel : nat) (power_level : string) (w : World) (r : RFIDReader) :
  is_connected_of r = true ->
  (Cmd.lookup power_level Cmd.POWER_COMMANDS = None ->
   set_power fuel power_level (mk_state w r) = Some (Return false, mk_state w r))
  /\ (forall command data rest,
        Cmd.lookup power_level Cmd.POWER_COMMANDS = Some command ->
        script w = Answer data :: rest -> data <> [] ->
        upto_terminator data <> Cmd.SUCCESS_RESPONSE ->
        (length data + 100 < fuel)%nat ->
        exists w',
          set_power fuel power_level (mk_state w r) = Some (Return false, mk_state w' r)
          /\ written w' = written w ++ [command]
          /\ script w' = rest).
Proof.
  intro Hc. split.
  - intro Hk. unfold set_power. is_connected_step (mk_state w r). rewrite Hc. cbn [negb].
    rewrite Hk. reflexivity.
  - intros command data rest Hk Hs Hd Hne Hfuel.
    exists (after_exchange w rest command data).
    split; [ | destruct (after_exchange_logs w rest command data) as (? & ? & _);
               split; assumption ].
    unfold set_power. is_connected_step (mk_state w r). rewrite Hc. cbn [negb].
    rewrite Hk. unfold try_except.
    rewrite (bind_run _ _ _ _ _
               (send_command_answer fuel command data rest w r Hc Hs Hd Hfuel)).
    destruct (list_eq_dec Z.eq_dec (upto_terminator data) Cmd.SUCCESS_RESPONSE)
      as [E | _]; [ contradiction | reflexivity ].
Qed.

Lemma set_power_refused_witness :
  is_connected_of attached = true /\
  Cmd.lookup "30 dBm" Cmd.POWER_COMMANDS = None /\
  set_power 101 "30 dBm" (mk_state (bench []) attached)
  = Some (Return false, mk_state (bench []) attached).
Proof.
  split; [ reflexivity | ]. split; [ reflexivity | ].
  exact (proj1 (set_power_refused 101 "30 dBm" (bench []) attached eq_refl) eq_refl).
Defined.

(** ** The command check of the debug page, on a wrong checksum *)

(** X22. For a command of at least seven bytes that starts with [BB]
    and ends in [7E], typed as spaced hexadecimal, [validate_command]
    accepts it exactly when its second-to-last byte is the sum of the
    bytes between the header and that byte, modulo 256; otherwise the
    message carries the computed and the received checksum. *)
Theorem validate_command_checks_checksum (pre : list Z) (c : Z) :
  bytes pre -> (5 <= length pre)%nat -> at_ pre 0 = 0xBB -> is_byte c ->
  Debug.validate_command (Fmt.hex_join (pre ++ [c; 0x7E]))
  = if c =? sum (skipn 1 pre) mod 256 then (true, Debug.Valid)
    else (false, Debug.BadChecksum (sum (skipn 1 pre) mod 256) c).
Proof.
  intros Hb Hl H0 Hc.
  assert (Hf : bytes (pre ++ [c; 0x7E])).
  { apply Forall_app. split; [ exact Hb | ].
    constructor; [ exact Hc | ]. constructor; [ unfold is_byte; lia | constructor ]. }
  unfold Debug.validate_command.
  rewrite remove_spaces_hex_join, length_packed, fromhex_packed by exact Hf.
  rewrite (Nat.mul_comm 2).
  rewrite Nat.Div0.mod_mul. cbn [Nat.eqb negb].
  rewrite length_app. cbn [length].
  rewrite (ltb_false_of_le 7) by lia.
  replace (length pre + 2 - 1)%nat with (length pre + 1)%nat by lia.
  replace (length pre + 2 - 2)%nat with (length pre + 0)%nat by lia.
  unfold at_ in *. rewrite app_nth1 by lia. rewrite !app_nth2_plus. cbn [nth].
  rewrite H0. cbn [Z.eqb Pos.eqb negb].
  replace (slice 1 (length pre + 0) (pre ++ [c; 0x7E])) with (skipn 1 pre).
  - rewrite land_255, (Z.eqb_sym c). destruct (sum (skipn 1 pre) mod 256 =? c); reflexivity.
  - unfold slice. destruct pre as [| x p]; [ cbn in Hl; lia | ].
    cbn [length app skipn]. replace (S (length p) + 0 - 1)%nat with (length p) by lia.
    rewrite firstn_app, Nat.sub_diag, firstn_all. cbn [firstn].
    rewrite app_nil_r. reflexivity.
Qed.

Lemma validate_command_checks_checksum_witness :
  bytes [0xBB; 0x00; 0x12; 0x00; 0x01; 0x01] /\ is_byte 0x15 /\
  Debug.validate_command "BB 00 12 00 01 01 15 7E" = (false, Debug.BadChecksum 0x14 0x15).
Proof.
  assert (B : bytes [0xBB; 0x00; 0x12; 0x00; 0x01; 0x01])
    by (repeat constructor; unfold is_byte; lia).
  assert (C : is_byte 0x15) by (unfold is_byte; lia).
  assert (L : (5 <= length [0xBB%Z; 0x00%Z; 0x12%Z; 0x00%Z; 0x01%Z; 0x01%Z])%nat)
    by (cbn; lia).
  split; [ exact B | ]. split; [ exact C | ].
  exact (validate_command_checks_checksum [0xBB; 0x00; 0x12; 0x00; 0x01; 0x01] 0x15
           B L eq_refl C).
Defined.

(** ** Opening a port *)

Lemma list_devices_run (s : state) :
  list_devices s = Some (Return (comports (world s)), s).
Proof. reflexivity. Qed.

Lemma sleep_run (ms : Z) (s : state) :
  sleep ms s = Some (Return tt, mk_state (advance (world s) ms) (self s)).
Proof. reflexivity. Qed.

Lemma disconnect_without_handle (fuel : nat) (s : state) :
  ser (self s) = None -> disconnect fuel s = Some (Return true, s).
Proof.
  intro H. unfold disconnect. rewrite (bind_run _ _ _ _ _ (get_self_run s)), H. reflexivity.
Qed.

Lemma Serial_run (p : string) (s : state) :
  existsb (String.eqb p) (busy (world s)) = false ->
  Serial_ p s = Some (Return (mk_serial p true), mk_state (log_open (world s) p) (self s)).
Proof.
  intro H. unfold Serial_. rewrite (bind_run _ _ _ _ _ (eq_refl : get_world s = _)), H.
  reflexivity.
Qed.

(** [connect] from a reader without handle, on a port that opens, with
    a device that answers the gain query. *)
Lemma connect_answered
      (fuel : nat) (p : string) (hi lo chk : Z) (rest : list exchange)
      (w : World) (r : RFIDReader) :
  ser r = None ->
  existsb (String.eqb p) (map fst (comports w)) = true ->
  existsb (String.eqb p) (busy w) = false ->
  script w = Answer [0xBB; 0x01; 0xB7; 0x00; 0x02; hi; lo; chk; 0x7E] :: rest ->
  is_byte hi -> is_byte lo ->
  hi <> 0x7E -> lo <> 0x7E -> chk <> 0x7E ->
  (110 < fuel)%nat ->
  connect fuel p (mk_state w r)
  = Some (Return true,
          mk_state (after_exchange (advance (log_open w p) 500) rest Cmd.get_gain
                      [0xBB; 0x01; 0xB7; 0x00; 0x02; hi; lo; chk; 0x7E])
                   (with_gain (with_last_port (with_ser r (Some (mk_serial p true)))
                                              (Some p))
                              (Some (256 * hi + lo)))).
Proof.
  intros Hser Hlisted Hfree Hs Bh Bl Hh Hl Hk Hfuel.
  destruct fuel as [| fuel']; [ lia | ]. cbn [connect].
  rewrite (bind_run _ _ _ _ _ (list_devices_run _)). cbn [world].
  rewrite Hlisted. cbn [negb].
  rewrite (bind_run _ _ _ _ _ (disconnect_without_handle _ (mk_state w r) Hser)).
  unfold try_except at 1.
  rewrite (bind_run _ _ _ _ _ (Serial_run p (mk_state w r) Hfree)).
  rewrite (bind_run _ _ _ _ _ (modify_self_run _ _)).
  rewrite (bind_run _ _ _ _ _ (modify_self_run _ _)).
  rewrite (bind_run _ _ _ _ _ (sleep_run _ _)). cbn [world self].
  set (r1 := with_last_port (with_ser r (Some (mk_serial p true))) (Some p)).
  set (w1 := advance (log_open w p) 500).
  assert (Hc1 : is_connected_of r1 = true) by reflexivity.
  assert (Hs1 : script w1 = Answer [0xBB; 0x01; 0xB7; 0x00; 0x02; hi; lo; chk; 0x7E] :: rest)
    by exact Hs.
  assert (Eg : try_except (_ <- get_current_gain_with (S fuel') (connect fuel') ;; ret tt)
                          (fun _ => ret tt) (mk_state w1 r1)
               = Some (Return tt,
                       mk_state (after_exchange w1 rest Cmd.get_gain
                                   [0xBB; 0x01; 0xB7; 0x00; 0x02; hi; lo; chk; 0x7E])
                                (with_gain r1 (Some (256 * hi + lo))))).
  { unfold try_except.
    rewrite (bind_run _ _ _ _ _
               (gain_query_answered (S fuel') (connect fuel') hi lo chk rest w1 r1
                  Hc1 Hs1 Hh Hl Hk ltac:(lia))).
    rewrite lor_shiftl_8 by (unfold is_byte in *; lia). reflexivity. }
  rewrite (bind_run _ _ _ _ _ Eg). reflexivity.
Qed.

(** X23. [connect] on a reader that holds no handle, to a port that is
    listed and can be opened, with a device that answers the gain query
    by [BB 01 B7 00 02 hi lo chk 7E], none of [hi], [lo] and [chk]
    being [7E]: the port is opened, half a second is waited, the gain
    query is written once, and [True] is returned with the handle, the
    port name as last port and the gain [256 hi + lo] recorded. *)
Theorem connect_opens_and_reads_gain
        (fuel : nat) (p : string) (hi lo chk : Z) (rest : list exchange)
        (w : World) (r : RFIDReader) :
  ser r = None ->
  existsb (String.eqb p) (map fst (comports w)) = true ->
  existsb (String.eqb p) (busy w) = false ->
  script w = Answer [0xBB; 0x01; 0xB7; 0x00; 0x02; hi; lo; chk; 0x7E] :: rest ->
  is_byte hi -> is_byte lo ->
  hi <> 0x7E -> lo <> 0x7E -> chk <> 0x7E ->
  (110 < fuel)%nat ->
  exists w',
    connect fuel p (mk_state w r)
    = Some (Return true,
            mk_state w' (with_gain (with_last_port (with_ser r (Some (mk_serial p true)))
                                                   (Some p))
                                   (Some (256 * hi + lo))))
    /\ opened w' = opened w ++ [p]
    /\ written w' = written w ++ [Cmd.get_gain]
    /\ clock_ms w' = clock_ms w + 500
    /\ script w' = rest.
Proof.
  intros Hser Hlisted Hfree Hs Bh Bl Hh Hl Hk Hfuel.
  rewrite (connect_answered fuel p hi lo chk rest w r) by assumption.
  eexists. split; [ reflexivity | ].
  destruct (after_exchange_logs (advance (log_open w p) 500) rest Cmd.get_gain
              [0xBB; 0x01; 0xB7; 0x00; 0x02; hi; lo; chk; 0x7E]) as (Hw & Hsc & Ho & _).
  rewrite Hw, Hsc, Ho. destruct w. cbn. repeat split.
  apply Z.eqb_neq in Hh, Hl, Hk.
  unfold after_exchange, has_terminator. cbn [existsb].
  rewrite (Z.eqb_sym 126 hi), (Z.eqb_sym 126 lo), (Z.eqb_sym 126 chk), Hh, Hl, Hk.
  reflexivity.
Qed.

Lemma connect_opens_and_reads_gain_witness :
  existsb (String.eqb "COM3")
          (map fst (comports (bench [Answer [0xBB; 0x01; 0xB7; 0x00; 0x02;
                                             0x06; 0xA4; 0x64; 0x7E]]))) = true /\
  is_byte 0x06 /\ is_byte 0xA4 /\ 0x06 <> 0x7E /\ 0xA4 <> 0x7E /\ 0x64 <> 0x7E /\
  (110 < 111)%nat /\
  exists w',
    connect 111 "COM3"
      (mk_state (bench [Answer [0xBB; 0x01; 0xB7; 0x00; 0x02; 0x06; 0xA4; 0x64; 0x7E]])
                (mk_reader None false false None None 0x01 None None))
    = Some (Return true,
            mk_state w'
              (with_gain
                 (with_last_port
                    (with_ser (mk_reader None false false None None 0x01 None None)
                              (Some (mk_serial "COM3" true)))
                    (Some "COM3"%string))
                 (Some (256 * 0x06 + 0xA4))))
    /\ opened w'
       = opened (bench [Answer [0xBB; 0x01; 0xB7; 0x00; 0x02; 0x06; 0xA4; 0x64; 0x7E]])
         ++ ["COM3"%string]
    /\ written w'
       = written (bench [Answer [0xBB; 0x01; 0xB7; 0x00; 0x02; 0x06; 0xA4; 0x64; 0x7E]])
         ++ [Cmd.get_gain]
    /\ clock_ms w'
       = clock_ms (bench [Answer [0xBB; 0x01; 0xB7; 0x00; 0x02; 0x06; 0xA4; 0x64; 0x7E]])
         + 500
    /\ script w' = [].
Proof.
  assert (B1 : is_byte 0x06) by (unfold is_byte; lia).
  assert (B2 : is_byte 0xA4) by (unfold is_byte; lia).
  assert (N1 : 0x06 <> 0x7E) by lia.
  assert (N2 : 0xA4 <> 0x7E) by lia.
  assert (N3 : 0x64 <> 0x7E) by lia.
  assert (F : (110 < 111)%nat) by lia.
  split; [ reflexivity | ].
  repeat (split; [ assumption | ]).
  exact (connect_opens_and_reads_gain 111 "COM3" 0x06 0xA4 0x64 []
           (bench [Answer [0xBB; 0x01; 0xB7; 0x00; 0x02; 0x06; 0xA4; 0x64; 0x7E]])
           (mk_reader None false false None None 0x01 None None)
           eq_refl eq_refl eq_refl eq_refl B1 B2 N1 N2 N3 F).
Defined.

(** X24. [connect] to a port that [list_devices] does not list returns
    [False] and changes nothing: a connection that was open stays open.
    [connect] to a listed port that cannot be opened, on a reader that
    holds an idle connection, returns [False] after it closed that
    connection: the reader is left without handle, nothing was opened
    or written, and the last port is kept. *)
Theorem connect_failures (fuel : nat) (p : string) (w : World) (r : RFIDReader) :
  (0 < fuel)%nat ->
  (existsb (String.eqb p) (map fst (comports w)) = false ->
   connect fuel p (mk_state w r) = Some (Return false, mk_state w r))
  /\ (forall hd,
        existsb (String.eqb p) (map fst (comports w)) = true ->
        existsb (String.eqb p) (busy w) = true ->
        ser r = Some hd -> group_read_active r = false -> close_fails w = false ->
        connect fuel p (mk_state w r)
        = Some (Return false, mk_state (log_close w (port hd)) (with_ser r None))).
Proof.
  intro Hfuel. destruct fuel as [| fuel']; [ lia | ]. cbn [connect]. split.
  - intro Hno. rewrite (bind_run _ _ _ _ _ (list_devices_run _)). cbn [world].
    rewrite Hno. reflexivity.
  - intros hd Hlisted Hbusy Hser Hidle Hclose.
    rewrite (bind_run _ _ _ _ _ (list_devices_run _)). cbn [world].
    rewrite Hlisted. cbn [negb].
    assert (Ed : disconnect (S fuel') (mk_state w r)
                 = Some (Return true, mk_state (log_close w (port hd)) (with_ser r None))).
    { unfold disconnect. rewrite (bind_run _ _ _ _ _ (get_self_run _)). cbn [self].
      rewrite Hser, Hidle.
      destruct w as [cp bz cf sc ib wr op cl ck].
      destruct r as [h a t pw g m sp lp]. cbn in Hser, Hclose. subst h cf.
      run_goal. reflexivity. }
    rewrite (bind_run _ _ _ _ _ Ed).
    unfold try_except, bind at 1, Serial_.
    rewrite (bind_run _ _ _ _ _ (eq_refl : get_world _ = _)). cbn [world busy log_close].
    rewrite Hbusy. destruct r. reflexivity.
Qed.

Lemma connect_failures_witness :
  (0 < 101)%nat /\
  existsb (String.eqb "COM9") (map fst (comports (bench []))) = false /\
  connect 101 "COM9" (mk_state (bench []) attached)
  = Some (Return false, mk_state (bench []) attached).
Proof.
  assert (F : (0 < 101)%nat) by lia.
  split; [ exact F | ]. split; [ reflexivity | ].
  exact (proj1 (connect_failures 101 "COM9" (bench []) attached F) eq_refl).
Defined.

(** ** No report without its bytes *)

Lemma at_firstn (n i : nat) (l : list Z) : (i < n)%nat -> at_ (firstn n l) i = at_ l i.
Proof.
  intro H. unfold at_. rewrite nth_firstn. apply Nat.ltb_lt in H. rewrite H. reflexivity.
Qed.

Lemma genuine_later (c stream : list Z) (e : event) :
  genuine stream e -> genuine (c ++ stream) e.
Proof.
  destruct e as [info | ]; cbn [genuine].
  - intros (pre & packet & post & -> & H). exists (c ++ pre), packet, post.
    split; [ rewrite <- app_assoc; reflexivity | exact H ].
  - intros (pre & packet & post & -> & H). exists (c ++ pre), packet, post.
    split; [ rewrite <- app_assoc; reflexivity | exact H ].
Qed.

Lemma handler_scan_sound (buf buf' : list Z) (out : list event) :
  SerialHandler.scan buf = SerialHandler.Continue buf' out ->
  exists c, buf = c ++ buf' /\ Forall (genuine buf) out.
Proof.
  unfold SerialHandler.scan.
  destruct (length buf <? 1)%nat eqn:L1; [ discriminate | ]. apply Nat.ltb_ge in L1.
  assert (Htl : buf = firstn 1 buf ++ tl buf)
    by (destruct buf; [ cbn in L1; lia | reflexivity ]).
  destruct (negb (at_ buf 0 =? 187)) eqn:H0.
  { intro E. injection E as <- <-. exists (firstn 1 buf). split; [ exact Htl | constructor ]. }
  apply negb_false_iff, Z.eqb_eq in H0.
  destruct (length buf <? 7)%nat eqn:L7; [ discriminate | ].
  destruct ((at_ buf 1 =? 1) && (at_ buf 2 =? 255)) eqn:Herr.
  { destruct (8 <=? length buf)%nat eqn:L8; [ | discriminate ]. apply Nat.leb_le in L8.
    apply andb_true_iff in Herr. destruct Herr as [H1 H2]. apply Z.eqb_eq in H1, H2.
    intro E. injection E as <- <-.
    exists (firstn 8 buf). split; [ symmetry; apply firstn_skipn | ].
    constructor; [ | constructor ].
    exists [], (firstn 8 buf), (skipn 8 buf).
    split; [ symmetry; apply (firstn_skipn 8 buf) | ].
    split; [ rewrite length_firstn; lia | ].
    rewrite !at_firstn by lia. repeat split; assumption. }
  destruct ((at_ buf 1 =? 2) && ((at_ buf 2 =? 34) || (at_ buf 2 =? 39))) eqn:Hcard.
  2:{ intro E. injection E as <- <-. exists (firstn 1 buf).
      split; [ exact Htl | constructor ]. }
  destruct (length buf <? 24)%nat eqn:L24; [ discriminate | ]. apply Nat.ltb_ge in L24.
  destruct (negb (at_ buf 23 =? 126)) eqn:H23.
  { intro E. injection E as <- <-. exists (firstn 1 buf).
    split; [ exact Htl | constructor ]. }
  apply negb_false_iff, Z.eqb_eq in H23.
  cbv zeta.
  destruct (negb (Z.lor _ _ =? 17)) eqn:Hlen.
  { intro E. injection E as <- <-. exists (firstn 24 buf).
    split; [ symmetry; apply firstn_skipn | constructor ]. }
  destruct (negb (Z.land _ _ =? _)) eqn:Hsum; intro E; injection E as <- <-;
    exists (firstn 24 buf); (split; [ symmetry; apply firstn_skipn | ]);
    [ constructor | ].
  constructor; [ | constructor ].
  exists [], (firstn 24 buf), (skipn 24 buf).
  split; [ symmetry; apply (firstn_skipn 24 buf) | ].
  assert (Hl : length (firstn 24 buf) = 24%nat) by (rewrite length_firstn; lia).
  split; [ exact Hl | ].
  apply andb_true_iff in Hcard. destruct Hcard as [H1 H2]. apply Z.eqb_eq in H1.
  apply orb_true_iff in H2. rewrite !Z.eqb_eq in H2.
  apply negb_false_iff in Hlen, Hsum.
  split; [ | split; [ unfold accepted; rewrite Hlen, Hsum; reflexivity | reflexivity ] ].
  unfold packet_head. rewrite Hl, !at_firstn by lia.
  repeat split; try assumption. lia.
Qed.

Lemma handler_inner_loop_sound (fuel : nat) :
  forall (buf b : list Z) (evs : list event),
    SerialHandler.inner_loop fuel buf = Some (b, evs) ->
    (exists consumed, buf = consumed ++ b) /\ Forall (genuine buf) evs.
Proof.
  induction fuel as [| fuel IH]; intros buf b evs E; [ discriminate E | ].
  cbn [SerialHandler.inner_loop] in E.
  destruct (SerialHandler.scan buf) as [| b1 out] eqn:Es.
  - injection E as <- <-. split; [ exists []; reflexivity | constructor ].
  - destruct (SerialHandler.inner_loop fuel b1) as [[b2 evs2] | ] eqn:E1; [ | discriminate E ].
    injection E as <- <-.
    destruct (handler_scan_sound buf b1 out Es) as (c & Hc & Hout).
    destruct (IH b1 b2 evs2 E1) as ((consumed & Hcons) & Hevs).
    split.
    + exists (c ++ consumed). rewrite <- app_assoc, <- Hcons. exact Hc.
    + apply Forall_app. split; [ exact Hout | ].
      rewrite Hc. eapply Forall_impl; [ | exact Hevs ].
      intros e He. apply genuine_later. exact He.
Qed.

Lemma suppress_Forall (P : event -> Prop) (evs : list event) :
  Forall P evs -> forall logged, Forall P (suppress logged evs).
Proof.
  induction 1 as [| e evs He _ IH]; intro logged; [ constructor | ].
  destruct e as [info | ]; cbn [suppress].
  - constructor; [ exact He | apply IH ].
  - destruct logged; [ apply IH | constructor; [ exact He | apply IH ] ].
Qed.

(** X25. Neither decoder reports what the bytes do not hold.  Over any
    reads, every card that [SerialReadThread.run] or
    [_read_thread_func] reports is the decoding of 24 consecutive bytes
    of what was read, which start [BB 02 22] or [BB 02 27], end in [7E]
    and pass the length and checksum tests; every failure report stands
    for 8 consecutive bytes that start [BB 01 FF]; and the buffer left
    is the end of what was read. *)
Theorem reports_are_genuine (chunks : list (list Z)) :
  exists b evs st evs',
    SerialHandler.run [] chunks = Some (b, evs)
    /\ Core.read_thread_func Core.start chunks = Some (st, evs')
    /\ Core.buffer st = b
    /\ (exists consumed, concat chunks = consumed ++ b)
    /\ Forall (genuine (concat chunks)) evs
    /\ Forall (genuine (concat chunks)) evs'.
Proof.
  destruct (decoders_related chunks) as (b & evs & Eh & Ec).
  exists b, evs, (Core.mk_locals b (flag_after false evs)), (suppress false evs).
  split; [ exact Eh | ]. split; [ exact Ec | ]. split; [ reflexivity | ].
  rewrite handler_run_concat in Eh. unfold SerialHandler.on_data in Eh.
  assert (G : (exists consumed, concat chunks = consumed ++ b)
              /\ Forall (genuine (concat chunks)) evs).
  { destruct (concat chunks) as [| x data] eqn:Ed.
    - injection Eh as <- <-. split; [ exists []; reflexivity | constructor ].
    - cbn [app] in Eh. exact (handler_inner_loop_sound _ _ _ _ Eh). }
  destruct G as [Hc Hg]. split; [ exact Hc | ]. split; [ exact Hg | ].
  apply suppress_Forall. exact Hg.
Qed.

(** ** The gain query, unanswered *)

Lemma gain_attempt_wrong (fuel : nat) (reconnect : string -> M bool) (attempt : nat)
      (data : list Z) (rest : list exchange) (w : World) (r : RFIDReader) :
  is_connected_of r = true -> script w = Answer data :: rest -> data <> [] ->
  (9 <=? length (upto_terminator data))%nat
  && startswith (upto_terminator data) [0xBB; 0x01; 0xB7; 0x00; 0x02] = false ->
  (length data + 100 < fuel)%nat ->
  gain_attempt fuel reconnect attempt (mk_state w r)
  = Some (Return Next,
          mk_state (after_exchange (if (0 <? attempt)%nat then advance w 500 else w)
                                   rest Cmd.get_gain data) r).
Proof.
  intros Hc Hs Hd Hwrong Hfuel. unfold gain_attempt, try_except.
  assert (E0 : (if (0 <? attempt)%nat then sleep 500 else ret tt) (mk_state w r)
               = Some (Return tt,
                       mk_state (if (0 <? attempt)%nat then advance w 500 else w) r))
    by (destruct (0 <? attempt)%nat; reflexivity).
  rewrite (bind_run _ _ _ _ _ E0).
  is_connected_step (mk_state (if (0 <? attempt)%nat then advance w 500 else w) r).
  rewrite Hc. cbn [negb].
  assert (Hs' : script (if (0 <? attempt)%nat then advance w 500 else w)
                = Answer data :: rest)
    by (destruct (0 <? attempt)%nat; [ destruct w | ]; exact Hs).
  rewrite (bind_run _ _ _ _ _
             (send_command_answer fuel Cmd.get_gain data rest _ r Hc Hs' Hd Hfuel)).
  destruct (9 <=? length (upto_terminator data))%nat; [ | reflexivity ].
  cbn [andb] in Hwrong. rewrite Hwrong. reflexivity.
Qed.

(** X26. [get_current_gain] asks twice at most.  When the device
    answers the query twice with something that is not a gain frame
    (fewer than nine bytes up to the first [7E], or another header), the
    query has been written twice, half a second apart, [None] is
    returned, the cached gain is as it was and no port was opened. *)
Theorem get_current_gain_asks_twice
        (fuel : nat) (d1 d2 : list Z) (rest : list exchange) (w : World) (r : RFIDReader) :
  is_connected_of r = true ->
  script w = Answer d1 :: Answer d2 :: rest -> d1 <> [] -> d2 <> [] ->
  (9 <=? length (upto_terminator d1))%nat
  && startswith (upto_terminator d1) [0xBB; 0x01; 0xB7; 0x00; 0x02] = false ->
  (9 <=? length (upto_terminator d2))%nat
  && startswith (upto_terminator d2) [0xBB; 0x01; 0xB7; 0x00; 0x02] = false ->
  (length d1 + 100 < fuel)%nat -> (length d2 + 100 < fuel)%nat ->
  exists w',
    get_current_gain fuel (mk_state w r) = Some (Return None, mk_state w' r)
    /\ written w' = written w ++ [Cmd.get_gain; Cmd.get_gain]
    /\ script w' = rest
    /\ opened w' = opened w
    /\ clock_ms w + 500 <= clock_ms w'.
Proof.
  intros Hc Hs Hd1 Hd2 Hw1 Hw2 Hf1 Hf2.
  unfold get_current_gain, get_current_gain_with.
  is_connected_step (mk_state w r). rewrite Hc. cbn [negb gain_attempts].
  rewrite (bind_run _ _ _ _ _
             (gain_attempt_wrong fuel (connect fuel) 0 d1 _ w r Hc Hs Hd1 Hw1 Hf1)).
  cbn [Nat.ltb Nat.leb].
  set (w1 := after_exchange w (Answer d2 :: rest) Cmd.get_gain d1).
  destruct (after_exchange_logs w (Answer d2 :: rest) Cmd.get_gain d1)
    as (Hwr1 & Hsc1 & Hop1 & _). fold w1 in Hwr1, Hsc1, Hop1.
  rewrite (bind_run _ _ _ _ _
             (gain_attempt_wrong fuel (connect fuel) 1 d2 rest w1 r Hc Hsc1 Hd2 Hw2 Hf2)).
  cbn [Nat.ltb Nat.leb].
  eexists. split; [ reflexivity | ].
  destruct (after_exchange_logs (advance w1 500) rest Cmd.get_gain d2)
    as (Hwr2 & Hsc2 & Hop2 & _).
  rewrite Hwr2, Hsc2, Hop2.
  assert (Ha : written (advance w1 500) = written w1 /\ opened (advance w1 500) = opened w1)
    by (destruct w1; split; reflexivity).
  destruct Ha as [-> ->]. rewrite Hwr1, Hop1, <- app_assoc.
  repeat split.
  assert (C1 : clock_ms w <= clock_ms w1).
  { subst w1. unfold after_exchange. destruct w. destruct (has_terminator d1); cbn; lia. }
  assert (C2 : clock_ms w1 + 500
               <= clock_ms (after_exchange (advance w1 500) rest Cmd.get_gain d2)).
  { unfold after_exchange. destruct w1. destruct (has_terminator d2); cbn; lia. }
  lia.
Qed.

Lemma get_current_gain_asks_twice_witness :
  is_connected_of attached = true /\
  (length error_frame + 100 < 109)%nat /\
  exists w',
    get_current_gain 109 (mk_state (bench [Answer error_frame; Answer error_frame]) attached)
    = Some (Return None, mk_state w' attached)
    /\ written w'
       = written (bench [Answer error_frame; Answer error_frame])
         ++ [Cmd.get_gain; Cmd.get_gain]
    /\ script w' = []
    /\ opened w' = opened (bench [Answer error_frame; Answer error_frame])
    /\ clock_ms (bench [Answer error_frame; Answer error_frame]) + 500 <= clock_ms w'.
Proof.
  assert (N : error_frame <> []) by discriminate.
  assert (F : (length error_frame + 100 < 109)%nat) by (cbn; lia).
  split; [ reflexivity | ]. split; [ exact F | ].
  exact (get_current_gain_asks_twice 109 error_frame error_frame []
           (bench [Answer error_frame; Answer error_frame]) attached
           eq_refl eq_refl N N eq_refl eq_refl F F).
Defined.

(** ** Starting the continuous read *)

(** X27. [start_reading] on a connected reader that is not reading,
    against a device that answers anything at all: the start command is
    written once, the reading flag is raised, the thread is started and
    [True] is returned; what the device answered is not looked at.  A
    second call returns [True] and writes nothing. *)
Theorem start_reading_once
        (fuel : nat) (data : list Z) (rest : list exchange) (w : World) (r : RFIDReader) :
  is_connected_of r = true -> group_read_active r = false ->
  script w = Answer data :: rest -> data <> [] -> (length data + 100 < fuel)%nat ->
  exists w' r',
    start_reading fuel (mk_state w r) = Some (Return true, mk_state w' r')
    /\ r' = with_read_thread (with_group_read_active r true) true
    /\ written w' = written w ++ [Cmd.start_inventory]
    /\ script w' = rest
    /\ start_reading fuel (mk_state w' r') = Some (Return true, mk_state w' r').
Proof.
  intros Hc Hidle Hs Hd Hfuel.
  exists (after_exchange w rest Cmd.start_inventory data),
         (with_read_thread (with_group_read_active r true) true).
  destruct (after_exchange_logs w rest Cmd.start_inventory data) as (Hw & Hsc & _).
  split; [ | split; [ reflexivity | split; [ exact Hw | split; [ exact Hsc | ] ] ] ].
  - unfold start_reading. is_connected_step (mk_state w r). rewrite Hc. cbn [negb].
    rewrite (bind_run _ _ _ _ _ (get_self_run _)). cbn [self]. rewrite Hidle.
    unfold try_except.
    rewrite (bind_run _ _ _ _ _
               (send_command_answer fuel Cmd.start_inventory data rest w r Hc Hs Hd Hfuel)).
    reflexivity.
  - unfold start_reading.
    match goal with |- context [bind is_connected ?k ?s] =>
      rewrite (bind_run is_connected k s s _ (is_connected_run s))
    end.
    cbn [self]. destruct r as [[[pt [ | ]] | ] a t pw g m sp lp]; try discriminate Hc.
    reflexivity.
Qed.

Lemma start_reading_once_witness :
  is_connected_of attached = true /\ group_read_active attached = false /\
  (length error_frame + 100 < 109)%nat /\
  exists w' r',
    start_reading 109 (mk_state (bench [Answer error_frame]) attached)
    = Some (Return true, mk_state w' r')
    /\ r' = with_read_thread (with_group_read_active attached true) true
    /\ written w' = written (bench [Answer error_frame]) ++ [Cmd.start_inventory]
    /\ script w' = []
    /\ start_reading 109 (mk_state w' r') = Some (Return true, mk_state w' r').
Proof.
  assert (N : error_frame <> []) by discriminate.
  assert (F : (length error_frame + 100 < 109)%nat) by (cbn; lia).
  split; [ reflexivity | ]. split; [ reflexivity | ]. split; [ exact F | ].
  exact (start_reading_once 109 error_frame [] (bench [Answer error_frame]) attached
           eq_refl eq_refl eq_refl N F).
Defined.

(** ** A single read without a card *)

(** X28. [read_card_once] against a device whose answer, up to its
    first [7E], is shorter than 22 bytes or does not start with
    [BB 02 22] (the error notification, say): [None] is returned after
    the one write of the read command; the command is not sent again
    and the reader's fields are as they were. *)
Theorem read_card_once_no_card
        (fuel : nat) (data : list Z) (rest : list exchange) (w : World) (r : RFIDReader) :
  is_connected_of r = true ->
  script w = Answer data :: rest -> data <> [] ->
  (22 <=? length (upto_terminator data))%nat
  && startswith (upto_terminator data) [0xBB; 0x02; 0x22] = false ->
  (length data + 100 < fuel)%nat ->
  exists w',
    read_card_once fuel (mk_state w r) = Some (Return None, mk_state w' r)
    /\ written w' = written w ++ [Cmd.read_once]
    /\ script w' = rest.
Proof.
  intros Hc Hs Hd Hno Hfuel.
  exists (after_exchange w rest Cmd.read_once data).
  split; [ | destruct (after_exchange_logs w rest Cmd.read_once data) as (? & ? & _);
             split; assumption ].
  unfold read_card_once. is_connected_step (mk_state w r). rewrite Hc. cbn [negb].
  unfold try_except.
  rewrite (bind_run _ _ _ _ _
             (send_command_answer fuel Cmd.read_once data rest w r Hc Hs Hd Hfuel)).
  destruct (upto_terminator data) as [| x resp] eqn:Er; [ reflexivity | ].
  destruct (length (x :: resp) <? 8)%nat; [ reflexivity | ].
  destruct (startswith (x :: resp) [0xBB; 0x02; 0x22]); [ | reflexivity ].
  rewrite andb_true_r in Hno. apply Nat.leb_gt in Hno.
  replace (length (x :: resp) <? 22)%nat with true by (symmetry; apply Nat.ltb_lt; exact Hno).
  reflexivity.
Qed.

Lemma read_card_once_no_card_witness :
  is_connected_of attached = true /\
  (length error_frame + 100 < 109)%nat /\
  exists w',
    read_card_once 109 (mk_state (bench [Answer error_frame]) attached)
    = Some (Return None, mk_state w' attached)
    /\ written w' = written (bench [Answer error_frame]) ++ [Cmd.read_once]
    /\ script w' = [].
Proof.
  assert (N : error_frame <> []) by discriminate.
  assert (F : (length error_frame + 100 < 109)%nat) by (cbn; lia).
  split; [ reflexivity | ]. split; [ exact F | ].
  exact (read_card_once_no_card 109 error_frame [] (bench [Answer error_frame]) attached
           eq_refl eq_refl N eq_refl F).
Defined.

(** ** A Select mask without its mode *)

Lemma select_mode_not_acknowledged (fuel : nat) (mode : Z) (data : list Z)
      (rest : list exchange) (w : World) (r : RFIDReader) :
  is_connected_of r = true -> is_byte mode ->
  script w = Answer data :: rest -> data <> [] ->
  at_ (upto_terminator data) 2 <> 0x12 ->
  (length data + 100 < fuel)%nat ->
  set_select_mode fuel mode (mk_state w r)
  = Some (Return false, mk_state (after_exchange w rest (Cmd.select_mode mode) data) r).
Proof.
  intros Hc Hm Hs Hd Hno Hfuel. unfold set_select_mode.
  is_connected_step (mk_state w r). rewrite Hc. cbn [negb].
  assert (R : (0 <=? mode) && (mode <? 256) = true).
  { unfold is_byte in Hm. apply andb_true_intro. split; [ apply Z.leb_le | apply Z.ltb_lt ]; lia. }
  rewrite R. cbn [negb]. unfold try_except.
  rewrite (bind_run _ _ _ _ _
             (send_command_answer fuel (Cmd.select_mode mode) data rest w r Hc Hs Hd Hfuel)).
  apply Z.eqb_neq in Hno. rewrite Hno.
  rewrite !andb_false_r. cbn [andb]. reflexivity.
Qed.

(** X29. [set_select_params] does not look at what its call of
    [set_select_mode] returns.  With the [epc] text of a decoded packet,
    against a device that acknowledges the mask command and then answers
    the mode command with something else (a frame whose command byte is
    not [12]), it returns [True] with the mask text recorded, while the
    recorded Select mode stays what it was. *)
Theorem select_mask_without_mode
        (fuel : nat) (packet d2 : list Z) (chk1 : Z) (rest : list exchange)
        (w : World) (r : RFIDReader) :
  is_connected_of r = true ->
  bytes packet -> (20 <= length packet)%nat ->
  script w = Answer [0xBB; 0x01; 0x0C; 0x00; 0x01; 0x00; chk1; 0x7E]
             :: Answer d2 :: rest ->
  chk1 <> 0x7E -> d2 <> [] -> at_ (upto_terminator d2) 2 <> 0x12 ->
  (108 < fuel)%nat -> (length d2 + 100 < fuel)%nat ->
  exists w' r',
    set_select_params fuel (Some (epc (card_info_of packet))) (mk_state w r)
    = Some (Return true, mk_state w' r')
    /\ select_param r' = Some (epc (card_info_of packet))
    /\ select_mode r' = select_mode r
    /\ written w' = written w ++ [Cmd.select_params (slice 8 20 packet); Cmd.select_mode 0x02]
    /\ script w' = rest.
Proof.
  intros Hc Hb Hl Hs Hk1 Hd2 Hno Hfuel Hfuel2.
  destruct (slice_8_20 packet Hb Hl) as [Hsb Hsl].
  cbn [epc card_info_of]. unfold set_select_params.
  is_connected_step (mk_state w r). rewrite Hc. cbn [negb].
  rewrite hex_join_truthy by (destruct (slice 8 20 packet); [ discriminate Hsl | discriminate ]).
  rewrite remove_spaces_hex_join, fromhex_packed by exact Hsb.
  rewrite Hsl. cbn [Nat.eqb negb]. unfold try_except.
  rewrite (bind_run _ _ _ _ _
             (send_command_answer fuel (Cmd.select_params (slice 8 20 packet)) _ _ w r Hc Hs
                ltac:(discriminate) ltac:(cbn [length]; lia))).
  rewrite ack_exchange by (assumption || lia).
  assert (Hk1' := Hk1). apply Z.eqb_neq in Hk1'.
  cbn [upto_terminator]. rewrite Hk1'.
  cbn [Z.eqb Pos.eqb length Nat.leb andb at_ nth].
  rewrite (bind_run _ _ _ _ _ (modify_self_run _ _)). cbn [world self].
  set (w1 := set_in_buffer
               (log_write (set_script w (Answer d2 :: rest))
                          (Cmd.select_params (slice 8 20 packet))) []).
  set (r1 := with_select_param r (Some (Fmt.hex_join (slice 8 20 packet)))).
  assert (Hc1 : is_connected_of r1 = true) by (destruct r; exact Hc).
  assert (Hs1 : script w1 = Answer d2 :: rest) by reflexivity.
  rewrite (bind_run _ _ _ _ _
             (select_mode_not_acknowledged fuel 0x02 d2 rest w1 r1 Hc1
                ltac:(unfold is_byte; lia) Hs1 Hd2 Hno Hfuel2)).
  eexists _, _. split; [ reflexivity | ].
  destruct (after_exchange_logs w1 rest (Cmd.select_mode 0x02) d2) as (Hw & Hsc & _).
  rewrite Hw, Hsc. subst w1 r1. destruct w, r. cbn. rewrite <- app_assoc.
  repeat split.
Qed.

Lemma select_mask_without_mode_witness :
  is_connected_of attached = true /\ bytes example_frame /\
  (20 <= length example_frame)%nat /\ 0x0E <> 0x7E /\
  at_ (upto_terminator error_frame) 2 <> 0x12 /\
  exists w' r',
    set_select_params 109 (Some (epc (card_info_of example_frame)))
      (mk_state (bench [Answer [0xBB; 0x01; 0x0C; 0x00; 0x01; 0x00; 0x0E; 0x7E];
                        Answer error_frame]) attached)
    = Some (Return true, mk_state w' r')
    /\ select_param r' = Some (epc (card_info_of example_frame))
    /\ select_mode r' = select_mode attached
    /\ written w'
       = written (bench [Answer [0xBB; 0x01; 0x0C; 0x00; 0x01; 0x00; 0x0E; 0x7E];
                         Answer error_frame])
         ++ [Cmd.select_params (slice 8 20 example_frame); Cmd.select_mode 0x02]
    /\ script w' = [].
Proof.
  assert (B : bytes example_frame) by apply example_frame_well_formed.
  assert (L : (20 <= length example_frame)%nat) by (cbn; lia).
  assert (N1 : 0x0E <> 0x7E) by lia.
  assert (N2 : error_frame <> []) by discriminate.
  assert (N3 : at_ (upto_terminator error_frame) 2 <> 0x12) by (cbn; lia).
  assert (F : (108 < 109)%nat) by lia.
  assert (F2 : (length error_frame + 100 < 109)%nat) by (cbn; lia).
  split; [ reflexivity | ].
  repeat (split; [ assumption | ]).
  exact (select_mask_without_mode 109 example_frame error_frame 0x0E []
           (bench [Answer [0xBB; 0x01; 0x0C; 0x00; 0x01; 0x00; 0x0E; 0x7E];
                   Answer error_frame]) attached
           eq_refl B L eq_refl N1 N2 N3 F F2).
Defined.

(** * The claims on corrupted notifications and on checksums *)

Lemma bytes_at (data : list Z) (i : nat) :
  bytes data -> (i < length data)%nat -> is_byte (at_ data i).
Proof.
  intros Hb Hi. unfold bytes in Hb. rewrite Forall_forall in Hb.
  apply Hb. unfold at_. apply nth_In. exact Hi.
Qed.

Lemma parse_fmt_int (z : Z) :
  option_map Z.of_int (NilZero.int_of_string (Fmt.fmt_int z)) = Some z.
Proof.
  unfold Fmt.fmt_int. pose proof (DecimalZ.of_to z) as H.
  destruct (Z.to_int z) as [u | u] eqn:E; destruct u;
    try (rewrite NilZero.isi by discriminate; cbn [option_map]; rewrite H; reflexivity).
  - rewrite NilZero.isi_posnil. cbn [option_map]. rewrite <- H. reflexivity.
  - rewrite NilZero.isi_negnil. cbn [option_map]. rewrite <- H. reflexivity.
Qed.

Lemma fromhex_pair (a b : Z) :
  is_byte a -> is_byte b ->
  Str.fromhex (Fmt.fmt_02X a ++ " " ++ Fmt.fmt_02X b) = Some [a; b].
Proof.
  intros Ha Hb.
  change (Fmt.fmt_02X a ++ " " ++ Fmt.fmt_02X b)%string with (Fmt.hex_join [a; b]).
  apply fromhex_hex_join. constructor; [ exact Ha | ]. constructor; [ exact Hb | constructor ].
Qed.

Lemma card_info_carries (packet : list Z) :
  bytes packet -> (22 <= length packet)%nat -> carries packet (card_info_of packet).
Proof.
  intros Hb Hl. unfold carries. cbn [epc pc crc rssi card_info_of].
  split; [ apply fromhex_hex_join, slice_8_20; [ exact Hb | lia ] | ].
  split; [ apply fromhex_pair; apply bytes_at; (exact Hb || lia) | ].
  split; [ apply fromhex_pair; apply bytes_at; (exact Hb || lia) | ].
  rewrite parse_fmt_int. unfold rssi_dbm.
  destruct (127 <? at_ packet 5); f_equal; lia.
Qed.

(** C2. A well-formed card notification with one payload byte (offset
    5..21) replaced by a different byte, checksum untouched, is consumed
    and reported to nobody by either decoder, and a well-formed
    notification [g] that follows it in the same read is reported, once,
    with the bytes of [g]: the [epc], [pc] and [crc] texts of the report
    read back as the bytes of [g] at offsets 8..19, 6..7 and 20..21, and
    its [rssi] text as the number got from the byte at offset 5. *)
Theorem corrupted_frame_dropped (f g : list Z) (i : nat) (b : Z) :
  well_formed f -> well_formed g ->
  (5 <= i <= 21)%nat -> is_byte b -> b <> at_ f i ->
  Core.read_thread_func Core.start [corrupt f i b] = Some (Core.start, [])
  /\ SerialHandler.run [] [corrupt f i b] = Some ([], [])
  /\ exists info,
       Core.read_thread_func Core.start [corrupt f i b ++ g]
       = Some (Core.start, [CardRead info])
       /\ SerialHandler.run [] [corrupt f i b ++ g] = Some ([], [CardRead info])
       /\ info = card_info_of g
       /\ carries g info.
Proof.
  intros Wf Wg Hi Hb Hne.
  destruct (corrupt_then_valid f g i b Wf Wg Hi Hb Hne) as (H1 & H2 & H3 & H4).
  split; [ exact H1 | ]. split; [ exact H3 | ].
  exists (card_info_of g).
  split; [ exact H2 | ]. split; [ exact H4 | ]. split; [ reflexivity | ].
  destruct Wg as (L & B & _). apply card_info_carries; [ exact B | lia ].
Qed.

Lemma corrupted_frame_dropped_witness :
  well_formed example_frame /\
  (5 <= 5 <= 21)%nat /\ is_byte 0x31 /\ 0x31 <> at_ example_frame 5 /\
  exists info,
    Core.read_thread_func Core.start [corrupt example_frame 5 0x31 ++ example_frame]
    = Some (Core.start, [CardRead info])
    /\ SerialHandler.run [] [corrupt example_frame 5 0x31 ++ example_frame]
       = Some ([], [CardRead info])
    /\ info = card_info_of example_frame
    /\ carries example_frame info.
Proof.
  assert (Hi : (5 <= 5 <= 21)%nat) by lia.
  assert (Hb : is_byte 0x31) by (unfold is_byte; lia).
  assert (Hne : 0x31 <> at_ example_frame 5) by (cbn; lia).
  split; [ apply example_frame_well_formed | ].
  split; [ exact Hi | ].
  split; [ exact Hb | ].
  split; [ exact Hne | ].
  exact (proj2 (proj2 (corrupted_frame_dropped example_frame example_frame 5 0x31
                         example_frame_well_formed example_frame_well_formed Hi Hb Hne))).
Defined.

(** C3. Every frame the builders of set-Select-mode, set-Select-mask,
    write-EPC and read-tag-memory produce from validated arguments has
    seven bytes at least and ends in a checksum byte followed by the
    terminator [7E]; the checksum byte, the second-to-last byte of the
    frame, is the sum of the bytes from offset 1 (the frame type)
    through the last payload byte, modulo 256. *)
Theorem built_checksum (frame : list Z) :
  built frame ->
  (7 <= length frame)%nat
  /\ checksum_ok frame
  /\ exists pre c,
       frame = pre ++ [c; 0x7E]
       /\ (5 <= length pre)%nat
       /\ c = sum (skipn 1 pre) mod 256.
Proof.
  intro B.
  destruct (built_shape frame B) as (_ & Hl & _ & _ & Hc).
  split; [ exact Hl | ]. split; [ exact Hc | ].
  destruct (built_framed frame B) as (pre & E & _ & Hp & _).
  exists pre, (sum (skipn 1 pre) mod 256).
  split; [ exact E | ]. split; [ exact Hp | reflexivity ].
Qed.

Lemma built_checksum_witness :
  built (Cmd.write_epc [0; 0; 0; 1]
           [0xAA; 0xBB; 0xCC; 0xDD; 0xEE; 0xFF; 0x11; 0x22; 0x33; 0x44; 0x55; 0x66])
  /\ le 7 (length (Cmd.write_epc [0; 0; 0; 1]
           [0xAA; 0xBB; 0xCC; 0xDD; 0xEE; 0xFF; 0x11; 0x22; 0x33; 0x44; 0x55; 0x66]))
  /\ checksum_ok (Cmd.write_epc [0; 0; 0; 1]
           [0xAA; 0xBB; 0xCC; 0xDD; 0xEE; 0xFF; 0x11; 0x22; 0x33; 0x44; 0x55; 0x66]).
Proof.
  assert (B : built (Cmd.write_epc [0; 0; 0; 1]
           [0xAA; 0xBB; 0xCC; 0xDD; 0xEE; 0xFF; 0x11; 0x22; 0x33; 0x44; 0x55; 0x66])).
  { apply (built_write_epc "AA BB CC DD EE FF 11 22 33 44 55 66" "1"); reflexivity. }
  split; [ exact B | ].
  destruct (built_checksum _ B) as (Hl & Hc & _).
  split; [ exact Hl | exact Hc ].
Defined.

(** * The claim on transport errors *)







